(** * pyspeedbinb: the tile descramblers of [scrambler.py]

    A shallow embedding of the two classes of [scrambler.py], [Type1] and
    [Type2], and of the Python primitives they rely on, followed by the
    properties of the key parsers and of the rectangle computations.

    Conventions of the embedding.
    - A Python [int] is a [Z].
    - A Python [str] is a [string]; a character is its code point, so the
      keys are taken over the code points 0..255.
    - A raised exception is the [Raise] case of [Py.result]; [None] is the
      [None] of [option].
    - [a / b] on two ints is a binary64 number, the one nearest to the exact
      quotient (ties to the even significand), and [OverflowError] when that
      number would be 2^1024 or more; [math.floor] of it is exact.  So
      [math.floor(a / b)] is [Py.floor_div], which is the floor of the exact
      quotient for operands up to 2^52 and may differ from it, or raise,
      above.
    - [int] on a literal of more than 4300 digits is refused by recent
      interpreters with [ValueError]; that configurable limit is not part of
      the embedding. *)

From Stdlib Require Import ZArith List String Ascii Bool Lia Permutation.
Import ListNotations.

Local Open Scope Z_scope.

(* ===================================================================== *)
(** * Python primitives *)
(* ===================================================================== *)

Module Py.

Inductive exn : Type :=
  ValueError | IndexError | ZeroDivisionError | OverflowError.

Inductive result (A : Type) : Type :=
| Ok (a : A)
| Raise (e : exn).
Arguments Ok {A} a.
Arguments Raise {A} e.

Definition bind {A B : Type} (c : result A) (k : A -> result B) : result B :=
  match c with
  | Ok a => k a
  | Raise e => Raise e
  end.

(** [len(s)] and [len(l)]. *)
Definition len (s : string) : Z := Z.of_nat (String.length s).
Definition llen {A : Type} (l : list A) : Z := Z.of_nat (List.length l).

(** [l[i]]: a negative index counts from the end, anything outside
    [-len, len) raises [IndexError]. *)
Definition index {A : Type} (l : list A) (i : Z) : result A :=
  let i' := if i <? 0 then i + llen l else i in
  if i' <? 0 then Raise IndexError
  else match nth_error l (Z.to_nat i') with
       | Some a => Ok a
       | None => Raise IndexError
       end.

(** [s[i]] on a string. *)
Definition str_index (s : string) (i : Z) : result ascii :=
  index (list_ascii_of_string s) i.

(** [range(n)]. *)
Definition range (n : Z) : list Z := map Z.of_nat (seq 0 (Z.to_nat n)).

(** [for i in l: body], the loop state threaded through the iterations;
    an exception leaves the loop. *)
Fixpoint for_each {S : Type} (l : list Z) (body : Z -> S -> result S) (s : S)
  : result S :=
  match l with
  | [] => Ok s
  | i :: l' => bind (body i s) (for_each l' body)
  end.

(** [s.split(sep)] for a one-character separator. *)
Fixpoint split (sep : ascii) (s : string) : list string :=
  match s with
  | EmptyString => [EmptyString]
  | String c s' =>
      if Ascii.eqb c sep then EmptyString :: split sep s'
      else match split sep s' with
           | p :: ps => String c p :: ps
           | [] => [String c EmptyString]
           end
  end.

(** [s.find(t)] for a one-character [t]: the first index, or [-1]. *)
Fixpoint find_from (s : string) (t : ascii) (i : Z) : Z :=
  match s with
  | EmptyString => -1
  | String c s' => if Ascii.eqb c t then i else find_from s' t (i + 1)
  end.
Definition find (s : string) (t : ascii) : Z := find_from s t 0.

(** [ord(c)]. *)
Definition ord (c : ascii) : Z := Z.of_N (N_of_ascii c).

(** ** [int(s)]

    Surrounding white space is dropped, one sign is allowed, and the
    digits may be separated by single underscores. *)
Definition is_space (c : ascii) : bool :=
  let n := ord c in
  ((9 <=? n) && (n <=? 13)) || (n =? 32) || (n =? 133) || (n =? 160).

Definition is_digit (c : ascii) : bool :=
  let n := ord c in (48 <=? n) && (n <=? 57).

Definition digit_value (c : ascii) : Z := ord c - 48.

Fixpoint lstrip (l : list ascii) : list ascii :=
  match l with
  | c :: l' => if is_space c then lstrip l' else l
  | [] => []
  end.

Definition strip (l : list ascii) : list ascii :=
  rev (lstrip (rev (lstrip l))).

(** [digits acc after_digit l]: [after_digit] says that the previous
    character was a digit, the only place where an underscore or the end
    of the literal may come. *)
Fixpoint digits (acc : Z) (after_digit : bool) (l : list ascii) : option Z :=
  match l with
  | [] => if after_digit then Some acc else None
  | c :: l' =>
      if is_digit c then digits (10 * acc + digit_value c) true l'
      else if Ascii.eqb c "_" && after_digit then digits acc false l'
      else None
  end.

Definition int (s : string) : result Z :=
  let body := strip (list_ascii_of_string s) in
  let '(sign, body) :=
    match body with
    | c :: rest =>
        if Ascii.eqb c "-" then (-1, rest)
        else if Ascii.eqb c "+" then (1, rest)
        else (1, body)
    | [] => (1, body)
    end in
  match digits 0 false body with
  | Some v => Ok (sign * v)
  | None => Raise ValueError
  end.

(** ** [math.floor(a / b)]

    The true division of two ints gives the binary64 number nearest to the
    exact quotient: 53 significant bits, fewer below 2^-1022 where the
    spacing stays 2^-1074, ties to the even significand. *)

(** The integer nearest to [num / den], ties to the even one, for
    [0 <= num] and [0 < den]. *)
Definition round_half_even (num den : Z) : Z :=
  let q := num / den in
  let r := num mod den in
  if 2 * r <? den then q
  else if den <? 2 * r then q + 1
  else q + q mod 2.

(** [floor(log2(num / den))] for positive [num] and [den]: the exponent of
    the power of two at or below the quotient. *)
Definition binade (num den : Z) : Z :=
  let d := Z.log2 num - Z.log2 den in
  if num * 2 ^ Z.max 0 (- d) <? den * 2 ^ Z.max 0 d then d - 1 else d.

(** [math.floor(a / b)].  The quotient is rounded to [m * 2^p], with [p] the
    exponent of the last significant bit; a rounded value of 2^1024 or more
    is an [OverflowError]; a zero result has floor 0 whatever its sign. *)
Definition floor_div (a b : Z) : result Z :=
  if b =? 0 then Raise ZeroDivisionError
  else if a =? 0 then Ok 0
  else
    let num := Z.abs a in
    let den := Z.abs b in
    let p := Z.max (binade num den - 52) (-1074) in
    let m := round_half_even (num * 2 ^ Z.max 0 (- p)) (den * 2 ^ Z.max 0 p) in
    if (0 <=? p) && (2 ^ 1024 <=? m * 2 ^ p) then Raise OverflowError
    else Ok (Z.sgn a * Z.sgn b * m * 2 ^ Z.max 0 p / 2 ^ Z.max 0 (- p)).

(** [a % b] on ints. *)
Definition modulo (a b : Z) : result Z :=
  if b =? 0 then Raise ZeroDivisionError else Ok (a mod b).

End Py.

Import Py.

Arguments Py.int : simpl never.
Arguments Py.len : simpl never.
Arguments Py.range : simpl never.
Arguments Py.str_index : simpl never.

Declare Scope py_scope.
Notation "x <- c ;; k" := (Py.bind c (fun x => k))
(at level 61, c at next level, right associativity) : py_scope.
Local Open Scope py_scope.

(** The copy instruction both engines produce. *)
Module Rect.
Record t : Type := mk
  { xsrc : Z; ysrc : Z; width : Z; height : Z; xdest : Z; ydest : Z }.
End Rect.

(* ===================================================================== *)
(** * Scrambler Type 1 *)
(* ===================================================================== *)

Module Piece.
Record t : Type := mk { x : Z; y : Z; w : Z; h : Z }.
End Piece.

Module Type1.

(** The dict returned by [_parse_key]. *)
Record model : Type := mk_model
  { ndx : Z; ndy : Z; piece : list Piece.t }.

(** A constructed engine: [Tt] is the scramble map, [Pt] the unscramble
    map. *)
Record t : Type := mk { Tt : model; Pt : model }.

Definition decode_char (t : ascii) : Z * Z :=
  let n := Py.find "ABCDEFGHIJKLMNOPQRSTUVWXYZ" t in
  let '(i, n) :=
    if n <? 0 then (1, Py.find "abcdefghijklmnopqrstuvwxyz" t) else (0, n) in
  (i, i + 2 * n).

(** The width and height factors of piece [d], from its position in the
    key alone. *)
Definition factors (ndx ndy d : Z) : Z * Z :=
  let a := (ndx - 1) * (ndy - 1) - 1 in
  let f := ndx - 1 + a in
  let c := ndy - 1 + f in
  let l := 1 + c in
  if d <=? a then (2, 2)
  else if d <=? f then (2, 1)
  else if d <=? c then (1, 2)
  else if d <=? l then (1, 1)
  else (0, 0).

(** One iteration of the loop of [_parse_key]. *)
Definition parse_piece (ndx ndy : Z) (data_str : string) (d : Z)
    (pieces : list Piece.t) : result (list Piece.t) :=
  cs <- Py.str_index data_str (2 * d) ;;
  ch <- Py.str_index data_str (2 * d + 1) ;;
  let '(_, s) := decode_char cs in
  let '(_, h) := decode_char ch in
  let '(u, o) := factors ndx ndy d in
  Ok (pieces ++ [Piece.mk s h u o]).

Definition _parse_key (key : string) : result (option model) :=
  let parts := Py.split "-" key in
  if negb (Py.llen parts =? 3) then Ok None
  else
    p0 <- Py.index parts 0 ;;
    ndx <- Py.int p0 ;;
    p1 <- Py.index parts 1 ;;
    ndy <- Py.int p1 ;;
    data_str <- Py.index parts 2 ;;
    if negb (Py.len data_str =? ndx * ndy * 2) then Ok None
    else
      pieces <- Py.for_each (Py.range (ndx * ndy))
                  (parse_piece ndx ndy data_str) [] ;;
      Ok (Some (mk_model ndx ndy pieces)).

Definition __init__ (key_h key_s : string) : result t :=
  Tt <- _parse_key key_s ;;
  Pt <- _parse_key key_h ;;
  match Tt, Pt with
  | Some Tt, Some Pt =>
      if negb (ndx Tt =? ndx Pt) || negb (ndy Tt =? ndy Pt)
      then Raise ValueError
      else Ok (mk Tt Pt)
  | _, _ => Raise ValueError
  end.

(** [math.floor(v / 2) * r + (v % 2) * e], the expression that turns a
    logical coordinate or factor [v] into pixels. *)
Definition pixels (v r e : Z) : result Z :=
  q <- Py.floor_div v 2 ;;
  Ok (q * r + (v mod 2) * e).

(** One iteration of the loop of [calculate_coords]. *)
Definition tile_rect (self : t) (r e h u : Z) (a : Z) (coords : list Rect.t)
  : result (list Rect.t) :=
  f <- Py.index (piece (Tt self)) a ;;
  c <- Py.index (piece (Pt self)) a ;;
  xsrc <- pixels (Piece.x f) r e ;;
  ysrc <- pixels (Piece.y f) h u ;;
  width <- pixels (Piece.w f) r e ;;
  height <- pixels (Piece.h f) h u ;;
  xdest <- pixels (Piece.x c) r e ;;
  ydest <- pixels (Piece.y c) h u ;;
  Ok (coords ++ [Rect.mk xsrc ysrc width height xdest ydest]).

Definition calculate_coords (self : t) (image_width image_height : Z)
  : result (list Rect.t) :=
  let n := image_width - image_width mod 8 in
  r1 <- Py.floor_div (n - 1) 7 ;;
  r2 <- Py.floor_div (n - 1) 7 ;;
  let r := r1 - r2 mod 8 in
  let e := n - 7 * r in
  let s := image_height - image_height mod 8 in
  h1 <- Py.floor_div (s - 1) 7 ;;
  h2 <- Py.floor_div (s - 1) 7 ;;
  let h := h1 - h2 mod 8 in
  let u := s - 7 * h in
  let o := Py.llen (piece (Tt self)) in
  coords <- Py.for_each (Py.range o) (tile_rect self r e h u) [] ;;
  let l := r * (ndx (Tt self) - 1) + e in
  let v := h * (ndy (Tt self) - 1) + u in
  let coords :=
    if l <? image_width
    then coords ++ [Rect.mk l 0 (image_width - l) v l 0]
    else coords in
  let coords :=
    if v <? image_height
    then coords ++ [Rect.mk 0 v image_width (image_height - v) 0 v]
    else coords in
  Ok coords.

End Type1.

(* ===================================================================== *)
(** * Scrambler Type 2 *)
(* ===================================================================== *)

Module Type2.

Definition _Jt : list Z :=
  [
    (-1); (-1); (-1); (-1); (-1); (-1); (-1); (-1); (-1); (-1); (-1); (-1); (-1); (-1); (-1); (-1);
    (-1); (-1); (-1); (-1); (-1); (-1); (-1); (-1); (-1); (-1); (-1); (-1); (-1); (-1); (-1); (-1);
    (-1); (-1); (-1); (-1); (-1); (-1); (-1); (-1); (-1); (-1); (-1); (-1); (-1); 62; (-1); (-1);
    52; 53; 54; 55; 56; 57; 58; 59; 60; 61; (-1); (-1); (-1); (-1); (-1); (-1);
    (-1); 0; 1; 2; 3; 4; 5; 6; 7; 8; 9; 10; 11; 12; 13; 14;
    15; 16; 17; 18; 19; 20; 21; 22; 23; 24; 25; (-1); (-1); (-1); (-1); 63;
    (-1); 26; 27; 28; 29; 30; 31; 32; 33; 34; 35; 36; 37; 38; 39; 40;
    41; 42; 43; 44; 45; 46; 47; 48; 49; 50; 51; (-1); (-1); (-1); (-1); (-1) ].

(** The instance: [kt] is [None] until the keys have been parsed. *)
Record t : Type := mk
  { kt : option (list Z);
    T : Z; j : Z; Dt : Z;
    Rt : list Z; Ft : list Z; Lt : list Z; Nt : list Z }.

Definition _decode_char (char_code : Z) : Z :=
  if (0 <=? char_code) && (char_code <? Py.llen _Jt)
  then nth (Z.to_nat char_code) _Jt (-1)
  else -1.

(** The dict returned by [_parse_sub_key]. *)
Record sub_key : Type := mk_sub_key
  { t_list : list Z; n_list : list Z; p_list : list Z }.

(** One iteration of each loop of [_parse_sub_key]: the character at
    [offset + i] is decoded and appended. *)
Definition decode_at (data_str : string) (offset : Z) (i : Z) (acc : list Z)
  : result (list Z) :=
  c <- Py.str_index data_str (offset + i) ;;
  Ok (acc ++ [_decode_char (Py.ord c)]).

Definition _parse_sub_key (T j : Z) (data_str : string) : result sub_key :=
  t_list <- Py.for_each (Py.range T) (decode_at data_str 0) [] ;;
  n_list <- Py.for_each (Py.range j) (decode_at data_str T) [] ;;
  p_list <- Py.for_each (Py.range (T * j)) (decode_at data_str (T + j)) [] ;;
  Ok (mk_sub_key t_list n_list p_list).

(** ** The key grammar

    [re.match(r'^=([0-9]+)-([0-9]+)([-+])([0-9]+)-([-_0-9A-Za-z]+)$', key)].
    Every repetition is followed by a character outside its class, so the
    match is the greedy one; [$] matches at the end of the key and also
    before a line feed that ends it. *)
Record groups : Type := mk_groups
  { group1 : string; group2 : string; group3 : ascii;
    group4 : string; group5 : string }.

Definition is_data_char (c : ascii) : bool :=
  let n := Py.ord c in
  (n =? 45) || (n =? 95) || Py.is_digit c
  || ((65 <=? n) && (n <=? 90)) || ((97 <=? n) && (n <=? 122)).

(** The longest prefix of [l] in the class [p], and what follows it. *)
Fixpoint span (p : ascii -> bool) (l : list ascii) : list ascii * list ascii :=
  match l with
  | c :: l' =>
      if p c then let '(u, v) := span p l' in (c :: u, v) else ([], l)
  | [] => ([], [])
  end.

(** [p+] as a capture group: [None] when not even one character matches. *)
Definition plus (p : ascii -> bool) (l : list ascii)
  : option (string * list ascii) :=
  match span p l with
  | ([], _) => None
  | (u, v) => Some (string_of_list_ascii u, v)
  end.

(** A literal character of the pattern. *)
Definition expect (c : ascii) (l : list ascii) : option (list ascii) :=
  match l with
  | x :: l' => if Ascii.eqb x c then Some l' else None
  | [] => None
  end.

(** [$]: the end of the key, or a line feed that ends it. *)
Definition at_end (l : list ascii) : bool :=
  match l with
  | [] => true
  | [c] => Ascii.eqb c "010"
  | _ => false
  end.

Definition key_re (key : string) : option groups :=
  match expect "=" (list_ascii_of_string key) with
  | Some l =>
  match plus Py.is_digit l with
  | Some (g1, l) =>
  match expect "-" l with
  | Some l =>
  match plus Py.is_digit l with
  | Some (g2, g3 :: l) =>
  if Ascii.eqb g3 "-" || Ascii.eqb g3 "+" then
  match plus Py.is_digit l with
  | Some (g4, l) =>
  match expect "-" l with
  | Some l =>
  match plus is_data_char l with
  | Some (g5, l) =>
      if at_end l then Some (mk_groups g1 g2 g3 g4 g5) else None
  | None => None end
  | None => None end
  | None => None end
  else None
  | _ => None end
  | None => None end
  | None => None end
  | None => None end.

(** One iteration of the loop that builds [kt]. *)
Definition compose (s_parsed h_parsed : sub_key) (u : Z) (kt : list Z)
  : result (list Z) :=
  hp <- Py.index (p_list h_parsed) u ;;
  final_index <- Py.index (p_list s_parsed) hp ;;
  Ok (kt ++ [final_index]).

(** [_parse_keys] fills the fields of [self] as it goes and returns early
    when a check fails; the result is the instance as it was left. *)
Definition _parse_keys (self : t) (key_s key_h : string) : result t :=
  match key_re key_s, key_re key_h with
  | Some s_match, Some h_match =>
      if negb (String.eqb (group1 s_match) (group1 h_match))
         || negb (String.eqb (group2 s_match) (group2 h_match))
         || negb (String.eqb (group4 s_match) (group4 h_match))
         || negb (Ascii.eqb (group3 s_match) "+")
         || negb (Ascii.eqb (group3 h_match) "-")
      then Ok self
      else
        T <- Py.int (group1 s_match) ;;
        j <- Py.int (group2 s_match) ;;
        Dt <- Py.int (group4 s_match) ;;
        let self :=
          mk (kt self) T j Dt (Rt self) (Ft self) (Lt self) (Nt self) in
        if (T >? 8) || (j >? 8) || (T * j >? 64) then Ok self
        else
          let s_data_str := group5 s_match in
          let h_data_str := group5 h_match in
          if negb (Py.len s_data_str =? T + j + T * j)
             || negb (Py.len h_data_str =? T + j + T * j)
          then Ok self
          else
            s_parsed <- _parse_sub_key T j s_data_str ;;
            h_parsed <- _parse_sub_key T j h_data_str ;;
            let Rt := n_list s_parsed in
            let Ft := t_list s_parsed in
            let Lt := n_list h_parsed in
            let Nt := t_list h_parsed in
            kt <- Py.for_each (Py.range (T * j))
                    (compose s_parsed h_parsed) [] ;;
            Ok (mk (Some kt) T j Dt Rt Ft Lt Nt)
  | _, _ => Ok self
  end.

Definition __init__ (key_h key_s : string) : result t :=
  let self := mk None 0 0 0 [] [] [] [] in
  _parse_keys self key_s key_h.

(** [not self.kt]: true for [None] and for the empty list. *)
Definition not_kt (self : t) : bool :=
  match kt self with
  | None | Some [] => true
  | Some (_ :: _) => false
  end.

(** One iteration of the loop of [calculate_coords]. *)
Definition tile_rect (self : t) (kt : list Z) (i n r e s h : Z)
    (o : Z) (u : list Rect.t) : result (list Rect.t) :=
  a <- Py.modulo o (T self) ;;
  f <- Py.floor_div o (T self) ;;
  Lt_f <- Py.index (Lt self) f ;;
  let c := Dt self + a * (r + 2 * Dt self) + (if Lt_f <? a then e - r else 0) in
  Nt_a <- Py.index (Nt self) a ;;
  let l := Dt self + f * (s + 2 * Dt self) + (if Nt_a <? f then h - s else 0) in
  kt_o <- Py.index kt o ;;
  v <- Py.modulo kt_o (T self) ;;
  d <- Py.floor_div kt_o (T self) ;;
  Rt_d <- Py.index (Rt self) d ;;
  let b := v * r + (if Rt_d <? v then e - r else 0) in
  Ft_v <- Py.index (Ft self) v ;;
  let g := d * s + (if Ft_v <? d then h - s else 0) in
  let p := if Lt_f =? a then e else r in
  let m := if Nt_a =? f then h else s in
  if (i >? 0) && (n >? 0)
  then Ok (u ++ [Rect.mk c l p m b g])
  else Ok u.

(** The first test is [if not self.kt]: [None] and the empty list both
    give the one-to-one rectangle. *)
Definition calculate_coords (self : t) (image_width image_height : Z)
  : result (list Rect.t) :=
  match kt self with
  | None | Some [] => Ok [Rect.mk 0 0 image_width image_height 0 0]
  | Some kt =>
      let i := image_width - 2 * T self * Dt self in
      let n := image_height - 2 * j self * Dt self in
      r <- Py.floor_div (i + T self - 1) (T self) ;;
      let e := i - (T self - 1) * r in
      s <- Py.floor_div (n + j self - 1) (j self) ;;
      let h := n - (j self - 1) * s in
      Py.for_each (Py.range (T self * j self))
        (tile_rect self kt i n r e s h) []
  end.

End Type2.

(* ===================================================================== *)
(** * Notions used by the statements *)
(* ===================================================================== *)

(** ** Coverage by destination rectangles *)

(** The pixel [(px, py)] lies in the destination rectangle of [rc]. *)
Definition covers (rc : Rect.t) (px py : Z) : bool :=
  (Rect.xdest rc <=? px) && (px <? Rect.xdest rc + Rect.width rc)
  && (Rect.ydest rc <=? py) && (py <? Rect.ydest rc + Rect.height rc).

(** How many destination rectangles of [coords] contain the pixel. *)
Definition cover_count (coords : list Rect.t) (px py : Z) : nat :=
  List.length (filter (fun rc => covers rc px py) coords).

Definition in_image (image_width image_height px py : Z) : bool :=
  (0 <=? px) && (px <? image_width) && (0 <=? py) && (py <? image_height).

(** The destination rectangles partition the image: a pixel of the image
    lies in exactly one of them, a pixel outside in none. *)
Definition partitions (coords : list Rect.t) (image_width image_height : Z)
  : Prop :=
  forall px py,
    cover_count coords px py =
    if in_image image_width image_height px py then 1%nat else 0%nat.

(** ** Type 1 keys *)

Definition is_upper (c : ascii) : bool :=
  let n := Py.ord c in (65 <=? n) && (n <=? 90).

Definition is_lower (c : ascii) : bool :=
  let n := Py.ord c in (97 <=? n) && (n <=? 122).

Definition is_letter (c : ascii) : bool := is_upper c || is_lower c.

(** The character of [s] at position [i], for [i] inside [s]. *)
Definition char_at (s : string) (i : Z) : ascii :=
  nth (Z.to_nat i) (list_ascii_of_string s) zero.

(** Piece [d] of a data section: coordinates from the characters [2d] and
    [2d + 1], factors from the rank [d]. *)
Definition piece_at (ndx ndy : Z) (data_str : string) (d : Z) : Piece.t :=
  Piece.mk (snd (Type1.decode_char (char_at data_str (2 * d))))
           (snd (Type1.decode_char (char_at data_str (2 * d + 1))))
           (fst (Type1.factors ndx ndy d))
           (snd (Type1.factors ndx ndy d)).

(** [_parse_key] does not return a model: it returns [None] or raises. *)
Definition parse_fails (key : string) : bool :=
  match Type1._parse_key key with
  | Ok (Some _) => false
  | _ => true
  end.

(** ** Type 1 sizes and expected rectangles *)

(** The base tile size along one axis of extent [d], and the remainder
    size, with the floor of the exact quotient by 7: what
    [Type1.calculate_coords] works with as long as its binary64 quotient is
    not rounded. *)
Definition base_size (d : Z) : Z :=
  let n := d - d mod 8 in (n - 1) / 7 - ((n - 1) / 7) mod 8.

Definition rest_size (d : Z) : Z := (d - d mod 8) - 7 * base_size d.

(** What [Type1.pixels] computes where the quotient by 2 is exact, as it
    is on every decoded coordinate and factor. *)
Definition pixel_of (v r e : Z) : Z := v / 2 * r + (v mod 2) * e.

(** The rectangle of a scramble piece [f] and an unscramble piece [c]. *)
Definition tile (r e h u : Z) (fc : Piece.t * Piece.t) : Rect.t :=
  let f := fst fc in
  let c := snd fc in
  Rect.mk (pixel_of (Piece.x f) r e) (pixel_of (Piece.y f) h u)
          (pixel_of (Piece.w f) r e) (pixel_of (Piece.h f) h u)
          (pixel_of (Piece.x c) r e) (pixel_of (Piece.y c) h u).

(** The remainder rectangles, when there is something left. *)
Definition right_strip (l v image_width : Z) : list Rect.t :=
  if l <? image_width then [Rect.mk l 0 (image_width - l) v l 0] else [].

Definition bottom_strip (v image_width image_height : Z) : list Rect.t :=
  if v <? image_height then [Rect.mk 0 v image_width (image_height - v) 0 v]
  else [].

(** The rectangle list for the base sizes [r] and [h]: the tiles in index
    order, then the strips. *)
Definition rect_list (self : Type1.t) (image_width image_height r h : Z)
  : list Rect.t :=
  let e := (image_width - image_width mod 8) - 7 * r in
  let u := (image_height - image_height mod 8) - 7 * h in
  let l := r * (Type1.ndx (Type1.Tt self) - 1) + e in
  let v := h * (Type1.ndy (Type1.Tt self) - 1) + u in
  map (tile r e h u)
      (combine (Type1.piece (Type1.Tt self)) (Type1.piece (Type1.Pt self)))
  ++ right_strip l v image_width
  ++ bottom_strip v image_width image_height.

(** The range of the coordinates and factors that [_parse_key] produces. *)
Definition small_piece (p : Piece.t) : Prop :=
  -1 <= Piece.x p <= 51 /\ -1 <= Piece.y p <= 51
  /\ 0 <= Piece.w p <= 2 /\ 0 <= Piece.h p <= 2.

(** ** Proper Type 1 layouts

    A logical coordinate [2a + b] stands for [a] full columns and [b] narrow
    columns to the left.  With the narrow column in position [p], column [k]
    of the grid therefore carries the coordinate and width factor
    [slot p k]. *)
Definition slot (p k : Z) : Z * Z :=
  if k <? p then (2 * k, 2)
  else if k =? p then (2 * k, 1)
  else (2 * k - 1, 2).

(** The cells of an [ndx] by [ndy] grid whose narrow column is [p] and whose
    narrow row is [q]. *)
Definition grid (ndx ndy p q : Z) : list ((Z * Z) * (Z * Z)) :=
  list_prod (map (slot p) (Py.range ndx)) (map (slot q) (Py.range ndy)).

(** Where the engine puts piece [d], and with which factors: the
    destination coordinates come from the unscramble map, the factors from
    the scramble map. *)
Definition placements (self : Type1.t) : list ((Z * Z) * (Z * Z)) :=
  map (fun fc : Piece.t * Piece.t =>
         let (f, c) := fc in
         ((Piece.x c, Piece.w f), (Piece.y c, Piece.h f)))
      (combine (Type1.piece (Type1.Tt self)) (Type1.piece (Type1.Pt self))).

Definition cell_eqb (a b : (Z * Z) * (Z * Z)) : bool :=
  (fst (fst a) =? fst (fst b)) && (snd (fst a) =? snd (fst b))
  && (fst (snd a) =? fst (snd b)) && (snd (snd a) =? snd (snd b)).

(** Every cell of the grid is taken, and there are as many pieces as
    cells. *)
Definition layout_at (self : Type1.t) (p q : Z) : bool :=
  let cells :=
    grid (Type1.ndx (Type1.Tt self)) (Type1.ndy (Type1.Tt self)) p q in
  (List.length (placements self) =? List.length cells)%nat
  && forallb (fun cell => existsb (cell_eqb cell) (placements self)) cells.

(** The unscramble map is a proper layout of the scramble map's factors,
    for some position of the narrow column and of the narrow row. *)
Definition proper_layout (self : Type1.t) : bool :=
  existsb (fun p =>
    existsb (fun q => layout_at self p q)
            (Py.range (Type1.ndy (Type1.Tt self))))
    (Py.range (Type1.ndx (Type1.Tt self))).

(** [p] lies in the interval that starts at [a] and has length [len]. *)
Definition iv (a len p : Z) : bool := (a <=? p) && (p <? a + len).

(** The pixel abscissa where column [k] starts, when the narrow column is
    in position [p]: [k] full columns before it, or [k - 1] full columns and
    the narrow one. *)
Definition pos (p r e k : Z) : Z :=
  if k <=? p then k * r else (k - 1) * r + e.

(** The pixel lies in the cell, a pair of a column slot and a row slot. *)
Definition cell_covers (r e h u px py : Z) (cell : (Z * Z) * (Z * Z)) : bool :=
  iv (pixel_of (fst (fst cell)) r e) (pixel_of (snd (fst cell)) r e) px
  && iv (pixel_of (fst (snd cell)) h u) (pixel_of (snd (snd cell)) h u)
        py.

(** ** Type 2 keys *)

(** The characters a Type 2 key is written with. *)
Definition is_key_char (c : ascii) : bool :=
  Ascii.eqb c "=" || Ascii.eqb c "+" || Type2.is_data_char c.

(** The key without the line feed that may end it. *)
Definition chomp (l : list ascii) : list ascii :=
  match rev l with
  | c :: l' => if Ascii.eqb c "010" then rev l' else l
  | [] => l
  end.

(** The instance before [_parse_keys] has run, which is also what an early
    return on a grammar mismatch leaves. *)
Definition blank : Type2.t := Type2.mk None 0 0 0 [] [] [] [].

(** ** Type 2 models and expected rectangles *)

(** The instance holds a permutation ([self.kt] is truthy) of [T * j]
    indices below [T * j], and its four adjustment vectors have the lengths
    of the grid. *)
Definition valid_model (self : Type2.t) : bool :=
  let T := Type2.T self in
  let j := Type2.j self in
  match Type2.kt self with
  | Some (v :: l) =>
      (Py.llen (v :: l) =? T * j)
      && forallb (fun v => (0 <=? v) && (v <? T * j)) (v :: l)
      && (Py.llen (Type2.Rt self) =? j) && (Py.llen (Type2.Ft self) =? T)
      && (Py.llen (Type2.Lt self) =? j) && (Py.llen (Type2.Nt self) =? T)
  | _ => false
  end.

(** The rectangle of the flat index [o], for base sizes [r], [e], [s], [h]:
    the closed form of one iteration of [Type2.calculate_coords]. *)
Definition tile2 (self : Type2.t) (kt : list Z) (r e s h : Z) (o : Z) : Rect.t :=
  let T := Type2.T self in
  let D := Type2.Dt self in
  let col := o mod T in
  let row := o / T in
  let target := nth (Z.to_nat o) kt 0 in
  let dcol := target mod T in
  let drow := target / T in
  let Lt_row := nth (Z.to_nat row) (Type2.Lt self) 0 in
  let Nt_col := nth (Z.to_nat col) (Type2.Nt self) 0 in
  let Rt_drow := nth (Z.to_nat drow) (Type2.Rt self) 0 in
  let Ft_dcol := nth (Z.to_nat dcol) (Type2.Ft self) 0 in
  Rect.mk (D + col * (r + 2 * D) + (if Lt_row <? col then e - r else 0))
          (D + row * (s + 2 * D) + (if Nt_col <? row then h - s else 0))
          (if Lt_row =? col then e else r)
          (if Nt_col =? row then h else s)
          (dcol * r + (if Rt_drow <? dcol then e - r else 0))
          (drow * s + (if Ft_dcol <? drow then h - s else 0)).

(** ** Rectangle lists read backwards, and alignment *)

(** The same copy in the other direction. *)
Definition swap (rc : Rect.t) : Rect.t :=
  Rect.mk (Rect.xdest rc) (Rect.ydest rc) (Rect.width rc) (Rect.height rc)
          (Rect.xsrc rc) (Rect.ysrc rc).

(** All six fields are multiples of 8. *)
Definition aligned (rc : Rect.t) : Prop :=
  (8 | Rect.xsrc rc) /\ (8 | Rect.ysrc rc)
  /\ (8 | Rect.width rc) /\ (8 | Rect.height rc)
  /\ (8 | Rect.xdest rc) /\ (8 | Rect.ydest rc).

(** The factors of the piece of rank [d] in an [ndx] by [ndy] grid, by
    the number of pieces of each kind. *)
Definition census (ndx ndy d : Z) : Z * Z :=
  if d <? (ndx - 1) * (ndy - 1) then (2, 2)
  else if d <? (ndx - 1) * (ndy - 1) + (ndx - 1) then (2, 1)
  else if d <? ndx * ndy - 1 then (1, 2)
  else (1, 1).

(** ** The Type 2 alphabet and the sections of a data string *)

(** The 64 characters of the URL-safe Base64 alphabet, in the order of
    their values. *)
Definition alphabet : string :=
  "ABCDEFGHIJKLMNOPQRSTUVWXYZabcdefghijklmnopqrstuvwxyz0123456789-_".

(** The codes of the [n] characters of [data_str] from position [offset]
    on. *)
Definition section (data_str : string) (offset n : Z) : list Z :=
  map (fun i => Type2._decode_char (Py.ord (char_at data_str (offset + i))))
      (Py.range n).

(** [kt] as [_parse_keys] composes it from the two permutation sections:
    the scramble value at the unscramble value of [u]. *)
Definition composed (s_perm h_perm : list Z) (n : Z) : list Z :=
  map (fun u => nth (Z.to_nat (nth (Z.to_nat u) h_perm 0)) s_perm 0)
      (Py.range n).

(** ** Key pairs that pass the checks of [_parse_keys]

    Both keys match the grammar with the groups [gs] and [gh], the counts and
    the border agree, the scramble key has the sign [+] and the unscramble
    key the sign [-], the counts [T] and [j] are at most 8 and the two data
    groups have [T + j + T * j] characters. *)
Definition parsed_pair (key_s key_h : string) (gs gh : Type2.groups)
    (T j D : Z) : Prop :=
  Type2.key_re key_s = Some gs /\ Type2.key_re key_h = Some gh
  /\ Type2.group1 gs = Type2.group1 gh
  /\ Type2.group2 gs = Type2.group2 gh
  /\ Type2.group4 gs = Type2.group4 gh
  /\ Type2.group3 gs = "+"%char /\ Type2.group3 gh = "-"%char
  /\ Py.int (Type2.group1 gs) = Ok T
  /\ Py.int (Type2.group2 gs) = Ok j
  /\ Py.int (Type2.group4 gs) = Ok D
  /\ T <= 8 /\ j <= 8
  /\ Py.len (Type2.group5 gs) = T + j + T * j
  /\ Py.len (Type2.group5 gh) = T + j + T * j.

(** The instance [_parse_keys] builds from such a pair. *)
Definition parsed_instance (gs gh : Type2.groups) (T j D : Z) : Type2.t :=
  Type2.mk
    (Some (composed (section (Type2.group5 gs) (T + j) (T * j))
                    (section (Type2.group5 gh) (T + j) (T * j)) (T * j)))
    T j D
    (section (Type2.group5 gs) T j) (section (Type2.group5 gs) 0 T)
    (section (Type2.group5 gh) T j) (section (Type2.group5 gh) 0 T).

(* ===================================================================== *)
(** * Properties of the primitives *)
(* ===================================================================== *)

Section Primitives.

Context {A : Type}.

Lemma index_in_range (l : list A) (i : Z) (d : A) :
  0 <= i < Py.llen l -> Py.index l i = Ok (nth (Z.to_nat i) l d).
Proof.
  intros Hi. unfold Py.index, Py.llen in *.
  destruct (i <? 0) eqn:Hneg; [apply Z.ltb_lt in Hneg; lia|].
  rewrite Hneg.
  assert (Hlt : (Z.to_nat i < List.length l)%nat) by lia.
  destruct (nth_error l (Z.to_nat i)) eqn:Hnth.
  - f_equal. symmetry. now apply nth_error_nth.
  - apply nth_error_None in Hnth. lia.
Qed.

Lemma index_too_large (l : list A) (i : Z) :
  Py.llen l <= i -> Py.index l i = Raise IndexError.
Proof.
  intros Hi. unfold Py.index, Py.llen in *.
  destruct (i <? 0) eqn:Hneg; [apply Z.ltb_lt in Hneg; lia|].
  rewrite Hneg.
  destruct (nth_error l (Z.to_nat i)) eqn:Hnth; [|reflexivity].
  assert (nth_error l (Z.to_nat i) <> None) by congruence.
  apply nth_error_Some in H. lia.
Qed.

End Primitives.

Lemma in_range (n i : Z) : In i (Py.range n) <-> 0 <= i < n.
Proof.
  unfold Py.range. rewrite in_map_iff. split.
  - intros (k & <- & Hk). apply in_seq in Hk. lia.
  - intros Hi. exists (Z.to_nat i). split; [lia|]. apply in_seq. lia.
Qed.

Lemma length_range (n : Z) : List.length (Py.range n) = Z.to_nat n.
Proof. unfold Py.range. now rewrite length_map, length_seq. Qed.

Lemma range_nil (n : Z) : n <= 0 -> Py.range n = [].
Proof.
  intros Hn. unfold Py.range. replace (Z.to_nat n) with 0%nat by lia.
  reflexivity.
Qed.

Section Loops.

Context {S : Type}.

(** A loop whose body appends one computed element per iteration builds
    the image of the iterated list. *)
Lemma for_each_append {B : Type} (l : list Z) (body : Z -> list B -> result (list B))
    (g : Z -> B) :
  (forall i acc, In i l -> body i acc = Ok (acc ++ [g i])) ->
  forall acc, Py.for_each l body acc = Ok (acc ++ map g l).
Proof.
  induction l as [|i l IH]; intros Hbody acc; simpl.
  - now rewrite app_nil_r.
  - rewrite Hbody by now left. simpl.
    rewrite IH by (intros; apply Hbody; now right).
    now rewrite <- app_assoc.
Qed.

(** A loop whose body leaves the state alone returns it. *)
Lemma for_each_skip (l : list Z) (body : Z -> S -> result S) :
  (forall i s, In i l -> body i s = Ok s) ->
  forall s, Py.for_each l body s = Ok s.
Proof.
  induction l as [|i l IH]; intros Hbody s; simpl; [reflexivity|].
  rewrite Hbody by now left. simpl. apply IH. intros; apply Hbody; now right.
Qed.

End Loops.

(* ===================================================================== *)
(** * The floor of a true division *)
(* ===================================================================== *)

(** The rounding stays between two integers that bracket the quotient. *)
Lemma round_half_even_between (num den lo hi : Z) :
  0 < den -> lo * den <= num <= hi * den ->
  lo <= round_half_even num den <= hi.
Proof.
  intros Hden [Hlo Hhi]. unfold round_half_even.
  pose proof (Z.div_mod num den ltac:(lia)) as Hdiv.
  pose proof (Z.mod_pos_bound num den Hden) as Hmod.
  pose proof (Z.mod_pos_bound (num / den) 2 ltac:(lia)) as Hpar.
  assert (Hq : lo <= num / den) by (apply Z.div_le_lower_bound; lia).
  assert (Hq' : num / den <= hi) by (apply Z.div_le_upper_bound; lia).
  assert (Hup : 0 < num mod den -> num / den + 1 <= hi) by (intros; nia).
  destruct (Z.ltb_spec (2 * (num mod den)) den); [lia|].
  destruct (Z.ltb_spec den (2 * (num mod den))); lia.
Qed.

(** [binade] brackets the quotient between two powers of two. *)
Lemma binade_lower (num den : Z) :
  0 < num -> 0 < den -> 0 <= binade num den ->
  den * 2 ^ binade num den <= num.
Proof.
  intros Hnum Hden. unfold binade.
  pose proof (Z.log2_spec num Hnum) as [Hn1 Hn2].
  pose proof (Z.log2_spec den Hden) as [Hd1 Hd2].
  pose proof (Z.log2_nonneg num). pose proof (Z.log2_nonneg den).
  set (d := Z.log2 num - Z.log2 den) in *.
  destruct (Z.ltb_spec (num * 2 ^ Z.max 0 (- d)) (den * 2 ^ Z.max 0 d))
    as [Hlt|Hge]; intros He.
  - assert (Hpow : 2 ^ Z.log2 num = 2 ^ Z.succ (Z.log2 den) * 2 ^ (d - 1))
      by (rewrite <- Z.pow_add_r by lia; f_equal; lia).
    assert (0 < 2 ^ (d - 1)) by (apply Z.pow_pos_nonneg; lia).
    nia.
  - rewrite (Z.max_l 0 (- d)) in Hge by lia.
    rewrite (Z.max_r 0 d) in Hge by lia. lia.
Qed.

Lemma binade_upper (num den : Z) :
  0 < num -> 0 < den -> 0 <= binade num den ->
  num < den * 2 ^ (binade num den + 1).
Proof.
  intros Hnum Hden. unfold binade.
  pose proof (Z.log2_spec num Hnum) as [Hn1 Hn2].
  pose proof (Z.log2_spec den Hden) as [Hd1 Hd2].
  pose proof (Z.log2_nonneg num). pose proof (Z.log2_nonneg den).
  set (d := Z.log2 num - Z.log2 den) in *.
  destruct (Z.ltb_spec (num * 2 ^ Z.max 0 (- d)) (den * 2 ^ Z.max 0 d))
    as [Hlt|Hge]; intros He.
  - rewrite (Z.max_l 0 (- d)) in Hlt by lia.
    rewrite (Z.max_r 0 d) in Hlt by lia.
    replace (d - 1 + 1) with d by lia. lia.
  - assert (Hpow : 2 ^ Z.succ (Z.log2 num) = 2 ^ Z.log2 den * 2 ^ (d + 1))
      by (rewrite <- Z.pow_add_r by lia; f_equal; lia).
    assert (0 < 2 ^ (d + 1)) by (apply Z.pow_pos_nonneg; lia).
    nia.
Qed.

Lemma binade_le_log2 (num den : Z) :
  0 < num -> 0 < den -> binade num den <= Z.log2 num.
Proof.
  intros Hnum Hden. unfold binade.
  pose proof (Z.log2_nonneg den).
  destruct (_ <? _); lia.
Qed.

(** Below 2^52 the binary64 quotient has the floor of the exact one. *)
Lemma floor_div_exact (a b : Z) :
  0 < b <= 2 ^ 52 -> Z.abs a <= 2 ^ 52 -> Py.floor_div a b = Ok (a / b).
Proof.
  intros Hb Ha. unfold Py.floor_div.
  destruct (Z.eqb_spec b 0); [lia|].
  destruct (Z.eqb_spec a 0) as [->|Hnz]; [now rewrite Z.div_0_l by lia|].
  rewrite (Z.abs_eq b) by lia. rewrite (Z.sgn_pos b) by lia.
  assert (Hnum : 0 < Z.abs a) by lia.
  pose proof (binade_le_log2 (Z.abs a) b Hnum ltac:(lia)) as He.
  assert (Hlog : Z.log2 (Z.abs a) <= 52).
  { change 52 with (Z.log2 (2 ^ 52)). now apply Z.log2_le_mono. }
  pose proof (binade_lower (Z.abs a) b Hnum ltac:(lia)) as Hlow.
  set (e := binade (Z.abs a) b) in *.
  set (p := Z.max (e - 52) (-1074)).
  assert (Hp : p <= 0) by lia.
  rewrite (Z.max_l 0 p) by lia. change (2 ^ 0) with 1. rewrite !Z.mul_1_r.
  set (k := Z.max 0 (- p)).
  assert (Hk : 0 <= k) by lia.
  assert (HP : b <= 2 ^ k).
  { destruct (Z_le_gt_dec e 0) as [Hneg|Hpos].
    - transitivity (2 ^ 52); [lia|]. apply Z.pow_le_mono_r; lia.
    - specialize (Hlow ltac:(lia)).
      replace k with (52 - e) by lia.
      assert (Hsplit : 2 ^ 52 = 2 ^ e * 2 ^ (52 - e))
        by (rewrite <- Z.pow_add_r by lia; f_equal; lia).
      assert (0 < 2 ^ e) by (apply Z.pow_pos_nonneg; lia).
      nia. }
  pose proof (Z.div_mod a b ltac:(lia)) as Hdiv.
  pose proof (Z.mod_pos_bound a b ltac:(lia)) as Hmod.
  set (P := 2 ^ k) in *.
  set (m := round_half_even (Z.abs a * P) b).
  assert (Hover : (0 <=? p) && (2 ^ 1024 <=? m * 2 ^ p) = false).
  { destruct (Z.leb_spec 0 p) as [Hp0|]; [|reflexivity]. cbn [andb].
    assert (p = 0) as -> by lia. change (2 ^ 0) with 1.
    assert (HP1 : P = 1) by (subst P; replace k with 0 by lia; reflexivity).
    pose proof (round_half_even_between (Z.abs a * P) b 0 (Z.abs a)
                  ltac:(lia) ltac:(nia)).
    apply Z.leb_gt. fold m in H. lia. }
  rewrite Hover. f_equal.
  destruct (Z_lt_le_dec 0 a) as [Hapos|Haneg].
  - rewrite (Z.sgn_pos a) by lia.
    assert (Hm : a / b * P <= m <= a / b * P + P - 1).
    { apply round_half_even_between; [lia|].
      rewrite (Z.abs_eq a) by lia. nia. }
    symmetry. apply Z.div_unique with (m - a / b * P); lia.
  - rewrite (Z.sgn_neg a) by lia.
    destruct (Z.eq_dec (a mod b) 0) as [Hz|Hnz'].
    + assert (Hm : - (a / b) * P <= m <= - (a / b) * P).
      { apply round_half_even_between; [lia|].
        rewrite (Z.abs_neq a) by lia. nia. }
      symmetry. apply Z.div_unique with 0; lia.
    + assert (Hm : - (a / b) * P - P + 1 <= m <= - (a / b) * P - 1).
      { apply round_half_even_between; [lia|].
        rewrite (Z.abs_neq a) by lia. nia. }
      symmetry. apply Z.div_unique with (- m - a / b * P); lia.
Qed.

(** Below 2^1023 the quotient fits a binary64 number. *)
Lemma floor_div_defined (a b : Z) :
  b <> 0 -> Z.abs a < 2 ^ 1023 -> exists q, Py.floor_div a b = Ok q.
Proof.
  intros Hb Ha. unfold Py.floor_div.
  destruct (Z.eqb_spec b 0); [contradiction|].
  destruct (Z.eqb_spec a 0) as [->|Hnz]; [now eexists|].
  assert (Hnum : 0 < Z.abs a) by lia.
  assert (Hden : 0 < Z.abs b) by lia.
  set (e := binade (Z.abs a) (Z.abs b)).
  set (p := Z.max (e - 52) (-1074)).
  set (m := round_half_even _ _).
  destruct (Z.leb_spec 0 p) as [Hp|]; [|now eexists]. cbn [andb].
  destruct (Z.leb_spec (2 ^ 1024) (m * 2 ^ p)) as [Hbig|]; [|now eexists].
  exfalso.
  assert (He : e = p + 52) by lia.
  pose proof (binade_lower _ _ Hnum Hden ltac:(fold e; lia)) as Hlow.
  pose proof (binade_upper _ _ Hnum Hden ltac:(fold e; lia)) as Hup.
  fold e in Hlow, Hup.
  assert (Hpow : 2 ^ (e + 1) = 2 ^ 53 * 2 ^ p)
    by (rewrite <- Z.pow_add_r by lia; f_equal; lia).
  assert (Hpe : 2 ^ (e + 1) = 2 * 2 ^ e)
    by (rewrite Z.pow_add_r by lia; change (2 ^ 1) with 2; ring).
  assert (H2p : 0 < 2 ^ p) by (apply Z.pow_pos_nonneg; lia).
  assert (H2e : 0 < 2 ^ e) by (apply Z.pow_pos_nonneg; lia).
  subst m. rewrite (Z.max_l 0 (- p)), (Z.max_r 0 p) in Hbig by lia.
  change (2 ^ 0) with 1 in Hbig. rewrite Z.mul_1_r in Hbig.
  set (m' := round_half_even (Z.abs a) (Z.abs b * 2 ^ p)) in *.
  assert (Hden' : 0 < Z.abs b * 2 ^ p) by (apply Z.mul_pos_pos; lia).
  assert (Hm : 0 <= m' <= 2 ^ 53).
  { apply round_half_even_between; [assumption|].
    rewrite Hpow in Hup. lia. }
  assert (Hm1 : m' * 2 ^ p <= 2 ^ 53 * 2 ^ p)
    by (apply Z.mul_le_mono_nonneg_r; lia).
  assert (Hb1 : 1 * 2 ^ e <= Z.abs b * 2 ^ e)
    by (apply Z.mul_le_mono_nonneg_r; lia).
  assert (H1024 : 2 ^ 1024 = 2 * 2 ^ 1023) by reflexivity.
  lia.
Qed.

(** Rounding shows from 2^53 on, and the quotient stops fitting at
    2^1024; a negative quotient that underflows has floor 0. *)
Example floor_div_samples :
  Py.floor_div (10 ^ 18 - 1) 7 = Ok 142857142857142864
  /\ (10 ^ 18 - 1) / 7 = 142857142857142857
  /\ Py.floor_div (2 ^ 53 + 1) 1 = Ok (2 ^ 53)
  /\ Py.floor_div (10 ^ 400) 7 = Raise OverflowError
  /\ Py.floor_div (-1) 7 = Ok (-1)
  /\ Py.floor_div (-1) (10 ^ 400) = Ok 0
  /\ Py.floor_div 1 0 = Raise ZeroDivisionError.
Proof. repeat split; vm_compute; reflexivity. Qed.

(** The quotient by 2 of a small operand. *)
Lemma floor_div_2 (v : Z) : Z.abs v <= 2 ^ 52 -> Py.floor_div v 2 = Ok (v / 2).
Proof. intros Hv. apply floor_div_exact; [split; [lia|]|assumption]. easy. Qed.

(* ===================================================================== *)
(** * Type 1: parsing *)
(* ===================================================================== *)

Lemma length_list_ascii_of_string (s : string) :
  List.length (list_ascii_of_string s) = String.length s.
Proof. induction s; simpl; congruence. Qed.

Lemma str_index_in_range (s : string) (i : Z) :
  0 <= i < Py.len s -> Py.str_index s i = Ok (char_at s i).
Proof.
  intros Hi. unfold Py.str_index, char_at. apply index_in_range.
  unfold Py.llen, Py.len in *. now rewrite length_list_ascii_of_string.
Qed.

Lemma parse_piece_ok (ndx ndy : Z) (data_str : string) (d : Z)
    (pieces : list Piece.t) :
  0 <= d -> 2 * d + 1 < Py.len data_str ->
  Type1.parse_piece ndx ndy data_str d pieces
  = Ok (pieces ++ [piece_at ndx ndy data_str d]).
Proof.
  intros Hd Hlen. unfold Type1.parse_piece, piece_at.
  rewrite !str_index_in_range by lia. cbn [Py.bind].
  destruct (Type1.decode_char (char_at data_str (2 * d))) as [i_s s].
  destruct (Type1.decode_char (char_at data_str (2 * d + 1))) as [i_h h].
  destruct (Type1.factors ndx ndy d) as [u o]. reflexivity.
Qed.

(** A key in three parts, with integer counts and a data section of the
    announced length, parses; the data characters play no part in that. *)
Lemma parse_key_shape (key p0 p1 data_str : string) (ndx ndy : Z) :
  Py.split "-" key = [p0; p1; data_str] ->
  Py.int p0 = Ok ndx -> Py.int p1 = Ok ndy ->
  Py.len data_str = ndx * ndy * 2 ->
  Type1._parse_key key
  = Ok (Some (Type1.mk_model ndx ndy
                (map (piece_at ndx ndy data_str) (Py.range (ndx * ndy))))).
Proof.
  intros Hsplit H0 H1 Hlen. unfold Type1._parse_key.
  rewrite Hsplit.
  change (Py.llen [p0; p1; data_str] =? 3) with true.
  change (Py.index [p0; p1; data_str] 0) with (Ok p0).
  change (Py.index [p0; p1; data_str] 1) with (Ok p1).
  change (Py.index [p0; p1; data_str] 2) with (Ok data_str).
  cbn [negb Py.bind]. rewrite H0, H1. cbn [Py.bind].
  rewrite Hlen, Z.eqb_refl. cbn [negb].
  rewrite (for_each_append _ _ (piece_at ndx ndy data_str)).
  - reflexivity.
  - intros i acc Hi. apply in_range in Hi. apply parse_piece_ok; lia.
Qed.

Lemma parse_key_inv (key : string) (m : Type1.model) :
  Type1._parse_key key = Ok (Some m) ->
  exists p0 p1 data_str,
    Py.split "-" key = [p0; p1; data_str]
    /\ Py.int p0 = Ok (Type1.ndx m) /\ Py.int p1 = Ok (Type1.ndy m)
    /\ Py.len data_str = Type1.ndx m * Type1.ndy m * 2
    /\ Type1.piece m
       = map (piece_at (Type1.ndx m) (Type1.ndy m) data_str)
             (Py.range (Type1.ndx m * Type1.ndy m)).
Proof.
  intros Hparse. pose proof Hparse as Hkeep. unfold Type1._parse_key in Hparse.
  destruct (Py.llen (Py.split "-" key) =? 3) eqn:Hl; [|discriminate].
  apply Z.eqb_eq in Hl. unfold Py.llen in Hl.
  destruct (Py.split "-" key) as [|p0 [|p1 [|data_str [|]]]] eqn:Hsplit;
    simpl in Hl; try lia.
  change (Py.index [p0; p1; data_str] 0) with (Ok p0) in Hparse.
  change (Py.index [p0; p1; data_str] 1) with (Ok p1) in Hparse.
  change (Py.index [p0; p1; data_str] 2) with (Ok data_str) in Hparse.
  cbn [negb Py.bind] in Hparse.
  destruct (Py.int p0) as [ndx|] eqn:H0; [|discriminate].
  cbn [Py.bind] in Hparse.
  destruct (Py.int p1) as [ndy|] eqn:H1; [|discriminate].
  cbn [Py.bind] in Hparse.
  destruct (Py.len data_str =? ndx * ndy * 2) eqn:Hlen; [|discriminate].
  apply Z.eqb_eq in Hlen.
  rewrite (parse_key_shape key p0 p1 data_str ndx ndy) in Hkeep by assumption.
  injection Hkeep as <-. simpl. now exists p0, p1, data_str.
Qed.

Lemma parse_key_length (key : string) (m : Type1.model) :
  Type1._parse_key key = Ok (Some m) ->
  List.length (Type1.piece m) = Z.to_nat (Type1.ndx m * Type1.ndy m).
Proof.
  intros (p0 & p1 & d & _ & _ & _ & _ & ->)%parse_key_inv.
  now rewrite length_map, length_range.
Qed.

Lemma init_inv (key_h key_s : string) (self : Type1.t) :
  Type1.__init__ key_h key_s = Ok self ->
  Type1._parse_key key_s = Ok (Some (Type1.Tt self))
  /\ Type1._parse_key key_h = Ok (Some (Type1.Pt self))
  /\ Type1.ndx (Type1.Tt self) = Type1.ndx (Type1.Pt self)
  /\ Type1.ndy (Type1.Tt self) = Type1.ndy (Type1.Pt self).
Proof.
  unfold Type1.__init__. intros Hinit.
  destruct (Type1._parse_key key_s) as [[Tt|]|]; cbn in Hinit;
    destruct (Type1._parse_key key_h) as [[Pt|]|]; cbn in Hinit;
    try discriminate.
  destruct (Type1.ndx Tt =? Type1.ndx Pt) eqn:Hx;
    destruct (Type1.ndy Tt =? Type1.ndy Pt) eqn:Hy; cbn in Hinit;
    try discriminate.
  injection Hinit as <-. simpl.
  apply Z.eqb_eq in Hx, Hy. auto.
Qed.

Lemma init_same_length (key_h key_s : string) (self : Type1.t) :
  Type1.__init__ key_h key_s = Ok self ->
  List.length (Type1.piece (Type1.Tt self))
  = List.length (Type1.piece (Type1.Pt self)).
Proof.
  intros (Hs & Hh & Hx & Hy)%init_inv.
  rewrite (parse_key_length _ _ Hs), (parse_key_length _ _ Hh).
  now rewrite Hx, Hy.
Qed.

(* ===================================================================== *)
(** * Type 1: failures *)
(* ===================================================================== *)

Lemma int_raises (s : string) (e : exn) :
  Py.int s = Raise e -> e = ValueError.
Proof.
  unfold Py.int.
  destruct (Py.strip (list_ascii_of_string s)) as [|c rest];
    [|destruct (Ascii.eqb c "-"); [|destruct (Ascii.eqb c "+")]];
    match goal with
    | |- context [Py.digits ?a ?b ?l] => destruct (Py.digits a b l)
    end; congruence.
Qed.

Lemma parse_key_wrong_parts (key : string) :
  Py.llen (Py.split "-" key) <> 3 -> Type1._parse_key key = Ok None.
Proof.
  intros Hparts. unfold Type1._parse_key.
  destruct (Py.llen (Py.split "-" key) =? 3) eqn:Hl; [|reflexivity].
  apply Z.eqb_eq in Hl. contradiction.
Qed.

Lemma parse_key_wrong_length (key p0 p1 data_str : string) (ndx ndy : Z) :
  Py.split "-" key = [p0; p1; data_str] ->
  Py.int p0 = Ok ndx -> Py.int p1 = Ok ndy ->
  Py.len data_str <> 2 * ndx * ndy ->
  Type1._parse_key key = Ok None.
Proof.
  intros Hsplit H0 H1 Hlen. unfold Type1._parse_key. rewrite Hsplit.
  change (Py.llen [p0; p1; data_str] =? 3) with true.
  change (Py.index [p0; p1; data_str] 0) with (Ok p0).
  change (Py.index [p0; p1; data_str] 1) with (Ok p1).
  change (Py.index [p0; p1; data_str] 2) with (Ok data_str).
  cbn [negb Py.bind]. rewrite H0, H1. cbn [Py.bind].
  destruct (Py.len data_str =? ndx * ndy * 2) eqn:Hl; [|reflexivity].
  apply Z.eqb_eq in Hl. lia.
Qed.

(** The only exception [_parse_key] lets out is the [ValueError] of
    [int]. *)
Lemma parse_key_raises (key : string) (e : exn) :
  Type1._parse_key key = Raise e -> e = ValueError.
Proof.
  intros Hparse. pose proof Hparse as Hkeep. unfold Type1._parse_key in Hparse.
  destruct (Py.llen (Py.split "-" key) =? 3) eqn:Hl; [|discriminate].
  apply Z.eqb_eq in Hl. unfold Py.llen in Hl.
  destruct (Py.split "-" key) as [|p0 [|p1 [|data_str [|]]]] eqn:Hsplit;
    simpl in Hl; try lia.
  change (Py.index [p0; p1; data_str] 0) with (Ok p0) in Hparse.
  change (Py.index [p0; p1; data_str] 1) with (Ok p1) in Hparse.
  change (Py.index [p0; p1; data_str] 2) with (Ok data_str) in Hparse.
  cbn [negb Py.bind] in Hparse.
  destruct (Py.int p0) as [ndx|e0] eqn:H0;
    [|injection Hparse as <-; now apply int_raises in H0].
  cbn [Py.bind] in Hparse.
  destruct (Py.int p1) as [ndy|e1] eqn:H1;
    [|injection Hparse as <-; now apply int_raises in H1].
  cbn [Py.bind] in Hparse.
  destruct (Py.len data_str =? ndx * ndy * 2) eqn:Hlen; [|discriminate].
  apply Z.eqb_eq in Hlen.
  rewrite (parse_key_shape key p0 p1 data_str ndx ndy) in Hkeep by assumption.
  discriminate.
Qed.

Lemma parse_fails_cases (key : string) :
  parse_fails key = true ->
  Type1._parse_key key = Ok None \/ Type1._parse_key key = Raise ValueError.
Proof.
  unfold parse_fails. destruct (Type1._parse_key key) as [[m|]|e] eqn:Hparse;
    intros Hf; try discriminate; [now left|].
  right. f_equal. now apply (parse_key_raises key).
Qed.

(** C8.  A key with a number of dash-separated parts other than three, or
    whose data section has not the length [2 * ndx * ndy], does not parse;
    and whenever one of the two keys does not parse, or both parse but
    disagree on [ndx] or [ndy], the construction of the engine raises
    [ValueError]: no engine comes out. *)
Theorem type1_init_fails :
  (forall key, Py.llen (Py.split "-" key) <> 3 -> parse_fails key = true)
  /\ (forall key p0 p1 data_str ndx ndy,
        Py.split "-" key = [p0; p1; data_str] ->
        Py.int p0 = Ok ndx -> Py.int p1 = Ok ndy ->
        Py.len data_str <> 2 * ndx * ndy ->
        parse_fails key = true)
  /\ (forall key_h key_s,
        parse_fails key_s = true \/ parse_fails key_h = true
        \/ (exists Tt Pt,
              Type1._parse_key key_s = Ok (Some Tt)
              /\ Type1._parse_key key_h = Ok (Some Pt)
              /\ (Type1.ndx Tt <> Type1.ndx Pt
                  \/ Type1.ndy Tt <> Type1.ndy Pt)) ->
        Type1.__init__ key_h key_s = Raise ValueError).
Proof.
  split; [|split].
  - intros key Hparts. unfold parse_fails.
    now rewrite parse_key_wrong_parts.
  - intros key p0 p1 data_str ndx ndy Hsplit H0 H1 Hlen. unfold parse_fails.
    now rewrite (parse_key_wrong_length key p0 p1 data_str ndx ndy).
  - intros key_h key_s [Hs|[Hh|(Tt & Pt & Hs & Hh & Hdiff)]];
      unfold Type1.__init__.
    + destruct (parse_fails_cases _ Hs) as [-> | ->]; cbn [Py.bind];
        [|reflexivity].
      destruct (Type1._parse_key key_h) as [[Pt|]|e] eqn:Hh; cbn [Py.bind];
        try reflexivity.
      f_equal. now apply (parse_key_raises key_h).
    + destruct (Type1._parse_key key_s) as [[Tt|]|e] eqn:Hs; cbn [Py.bind];
        [| |f_equal; now apply (parse_key_raises key_s)];
        destruct (parse_fails_cases _ Hh) as [-> | ->]; reflexivity.
    + rewrite Hs, Hh. cbn [Py.bind].
      destruct (Type1.ndx Tt =? Type1.ndx Pt) eqn:Hx;
        destruct (Type1.ndy Tt =? Type1.ndy Pt) eqn:Hy; try reflexivity.
      apply Z.eqb_eq in Hx, Hy. tauto.
Qed.

Lemma type1_init_fails_witness :
  parse_fails "1-1" = true
  /\ parse_fails "1-1-A" = true
  /\ Type1.__init__ "1-1-AA" "1-1-A" = Raise ValueError
  /\ Type1.__init__ "x-1-AA" "1-1-AA" = Raise ValueError
  /\ Type1.__init__ "2-1-AAAA" "1-2-AAAA" = Raise ValueError.
Proof.
  destruct type1_init_fails as (Hparts & Hlength & Hinit).
  split; [apply (Hparts "1-1"%string); vm_compute; discriminate|].
  split; [apply (Hlength "1-1-A"%string "1"%string "1"%string "A"%string 1 1);
          solve [reflexivity | vm_compute; discriminate]|].
  split; [apply (Hinit "1-1-AA"%string "1-1-A"%string); left; reflexivity|].
  split; [apply (Hinit "x-1-AA"%string "1-1-AA"%string); right; left; reflexivity|].
  apply (Hinit "2-1-AAAA"%string "1-2-AAAA"%string). right. right.
  exists (Type1.mk_model 1 2 [Piece.mk 0 0 1 2; Piece.mk 0 0 1 1]),
         (Type1.mk_model 2 1 [Piece.mk 0 0 2 1; Piece.mk 0 0 1 1]).
  split; [reflexivity|]. split; [reflexivity|]. left. simpl. lia.
Defined.

(* ===================================================================== *)
(** * Type 1: the data characters *)
(* ===================================================================== *)

(** What [decode_char] returns, character class by character class. *)
Lemma decode_char_spec (c : ascii) :
  Type1.decode_char c
  = if is_upper c then (0, 2 * (Py.ord c - 65))
    else if is_lower c then (1, 1 + 2 * (Py.ord c - 97))
    else (1, -1).
Proof. destruct c as [[] [] [] [] [] [] [] []]; reflexivity. Qed.

Lemma decode_char_non_letter (c : ascii) :
  is_letter c = false -> Type1.decode_char c = (1, -1).
Proof.
  unfold is_letter. intros [Hu Hl]%orb_false_iff.
  now rewrite decode_char_spec, Hu, Hl.
Qed.

(** A data character outside the letters does not make the parse fail:
    with the digit [0] in its data section, the key ["1-1-0A"] parses, to a
    piece of abscissa [-1], and an engine is built from it. *)
Lemma type1_digit_in_data_parses :
  is_letter "0" = false
  /\ Py.split "-" "1-1-0A" = ["1"; "1"; "0A"]%string
  /\ Type1._parse_key "1-1-0A"
     = Ok (Some (Type1.mk_model 1 1 [Piece.mk (-1) 0 1 1]))
  /\ Type1.__init__ "1-1-0A" "1-1-0A"
     = Ok (Type1.mk (Type1.mk_model 1 1 [Piece.mk (-1) 0 1 1])
                    (Type1.mk_model 1 1 [Piece.mk (-1) 0 1 1])).
Proof. repeat split. Qed.

(** C7, as the code has it.  A character that is neither an uppercase nor
    a lowercase letter is not refused: it decodes to the flag 1 and the
    value -1.  A key in three parts, with integer counts and a data section
    of length [2 * ndx * ndy], parses whatever its data characters are, to
    the pieces [piece_at] reads off the data section; two such keys with
    the same counts build an engine. *)
Theorem type1_data_characters_unchecked :
  (forall c, is_letter c = false -> Type1.decode_char c = (1, -1))
  /\ (forall key_h key_s h0 h1 h_data s0 s1 s_data ndx ndy,
        Py.split "-" key_h = [h0; h1; h_data] ->
        Py.split "-" key_s = [s0; s1; s_data] ->
        Py.int h0 = Ok ndx -> Py.int h1 = Ok ndy ->
        Py.int s0 = Ok ndx -> Py.int s1 = Ok ndy ->
        Py.len h_data = ndx * ndy * 2 ->
        Py.len s_data = ndx * ndy * 2 ->
        let Pt := Type1.mk_model ndx ndy
                    (map (piece_at ndx ndy h_data) (Py.range (ndx * ndy))) in
        let Tt := Type1.mk_model ndx ndy
                    (map (piece_at ndx ndy s_data) (Py.range (ndx * ndy))) in
        Type1._parse_key key_h = Ok (Some Pt)
        /\ Type1._parse_key key_s = Ok (Some Tt)
        /\ Type1.__init__ key_h key_s = Ok (Type1.mk Tt Pt)).
Proof.
  split; [exact decode_char_non_letter|].
  intros key_h key_s h0 h1 h_data s0 s1 s_data ndx ndy
         Hh Hs Hh0 Hh1 Hs0 Hs1 Hhlen Hslen Pt Tt.
  pose proof (parse_key_shape _ _ _ _ _ _ Hh Hh0 Hh1 Hhlen) as HPt.
  pose proof (parse_key_shape _ _ _ _ _ _ Hs Hs0 Hs1 Hslen) as HTt.
  fold Pt in HPt. fold Tt in HTt. repeat split; try assumption.
  unfold Type1.__init__. rewrite HTt, HPt. cbn [Py.bind].
  subst Pt Tt. cbn [Type1.ndx Type1.ndy]. now rewrite !Z.eqb_refl.
Qed.

Lemma type1_data_characters_unchecked_witness :
  Type1.decode_char "0" = (1, -1)
  /\ Type1._parse_key "1-1-0A"
     = Ok (Some (Type1.mk_model 1 1 [Piece.mk (-1) 0 1 1]))
  /\ Type1._parse_key "1-1-A!"
     = Ok (Some (Type1.mk_model 1 1 [Piece.mk 0 (-1) 1 1]))
  /\ Type1.__init__ "1-1-0A" "1-1-A!"
     = Ok (Type1.mk (Type1.mk_model 1 1 [Piece.mk 0 (-1) 1 1])
                    (Type1.mk_model 1 1 [Piece.mk (-1) 0 1 1])).
Proof.
  destruct type1_data_characters_unchecked as [Hchar Hkey].
  split; [apply (Hchar "0"%char); reflexivity|].
  exact (Hkey "1-1-0A"%string "1-1-A!"%string "1"%string "1"%string
              "0A"%string "1"%string "1"%string "A!"%string 1 1
              eq_refl eq_refl eq_refl eq_refl eq_refl eq_refl eq_refl eq_refl).
Defined.

(* ===================================================================== *)
(** * Type 1: the rectangle list *)
(* ===================================================================== *)

Lemma map_nth_combine {A B C : Type} (F : A * B -> C) (l1 : list A)
    (l2 : list B) (d1 : A) (d2 : B) :
  List.length l1 = List.length l2 ->
  map (fun k => F (nth k l1 d1, nth k l2 d2)) (seq 0 (List.length l1))
  = map F (combine l1 l2).
Proof.
  revert l2. induction l1 as [|a l1 IH]; intros [|b l2] Hlen; simpl in *;
    try discriminate; [reflexivity|].
  f_equal. rewrite <- seq_shift, map_map. apply IH. congruence.
Qed.

Lemma map_range_combine {A B C : Type} (F : A * B -> C) (l1 : list A)
    (l2 : list B) (d1 : A) (d2 : B) :
  List.length l1 = List.length l2 ->
  map (fun a => F (nth (Z.to_nat a) l1 d1, nth (Z.to_nat a) l2 d2))
      (Py.range (Py.llen l1))
  = map F (combine l1 l2).
Proof.
  intros Hlen. unfold Py.range, Py.llen. rewrite map_map, Nat2Z.id.
  rewrite <- (map_nth_combine F l1 l2 d1 d2 Hlen).
  apply map_ext. intros k. now rewrite Nat2Z.id.
Qed.

(** The pieces of a parsed key are small. *)
Lemma decode_char_range (c : ascii) : -1 <= snd (Type1.decode_char c) <= 51.
Proof. destruct c as [[] [] [] [] [] [] [] []]; vm_compute; split; discriminate. Qed.

Lemma factors_range (ndx ndy d : Z) :
  0 <= fst (Type1.factors ndx ndy d) <= 2
  /\ 0 <= snd (Type1.factors ndx ndy d) <= 2.
Proof.
  unfold Type1.factors.
  repeat match goal with
    | |- context [if ?c then _ else _] => destruct c
    end; cbn [fst snd]; lia.
Qed.

Lemma parsed_pieces_small (key : string) (m : Type1.model) :
  Type1._parse_key key = Ok (Some m) -> Forall small_piece (Type1.piece m).
Proof.
  intros (p0 & p1 & data_str & _ & _ & _ & _ & ->)%parse_key_inv.
  apply Forall_map, Forall_forall. intros d _.
  unfold small_piece, piece_at. cbn [Piece.x Piece.y Piece.w Piece.h].
  pose proof (factors_range (Type1.ndx m) (Type1.ndy m) d) as [Hw Hh].
  repeat split; try apply decode_char_range; lia.
Qed.

Lemma init_pieces_small (key_h key_s : string) (self : Type1.t) :
  Type1.__init__ key_h key_s = Ok self ->
  Forall small_piece (Type1.piece (Type1.Tt self))
  /\ Forall small_piece (Type1.piece (Type1.Pt self)).
Proof.
  intros (Hs & Hh & _)%init_inv.
  split; eapply parsed_pieces_small; eassumption.
Qed.

(** On a small operand the pixel expression is its closed form. *)
Lemma pixels_small (v r e : Z) :
  -1 <= v <= 51 -> Type1.pixels v r e = Ok (pixel_of v r e).
Proof.
  intros Hv. unfold Type1.pixels.
  rewrite floor_div_2 by (assert (51 <= 2 ^ 52) by easy; lia).
  reflexivity.
Qed.

(** One iteration of the loop of [calculate_coords]. *)
Lemma type1_tile_rect_ok (self : Type1.t) (r e h u a : Z)
    (coords : list Rect.t) (d : Piece.t) :
  List.length (Type1.piece (Type1.Tt self))
  = List.length (Type1.piece (Type1.Pt self)) ->
  Forall small_piece (Type1.piece (Type1.Tt self)) ->
  Forall small_piece (Type1.piece (Type1.Pt self)) ->
  0 <= a < Py.llen (Type1.piece (Type1.Tt self)) ->
  Type1.tile_rect self r e h u a coords
  = Ok (coords ++ [tile r e h u
                     (nth (Z.to_nat a) (Type1.piece (Type1.Tt self)) d,
                      nth (Z.to_nat a) (Type1.piece (Type1.Pt self)) d)]).
Proof.
  intros Hlen HTt HPt Ha. unfold Type1.tile_rect, Py.llen in *.
  rewrite (index_in_range _ a d) by (unfold Py.llen; lia).
  rewrite (index_in_range _ a d) by (unfold Py.llen; lia).
  cbn [Py.bind].
  rewrite Forall_forall in HTt, HPt.
  destruct (HTt (nth (Z.to_nat a) (Type1.piece (Type1.Tt self)) d))
    as (Hx & Hy & Hw & Hh); [apply nth_In; lia|].
  destruct (HPt (nth (Z.to_nat a) (Type1.piece (Type1.Pt self)) d))
    as (Hx' & Hy' & _ & _); [apply nth_In; lia|].
  rewrite !pixels_small by lia. reflexivity.
Qed.

(** The loop of [calculate_coords] never leaves the piece lists: once the
    two quotients by 7 are there, the result is the tile rectangles in index
    order followed by the strips. *)
Lemma type1_calculate_coords_gen (self : Type1.t) (image_width image_height : Z) :
  List.length (Type1.piece (Type1.Tt self))
  = List.length (Type1.piece (Type1.Pt self)) ->
  Forall small_piece (Type1.piece (Type1.Tt self)) ->
  Forall small_piece (Type1.piece (Type1.Pt self)) ->
  Type1.calculate_coords self image_width image_height
  = (q <- Py.floor_div (image_width - image_width mod 8 - 1) 7 ;;
     p <- Py.floor_div (image_height - image_height mod 8 - 1) 7 ;;
     Ok (rect_list self image_width image_height
           (q - q mod 8) (p - p mod 8))).
Proof.
  intros Hlen HTt HPt. unfold Type1.calculate_coords.
  destruct (Py.floor_div (image_width - image_width mod 8 - 1) 7) as [q|];
    [|reflexivity].
  cbn [Py.bind].
  destruct (Py.floor_div (image_height - image_height mod 8 - 1) 7) as [p|];
    [|reflexivity].
  cbn [Py.bind]. unfold rect_list.
  set (r := q - q mod 8). set (h := p - p mod 8).
  set (e := image_width - image_width mod 8 - 7 * r).
  set (u := image_height - image_height mod 8 - 7 * h).
  set (d := Piece.mk 0 0 0 0).
  rewrite (for_each_append _ _
             (fun a => tile r e h u
                         (nth (Z.to_nat a) (Type1.piece (Type1.Tt self)) d,
                          nth (Z.to_nat a) (Type1.piece (Type1.Pt self)) d))).
  - cbn [Py.bind app]. rewrite (map_range_combine _ _ _ d d Hlen).
    unfold right_strip, bottom_strip.
    destruct (_ <? image_width), (_ <? image_height);
      now rewrite <- ?app_assoc, ?app_nil_r.
  - intros a acc Ha. apply in_range in Ha.
    now apply type1_tile_rect_ok.
Qed.

(** Below 2^51 the two quotients are exact and the base sizes are
    [base_size] and [rest_size]. *)
Lemma floor_div_7 (d : Z) :
  Z.abs d < 2 ^ 51 ->
  Py.floor_div (d - d mod 8 - 1) 7 = Ok ((d - d mod 8 - 1) / 7).
Proof.
  intros Hd. pose proof (Z.mod_pos_bound d 8 ltac:(lia)).
  apply floor_div_exact; [split; [lia|easy]|].
  assert (2 ^ 52 = 2 * 2 ^ 51) by reflexivity. lia.
Qed.

Lemma type1_calculate_coords_eq (key_h key_s : string) (self : Type1.t)
    (image_width image_height : Z) :
  Type1.__init__ key_h key_s = Ok self ->
  Z.abs image_width < 2 ^ 51 -> Z.abs image_height < 2 ^ 51 ->
  let r := base_size image_width in
  let e := rest_size image_width in
  let h := base_size image_height in
  let u := rest_size image_height in
  let l := r * (Type1.ndx (Type1.Tt self) - 1) + e in
  let v := h * (Type1.ndy (Type1.Tt self) - 1) + u in
  Type1.calculate_coords self image_width image_height
  = Ok (map (tile r e h u)
            (combine (Type1.piece (Type1.Tt self))
                     (Type1.piece (Type1.Pt self)))
        ++ right_strip l v image_width
        ++ bottom_strip v image_width image_height).
Proof.
  intros Hinit HW HH r e h u l v.
  destruct (init_pieces_small _ _ _ Hinit) as [HTt HPt].
  rewrite (type1_calculate_coords_gen self image_width image_height
             (init_same_length _ _ _ Hinit) HTt HPt).
  rewrite !floor_div_7 by assumption. reflexivity.
Qed.

(** Below 2^1022 the two quotients fit a binary64 number: the rectangle
    list is there, for base sizes that are multiples of 8. *)
Lemma type1_calculate_coords_defined (key_h key_s : string) (self : Type1.t)
    (image_width image_height : Z) :
  Type1.__init__ key_h key_s = Ok self ->
  Z.abs image_width < 2 ^ 1022 -> Z.abs image_height < 2 ^ 1022 ->
  exists q p,
    Type1.calculate_coords self image_width image_height
    = Ok (rect_list self image_width image_height
            (q - q mod 8) (p - p mod 8)).
Proof.
  intros Hinit HW HH.
  destruct (init_pieces_small _ _ _ Hinit) as [HTt HPt].
  rewrite (type1_calculate_coords_gen self image_width image_height
             (init_same_length _ _ _ Hinit) HTt HPt).
  assert (H1023 : 2 ^ 1023 = 2 * 2 ^ 1022) by reflexivity.
  pose proof (Z.mod_pos_bound image_width 8 ltac:(lia)).
  pose proof (Z.mod_pos_bound image_height 8 ltac:(lia)).
  assert (H1022 : 8 < 2 ^ 1022) by reflexivity.
  destruct (floor_div_defined (image_width - image_width mod 8 - 1) 7)
    as [q ->]; [lia|lia|].
  destruct (floor_div_defined (image_height - image_height mod 8 - 1) 7)
    as [p ->]; [lia|lia|].
  now exists q, p.
Qed.

(** The quotient by 7 goes through a binary64 number.  On a width of
    10^18 it is rounded before the floor is taken: the code works with the
    base 142857142857142864 and the remainder -48, where the floor of the
    exact quotient gives 142857142857142856 and 8, so the tile of the key
    ["1-1-AA"] gets the width -48.  On a width of 10^400 the quotient does not
    fit a binary64 number and [calculate_coords] raises [OverflowError]. *)
Lemma type1_formulas_fail_on_huge_sizes :
  exists self,
    Type1.__init__ "1-1-AA" "1-1-AA" = Ok self
    /\ Type1.calculate_coords self (10 ^ 18) 16
       = Ok [Rect.mk 0 0 (-48) 16 0 0;
             Rect.mk (-48) 0 (10 ^ 18 + 48) 16 (-48) 0]
    /\ base_size (10 ^ 18) = 142857142857142856
    /\ rest_size (10 ^ 18) = 8
    /\ Type1.calculate_coords self (10 ^ 18) 16
       <> Ok (rect_list self (10 ^ 18) 16 (base_size (10 ^ 18)) (base_size 16))
    /\ Type1.calculate_coords self (10 ^ 400) 16 = Raise OverflowError.
Proof.
  eexists. split; [vm_compute; reflexivity|].
  split; [vm_compute; reflexivity|].
  split; [vm_compute; reflexivity|].
  split; [vm_compute; reflexivity|].
  split; [vm_compute; discriminate|].
  vm_compute. reflexivity.
Qed.

(** C5, as the code has it.  For an engine built from two keys and image
    dimensions below 2^51 in absolute value, [calculate_coords] works with
    the bases [n = width - width % 8], [r = floor((n - 1) / 7)] lowered by
    its remainder modulo 8 and [e = n - 7 r] (likewise [h] and [u] from the
    height); it returns one rectangle per index, in index order, whose
    source comes from the scramble piece and whose destination comes from
    the unscramble piece by [floor(v / 2) * r + (v % 2) * e]; then the right
    strip [(L, 0, width - L, V, L, 0)] exactly when
    [L = r (ndx - 1) + e < width], then the bottom strip
    [(0, V, width, height - V, 0, V)] exactly when
    [V = h (ndy - 1) + u < height]. *)
Theorem type1_calculate_coords_formulas
    (key_h key_s : string) (self : Type1.t) (image_width image_height : Z) :
  Type1.__init__ key_h key_s = Ok self ->
  Z.abs image_width < 2 ^ 51 -> Z.abs image_height < 2 ^ 51 ->
  let n := image_width - image_width mod 8 in
  let r0 := (n - 1) / 7 in
  let r := r0 - r0 mod 8 in
  let e := n - 7 * r in
  let s := image_height - image_height mod 8 in
  let h0 := (s - 1) / 7 in
  let h := h0 - h0 mod 8 in
  let u := s - 7 * h in
  let L := r * (Type1.ndx (Type1.Tt self) - 1) + e in
  let V := h * (Type1.ndy (Type1.Tt self) - 1) + u in
  List.length (Type1.piece (Type1.Tt self))
  = List.length (Type1.piece (Type1.Pt self))
  /\ Type1.calculate_coords self image_width image_height
     = Ok (map (fun fc : Piece.t * Piece.t =>
                  let (f, c) := fc in
                  Rect.mk (Piece.x f / 2 * r + Piece.x f mod 2 * e)
                          (Piece.y f / 2 * h + Piece.y f mod 2 * u)
                          (Piece.w f / 2 * r + Piece.w f mod 2 * e)
                          (Piece.h f / 2 * h + Piece.h f mod 2 * u)
                          (Piece.x c / 2 * r + Piece.x c mod 2 * e)
                          (Piece.y c / 2 * h + Piece.y c mod 2 * u))
               (combine (Type1.piece (Type1.Tt self))
                        (Type1.piece (Type1.Pt self)))
           ++ (if L <? image_width
               then [Rect.mk L 0 (image_width - L) V L 0] else [])
           ++ (if V <? image_height
               then [Rect.mk 0 V image_width (image_height - V) 0 V] else [])).
Proof.
  intros Hinit HW HH n r0 r e s h0 h u L V.
  pose proof (init_same_length _ _ _ Hinit) as Hlen. split; [exact Hlen|].
  rewrite (type1_calculate_coords_eq key_h key_s self image_width image_height
             Hinit HW HH).
  f_equal. f_equal. apply map_ext. now intros [f c].
Qed.

Lemma type1_calculate_coords_formulas_witness :
  exists self,
    Type1.__init__ "2-2-AAABBABB" "2-2-aaaAAaAA" = Ok self
    /\ List.length (Type1.piece (Type1.Tt self))
       = List.length (Type1.piece (Type1.Pt self))
    /\ Type1.calculate_coords self 100 70
       = Ok [Rect.mk 40 8 8 8 0 0; Rect.mk 40 0 8 8 0 8;
             Rect.mk 0 8 40 8 8 0; Rect.mk 0 0 40 8 8 8;
             Rect.mk 48 0 52 16 48 0; Rect.mk 0 16 100 54 0 16].
Proof.
  eexists. split; [vm_compute; reflexivity|].
  exact (type1_calculate_coords_formulas
           "2-2-AAABBABB" "2-2-aaaAAaAA" _ 100 70 eq_refl eq_refl eq_refl).
Defined.

(* ===================================================================== *)
(** * Coverage: basic facts *)
(* ===================================================================== *)

Lemma covers_true (rc : Rect.t) (px py : Z) :
  covers rc px py = true <->
  Rect.xdest rc <= px < Rect.xdest rc + Rect.width rc
  /\ Rect.ydest rc <= py < Rect.ydest rc + Rect.height rc.
Proof. unfold covers. rewrite !andb_true_iff, !Z.leb_le, !Z.ltb_lt. lia. Qed.

Lemma covers_false (rc : Rect.t) (px py : Z) :
  covers rc px py = false <->
  ~ (Rect.xdest rc <= px < Rect.xdest rc + Rect.width rc
     /\ Rect.ydest rc <= py < Rect.ydest rc + Rect.height rc).
Proof. rewrite <- covers_true. now destruct (covers rc px py). Qed.

Lemma in_image_true (image_width image_height px py : Z) :
  in_image image_width image_height px py = true <->
  0 <= px < image_width /\ 0 <= py < image_height.
Proof. unfold in_image. rewrite !andb_true_iff, !Z.leb_le, !Z.ltb_lt. lia. Qed.

Lemma in_image_false (image_width image_height px py : Z) :
  in_image image_width image_height px py = false <->
  ~ (0 <= px < image_width /\ 0 <= py < image_height).
Proof.
  rewrite <- in_image_true.
  now destruct (in_image image_width image_height px py).
Qed.

Lemma cover_count_app (l1 l2 : list Rect.t) (px py : Z) :
  cover_count (l1 ++ l2) px py
  = (cover_count l1 px py + cover_count l2 px py)%nat.
Proof. unfold cover_count. now rewrite filter_app, length_app. Qed.

(** Turns the recorded outcomes of [covers] and [in_image] into
    inequalities. *)
Ltac cover_facts :=
  repeat match goal with
    | H : covers _ _ _ = true |- _ => apply covers_true in H; cbn in H
    | H : covers _ _ _ = false |- _ => apply covers_false in H; cbn in H
    | H : in_image _ _ _ _ = true |- _ => apply in_image_true in H
    | H : in_image _ _ _ _ = false |- _ => apply in_image_false in H
    end.

(** C2.  The key ["1-1-AA"], used for both maps, parses to the single piece
    [(x=0, y=0, w=1, h=1)]; on a 10 by 10 image the engine returns the tile
    [(0, 0, 8, 8, 0, 0)], the right strip [(8, 0, 2, 8, 8, 0)] and the
    bottom strip [(0, 8, 10, 2, 0, 8)], and these three destinations cover
    every pixel of the image exactly once and nothing else. *)
Theorem type1_key_1_1_AA :
  exists self,
    Type1.__init__ "1-1-AA" "1-1-AA" = Ok self
    /\ Type1.Tt self = Type1.mk_model 1 1 [Piece.mk 0 0 1 1]
    /\ Type1.Pt self = Type1.mk_model 1 1 [Piece.mk 0 0 1 1]
    /\ Type1.calculate_coords self 10 10
       = Ok [Rect.mk 0 0 8 8 0 0; Rect.mk 8 0 2 8 8 0; Rect.mk 0 8 10 2 0 8]
    /\ partitions
         [Rect.mk 0 0 8 8 0 0; Rect.mk 8 0 2 8 8 0; Rect.mk 0 8 10 2 0 8]
         10 10.
Proof.
  eexists. split; [vm_compute; reflexivity|].
  repeat split.
  intros px py. unfold cover_count. cbn [filter].
  destruct (covers (Rect.mk 0 0 8 8 0 0) px py) eqn:H1;
    destruct (covers (Rect.mk 8 0 2 8 8 0) px py) eqn:H2;
    destruct (covers (Rect.mk 0 8 10 2 0 8) px py) eqn:H3;
    destruct (in_image 10 10 px py) eqn:H4;
    cover_facts; cbn [List.length]; solve [reflexivity | lia].
Qed.

(* ===================================================================== *)
(** * Type 1: coverage of the image *)
(* ===================================================================== *)

(** With all the pieces of the key at the origin, the tiles pile up on one
    another and leave a hole; on an image smaller than 8 by 8 the tile of
    the key ["1-1-AA"] reaches outside the image; and on a width of 10^18,
    where the quotient by 7 is rounded, the same key gives a tile of width -48
    and a strip that starts left of the image.  So the destination
    rectangles do not partition the image for every pair of keys that
    parses, nor for every image. *)
Lemma type1_coverage_fails :
  (exists self coords,
     Type1.__init__ "2-2-AAAAAAAA" "2-2-AAAAAAAA" = Ok self
     /\ Type1.calculate_coords self 64 64 = Ok coords
     /\ cover_count coords 0 0 = 4%nat
     /\ cover_count coords 8 8 = 0%nat
     /\ ~ partitions coords 64 64)
  /\ (exists self coords,
        Type1.__init__ "1-1-AA" "1-1-AA" = Ok self
        /\ Type1.calculate_coords self 4 4 = Ok coords
        /\ cover_count coords 10 10 = 1%nat
        /\ ~ partitions coords 4 4)
  /\ (exists self coords,
        Type1.__init__ "1-1-AA" "1-1-AA" = Ok self
        /\ Type1.calculate_coords self (10 ^ 18) 16 = Ok coords
        /\ cover_count coords (-1) 0 = 1%nat
        /\ ~ partitions coords (10 ^ 18) 16).
Proof.
  repeat split; eexists; eexists;
    (split; [vm_compute; reflexivity|]);
    (split; [vm_compute; reflexivity|]).
  - split; [reflexivity|]. split; [reflexivity|].
    intros Hpart. specialize (Hpart 0 0). vm_compute in Hpart. discriminate.
  - split; [reflexivity|].
    intros Hpart. specialize (Hpart 10 10). vm_compute in Hpart. discriminate.
  - split; [reflexivity|].
    intros Hpart. specialize (Hpart (-1) 0). vm_compute in Hpart. discriminate.
Qed.

(** ** One axis *)

Lemma pixels_even (k r e : Z) : pixel_of (2 * k) r e = k * r.
Proof.
  unfold pixel_of.
  replace (2 * k / 2) with k by (apply Z.div_unique with 0; lia).
  replace ((2 * k) mod 2) with 0 by (apply Z.mod_unique with k; lia).
  lia.
Qed.

Lemma pixels_odd (k r e : Z) : pixel_of (2 * k - 1) r e = (k - 1) * r + e.
Proof.
  unfold pixel_of.
  replace ((2 * k - 1) / 2) with (k - 1)
    by (apply Z.div_unique with 1; lia).
  replace ((2 * k - 1) mod 2) with 1
    by (apply Z.mod_unique with (k - 1); lia).
  lia.
Qed.

(** The slot of column [k] is the interval from [pos k] to [pos (k + 1)]. *)
Lemma slot_interval (p r e k px : Z) :
  iv (pixel_of (fst (slot p k)) r e) (pixel_of (snd (slot p k)) r e) px
  = (pos p r e k <=? px) && (px <? pos p r e (k + 1)).
Proof.
  unfold slot, pos, iv.
  destruct (Z.ltb_spec k p); [|destruct (Z.eqb_spec k p)];
    destruct (Z.leb_spec k p); destruct (Z.leb_spec (k + 1) p); try lia;
    cbn [fst snd]; rewrite ?pixels_even, ?pixels_odd;
    change (pixel_of 2 r e) with (1 * r + 0 * e);
    change (pixel_of 1 r e) with (0 * r + 1 * e);
    repeat first [ring | progress f_equal].
Qed.

Lemma range_succ (n : nat) :
  Py.range (Z.of_nat (S n)) = Py.range (Z.of_nat n) ++ [Z.of_nat n].
Proof.
  unfold Py.range. rewrite !Nat2Z.id, seq_S, map_app. reflexivity.
Qed.

(** Consecutive intervals along a non-decreasing sequence of bounds: a
    point lies in exactly one of them when it lies between the first and
    the last bound, and in none otherwise. *)
Lemma chain_count (f : Z -> Z) (px : Z) (n : nat) :
  (forall k, 0 <= k < Z.of_nat n -> f k <= f (k + 1)) ->
  f 0 <= f (Z.of_nat n)
  /\ List.length (filter (fun k => (f k <=? px) && (px <? f (k + 1)))
                         (Py.range (Z.of_nat n)))
     = if (f 0 <=? px) && (px <? f (Z.of_nat n)) then 1%nat else 0%nat.
Proof.
  induction n as [|n IH]; intros Hmono.
  - split; [simpl; lia|]. cbn [Z.of_nat]. rewrite range_nil by lia. simpl.
    destruct (Z.leb_spec (f 0) px), (Z.ltb_spec px (f 0)); simpl; lia.
  - destruct IH as [Hle Hcount]; [intros k Hk; apply Hmono; lia|].
    pose proof (Hmono (Z.of_nat n) ltac:(lia)) as Hstep.
    replace (Z.of_nat (S n)) with (Z.of_nat n + 1) in * by lia.
    split; [lia|].
    replace (Z.of_nat n + 1) with (Z.of_nat (S n)) at 1 by lia.
    rewrite range_succ, filter_app, length_app, Hcount. cbn [filter].
    destruct (Z.leb_spec (f 0) px), (Z.ltb_spec px (f (Z.of_nat n))),
             (Z.leb_spec (f (Z.of_nat n)) px),
             (Z.ltb_spec px (f (Z.of_nat n + 1)));
      cbn [andb List.length]; lia.
Qed.

Lemma pos_step (p r e k : Z) :
  0 <= r -> 0 <= e -> pos p r e k <= pos p r e (k + 1).
Proof.
  intros Hr He. unfold pos.
  destruct (Z.leb_spec k p), (Z.leb_spec (k + 1) p); nia.
Qed.

(** The columns of a proper layout partition the covered extent. *)
Lemma column_count (ndx p r e px : Z) :
  0 <= p < ndx -> 0 <= r -> 0 <= e ->
  List.length
    (filter (fun xw => iv (pixel_of (fst xw) r e)
                          (pixel_of (snd xw) r e) px)
            (map (slot p) (Py.range ndx)))
  = if (0 <=? px) && (px <? r * (ndx - 1) + e) then 1%nat else 0%nat.
Proof.
  intros Hp Hr He. rewrite filter_map_swap, length_map.
  rewrite (filter_ext _ (fun k => (pos p r e k <=? px)
                                  && (px <? pos p r e (k + 1))))
    by (intros k; apply slot_interval).
  destruct (chain_count (pos p r e) px (Z.to_nat ndx)) as [_ Hcount];
    [intros k _; now apply pos_step|].
  rewrite Z2Nat.id in Hcount by lia. rewrite Hcount.
  replace (pos p r e 0) with 0
    by (unfold pos; destruct (Z.leb_spec 0 p); lia).
  replace (pos p r e ndx) with (r * (ndx - 1) + e)
    by (unfold pos; destruct (Z.leb_spec ndx p); lia).
  reflexivity.
Qed.

(** ** The grid *)

Lemma filter_false {A : Type} (l : list A) : filter (fun _ => false) l = [].
Proof. induction l; simpl; auto. Qed.

Lemma count_list_prod {A B : Type} (P : A -> bool) (Q : B -> bool)
    (l1 : list A) (l2 : list B) :
  List.length (filter (fun ab => P (fst ab) && Q (snd ab)) (list_prod l1 l2))
  = (List.length (filter P l1) * List.length (filter Q l2))%nat.
Proof.
  induction l1 as [|a l1 IH]; [reflexivity|].
  cbn [list_prod filter]. rewrite filter_app, length_app, IH.
  rewrite filter_map_swap, length_map. cbn [fst snd].
  destruct (P a); cbn [andb List.length].
  - change (fun b : B => Q b) with Q. cbn [Nat.mul]. reflexivity.
  - now rewrite filter_false.
Qed.

Lemma count_permutation {A : Type} (P : A -> bool) (l l' : list A) :
  Permutation l l' ->
  List.length (filter P l) = List.length (filter P l').
Proof.
  induction 1 as [|a l l' _ IH|a b l|l l' l'' _ IH1 _ IH2]; simpl.
  - reflexivity.
  - destruct (P a); simpl; congruence.
  - destruct (P a), (P b); reflexivity.
  - congruence.
Qed.

Lemma slot_injective (p k k' : Z) : slot p k = slot p k' -> k = k'.
Proof.
  unfold slot.
  destruct (Z.ltb_spec k p); [|destruct (Z.eqb_spec k p)];
    (destruct (Z.ltb_spec k' p); [|destruct (Z.eqb_spec k' p)]);
    intros Heq; pose proof (f_equal fst Heq) as Hx;
    pose proof (f_equal snd Heq) as Hw; cbn [fst snd] in Hx, Hw; lia.
Qed.

Lemma NoDup_range (n : Z) : NoDup (Py.range n).
Proof.
  unfold Py.range. generalize (seq_NoDup (Z.to_nat n) 0).
  induction 1 as [|k l Hk _ IH]; simpl; constructor; [|assumption].
  rewrite in_map_iff. intros (k' & Heq & Hin).
  apply Nat2Z.inj in Heq. now subst.
Qed.

Lemma NoDup_slots (p n : Z) : NoDup (map (slot p) (Py.range n)).
Proof.
  generalize (NoDup_range n).
  induction 1 as [|k l Hk _ IH]; simpl; constructor; [|assumption].
  rewrite in_map_iff. intros (k' & Heq & Hin).
  apply slot_injective in Heq. now subst.
Qed.

Lemma NoDup_list_prod {A B : Type} (l1 : list A) (l2 : list B) :
  NoDup l1 -> NoDup l2 -> NoDup (list_prod l1 l2).
Proof.
  intros H1 H2. induction H1 as [|a l1 Ha _ IH]; simpl; [constructor|].
  apply NoDup_app.
  - clear IH. induction H2 as [|b l2 Hb _ IH2]; simpl; constructor;
      [|assumption].
    rewrite in_map_iff. intros (b' & [= <-] & Hin). contradiction.
  - exact IH.
  - intros [a' b'] Hin1 Hin2. apply in_map_iff in Hin1 as (b'' & [= <- <-] & _).
    apply in_prod_iff in Hin2 as [Hin2 _]. contradiction.
Qed.

Lemma cell_eqb_eq (a b : (Z * Z) * (Z * Z)) : cell_eqb a b = true -> a = b.
Proof.
  destruct a as [[x w] [y h]], b as [[x' w'] [y' h']]. unfold cell_eqb.
  cbn [fst snd]. rewrite !andb_true_iff, !Z.eqb_eq.
  intros [[[-> ->] ->] ->]. reflexivity.
Qed.

(** A layout that passes [layout_at] is the grid, up to the order of the
    pieces. *)
Lemma layout_at_permutation (self : Type1.t) (p q : Z) :
  layout_at self p q = true ->
  Permutation
    (grid (Type1.ndx (Type1.Tt self)) (Type1.ndy (Type1.Tt self)) p q)
    (placements self).
Proof.
  unfold layout_at. intros [Hlen Hall]%andb_true_iff.
  apply Nat.eqb_eq in Hlen. rewrite forallb_forall in Hall.
  apply NoDup_Permutation_bis.
  - unfold grid. apply NoDup_list_prod; apply NoDup_slots.
  - lia.
  - intros cell Hcell. apply Hall in Hcell.
    apply existsb_exists in Hcell as (cell' & Hin & Heq).
    apply cell_eqb_eq in Heq. now subst.
Qed.

Lemma proper_layout_inv (self : Type1.t) :
  proper_layout self = true ->
  exists p q,
    0 <= p < Type1.ndx (Type1.Tt self)
    /\ 0 <= q < Type1.ndy (Type1.Tt self)
    /\ layout_at self p q = true.
Proof.
  unfold proper_layout.
  intros (p & Hp & (q & Hq & Hlayout)%existsb_exists)%existsb_exists.
  apply in_range in Hp, Hq. now exists p, q.
Qed.

Lemma grid_count (ndx ndy p q r e h u px py : Z) :
  0 <= p < ndx -> 0 <= q < ndy ->
  0 <= r -> 0 <= e -> 0 <= h -> 0 <= u ->
  List.length (filter (cell_covers r e h u px py) (grid ndx ndy p q))
  = if in_image (r * (ndx - 1) + e) (h * (ndy - 1) + u) px py
    then 1%nat else 0%nat.
Proof.
  intros Hp Hq Hr He Hh Hu. unfold grid, cell_covers.
  rewrite (count_list_prod
             (fun xw => iv (pixel_of (fst xw) r e)
                           (pixel_of (snd xw) r e) px)
             (fun yh => iv (pixel_of (fst yh) h u)
                           (pixel_of (snd yh) h u) py)).
  rewrite !column_count by assumption. unfold in_image.
  destruct ((0 <=? px) && (px <? r * (ndx - 1) + e)); cbn [andb];
    [|reflexivity].
  destruct ((0 <=? py) && (py <? h * (ndy - 1) + u)); reflexivity.
Qed.

(** The tiles of a proper layout partition the covered extent
    [L] by [V]. *)
Lemma tiles_count (self : Type1.t) (r e h u px py : Z) :
  proper_layout self = true ->
  0 <= r -> 0 <= e -> 0 <= h -> 0 <= u ->
  cover_count
    (map (tile r e h u)
         (combine (Type1.piece (Type1.Tt self)) (Type1.piece (Type1.Pt self))))
    px py
  = if in_image (r * (Type1.ndx (Type1.Tt self) - 1) + e)
                (h * (Type1.ndy (Type1.Tt self) - 1) + u) px py
    then 1%nat else 0%nat.
Proof.
  intros (p & q & Hp & Hq & Hlayout)%proper_layout_inv Hr He Hh Hu.
  rewrite <- (grid_count _ _ p q) by assumption.
  rewrite (count_permutation _ _ _ (layout_at_permutation _ _ _ Hlayout)).
  unfold cover_count, placements.
  rewrite !filter_map_swap, !length_map. f_equal. apply filter_ext.
  intros [f c]. unfold covers, cell_covers, tile, iv.
  cbn [fst snd Rect.xdest Rect.ydest Rect.width Rect.height].
  now rewrite !andb_assoc.
Qed.

(** ** The strips *)

(** Tiles that partition the covered extent [L] by [V], completed by the
    two strips, partition the image, as long as the covered extent fits in
    the image. *)
Lemma strips_partition (tiles : list Rect.t) (L V image_width image_height : Z) :
  (forall px py,
     cover_count tiles px py = if in_image L V px py then 1%nat else 0%nat) ->
  0 <= L <= image_width -> 0 <= V <= image_height ->
  partitions (tiles ++ right_strip L V image_width
                    ++ bottom_strip V image_width image_height)
             image_width image_height.
Proof.
  intros Htiles HL HV px py.
  rewrite !cover_count_app, Htiles.
  unfold right_strip, bottom_strip, cover_count.
  destruct (Z.ltb_spec L image_width), (Z.ltb_spec V image_height);
    cbn [filter];
    repeat match goal with
      | |- context [covers ?rc px py] => destruct (covers rc px py) eqn:?
      end;
    destruct (in_image L V px py) eqn:?;
    destruct (in_image image_width image_height px py) eqn:?;
    cover_facts; cbn [List.length]; lia.
Qed.

(** The sizes are not negative on an extent of at least 8, and the covered
    extent fits for a grid of at most 8 cells along the axis. *)
Lemma base_size_bounds (d : Z) :
  8 <= d -> 0 <= base_size d /\ 0 < rest_size d.
Proof.
  intros Hd. unfold rest_size, base_size.
  pose proof (Z.mod_pos_bound d 8 ltac:(lia)) as Hm.
  pose proof (Z.div_mod d 8 ltac:(lia)) as Hd8.
  set (n := d - d mod 8) in *.
  assert (Hn : 8 <= n) by (unfold n; lia).
  pose proof (Z.mod_pos_bound ((n - 1) / 7) 8 ltac:(lia)) as Hq8.
  pose proof (Z.div_mod ((n - 1) / 7) 8 ltac:(lia)) as Hq.
  pose proof (Z.div_mod (n - 1) 7 ltac:(lia)) as Hn7.
  pose proof (Z.mod_pos_bound (n - 1) 7 ltac:(lia)) as Hm7.
  assert (Hq1 : 1 <= (n - 1) / 7) by (apply Z.div_le_lower_bound; lia).
  assert (Hq0 : 0 <= (n - 1) / 7 / 8) by (apply Z.div_pos; lia).
  lia.
Qed.

Lemma extent_within (d ndx : Z) :
  ndx <= 8 -> 0 <= base_size d ->
  base_size d * (ndx - 1) + rest_size d <= d.
Proof.
  intros Hndx Hr. unfold rest_size.
  pose proof (Z.mod_pos_bound d 8 ltac:(lia)) as Hm. nia.
Qed.

(** The two strips cover the image outside the covered extent, once. *)
Lemma strips_count (L V image_width image_height px py : Z) :
  0 <= L <= image_width -> 0 <= V <= image_height ->
  cover_count (right_strip L V image_width
               ++ bottom_strip V image_width image_height) px py
  = if in_image image_width image_height px py
       && negb (in_image L V px py)
    then 1%nat else 0%nat.
Proof.
  intros HL HV. unfold right_strip, bottom_strip, cover_count.
  destruct (Z.ltb_spec L image_width), (Z.ltb_spec V image_height);
    cbn [filter app];
    repeat match goal with
      | |- context [covers ?rc px py] => destruct (covers rc px py) eqn:?
      end;
    destruct (in_image L V px py) eqn:?;
    destruct (in_image image_width image_height px py) eqn:?;
    cover_facts; cbn [List.length andb negb]; lia.
Qed.

(** So the whole list partitions the image exactly when the tiles partition
    the covered extent. *)
Lemma strips_partition_iff (tiles : list Rect.t)
    (L V image_width image_height : Z) :
  0 <= L <= image_width -> 0 <= V <= image_height ->
  partitions (tiles ++ right_strip L V image_width
                    ++ bottom_strip V image_width image_height)
             image_width image_height
  <-> partitions tiles L V.
Proof.
  intros HL HV. split; [|intros Htiles; now apply strips_partition].
  intros Hall px py. specialize (Hall px py).
  rewrite cover_count_app, strips_count in Hall by assumption.
  destruct (in_image L V px py) eqn:HinL;
    destruct (in_image image_width image_height px py) eqn:HinW;
    cover_facts; cbn [andb negb] in Hall; lia.
Qed.

(** C1, as the code has it.  For an engine built from two keys and image
    dimensions below 2^51 in absolute value whose covered extent
    [L = r (ndx - 1) + e] by [V = h (ndy - 1) + u] fits in the image, the
    strips complete the tiles: the destination rectangles returned by
    [calculate_coords] partition the image (every pixel of the image lies in
    exactly one of them and no pixel outside lies in any) if and only if the
    destination tile rectangles partition the covered extent.  They do
    whenever the unscramble map is a proper layout of the scramble map's
    factors and the base and remainder sizes are not negative. *)
Theorem type1_partition_of_image (key_h key_s : string) (self : Type1.t)
    (image_width image_height : Z) :
  Type1.__init__ key_h key_s = Ok self ->
  Z.abs image_width < 2 ^ 51 -> Z.abs image_height < 2 ^ 51 ->
  let r := base_size image_width in
  let e := rest_size image_width in
  let h := base_size image_height in
  let u := rest_size image_height in
  let L := r * (Type1.ndx (Type1.Tt self) - 1) + e in
  let V := h * (Type1.ndy (Type1.Tt self) - 1) + u in
  0 <= L <= image_width -> 0 <= V <= image_height ->
  exists coords,
    Type1.calculate_coords self image_width image_height = Ok coords
    /\ (partitions coords image_width image_height
        <-> partitions
              (map (tile r e h u)
                   (combine (Type1.piece (Type1.Tt self))
                            (Type1.piece (Type1.Pt self)))) L V)
    /\ (proper_layout self = true ->
        0 <= r -> 0 <= e -> 0 <= h -> 0 <= u ->
        partitions coords image_width image_height).
Proof.
  intros Hinit HW HH r e h u L V HL HV.
  eexists. split.
  - now apply (type1_calculate_coords_eq key_h key_s).
  - fold r e h u. fold L V. split.
    + now apply strips_partition_iff.
    + intros Hlayout Hr He Hh Hu.
      apply strips_partition; [|assumption|assumption].
      intros px py. now apply tiles_count.
Qed.

Lemma type1_partition_of_image_witness :
  exists coords,
    Type1.calculate_coords
      (Type1.mk
         (Type1.mk_model 2 2
            [Piece.mk 0 0 2 2; Piece.mk 0 2 2 1;
             Piece.mk 2 0 1 2; Piece.mk 2 2 1 1])
         (Type1.mk_model 2 2
            [Piece.mk 1 0 2 2; Piece.mk 0 2 2 1;
             Piece.mk 0 0 1 2; Piece.mk 2 2 1 1])) 100 70 = Ok coords
    /\ (partitions coords 100 70
        <-> partitions
              [Rect.mk 0 0 8 8 40 0; Rect.mk 0 8 8 8 0 8;
               Rect.mk 8 0 40 8 0 0; Rect.mk 8 8 40 8 8 8] 48 16).
Proof.
  destruct (type1_partition_of_image
              "2-2-aAABAABB" "2-2-AAABBABB"
              (Type1.mk
                 (Type1.mk_model 2 2
                    [Piece.mk 0 0 2 2; Piece.mk 0 2 2 1;
                     Piece.mk 2 0 1 2; Piece.mk 2 2 1 1])
                 (Type1.mk_model 2 2
                    [Piece.mk 1 0 2 2; Piece.mk 0 2 2 1;
                     Piece.mk 0 0 1 2; Piece.mk 2 2 1 1]))
              100 70 eq_refl eq_refl eq_refl)
    as (coords & Hcoords & Hiff & _).
  - vm_compute. split; discriminate.
  - vm_compute. split; discriminate.
  - exists coords. split; [exact Hcoords|exact Hiff].
Defined.

(** A layout that is not proper and still partitions: with the unscramble
    key ["2-2-aAABAABB"] the narrow column is on the right in the first row
    and on the left in the second. *)
Example type1_staggered_layout :
  exists self coords,
    Type1.__init__ "2-2-aAABAABB" "2-2-AAABBABB" = Ok self
    /\ proper_layout self = false
    /\ Type1.calculate_coords self 100 70 = Ok coords
    /\ partitions coords 100 70.
Proof.
  eexists. eexists. split; [vm_compute; reflexivity|].
  split; [vm_compute; reflexivity|].
  split; [vm_compute; reflexivity|].
  apply (strips_partition
           [Rect.mk 0 0 8 8 40 0; Rect.mk 0 8 8 8 0 8;
            Rect.mk 8 0 40 8 0 0; Rect.mk 8 8 40 8 8 8] 48 16 100 70);
    [|lia|lia].
  intros px py. unfold cover_count. cbn [filter].
  repeat match goal with
    | |- context [covers ?rc px py] => destruct (covers rc px py) eqn:?
    end;
    destruct (in_image 48 16 px py) eqn:?;
    cover_facts; cbn [List.length]; lia.
Qed.

(* ===================================================================== *)
(** * Type 2: the key grammar *)
(* ===================================================================== *)

Lemma span_spec (p : ascii -> bool) (l u v : list ascii) :
  Type2.span p l = (u, v) ->
  l = u ++ v /\ Forall (fun c => p c = true) u.
Proof.
  revert u v. induction l as [|c l IH]; intros u v Hspan; simpl in Hspan.
  - injection Hspan as <- <-. now split.
  - destruct (p c) eqn:Hc.
    + destruct (Type2.span p l) as [u' v'].
      injection Hspan as <- <-. destruct (IH u' v' eq_refl) as [-> Hu].
      split; [reflexivity|]. now constructor.
    + injection Hspan as <- <-. now split.
Qed.

Lemma plus_spec (p : ascii -> bool) (l v : list ascii) (g : string) :
  Type2.plus p l = Some (g, v) ->
  l = list_ascii_of_string g ++ v
  /\ Forall (fun c => p c = true) (list_ascii_of_string g)
  /\ list_ascii_of_string g <> [].
Proof.
  unfold Type2.plus. destruct (Type2.span p l) as [[|c u] v'] eqn:Hspan;
    [discriminate|].
  intros Heq.
  assert (Hg : g = string_of_list_ascii (c :: u)) by congruence.
  assert (Hv : v = v') by congruence. subst g v.
  rewrite list_ascii_of_string_of_list_ascii.
  destruct (span_spec _ _ _ _ Hspan) as [-> Hu]. now repeat split.
Qed.

Lemma expect_spec (c : ascii) (l l' : list ascii) :
  Type2.expect c l = Some l' -> l = c :: l'.
Proof.
  destruct l as [|x l]; simpl; [discriminate|].
  destruct (Ascii.eqb x c) eqn:Hx; [|discriminate].
  apply Ascii.eqb_eq in Hx. now intros [= <-]; subst.
Qed.

Lemma at_end_spec (l : list ascii) :
  Type2.at_end l = true -> l = [] \/ l = ["010"%char].
Proof.
  destruct l as [|c [|c' l]]; simpl; try discriminate; [now left|].
  intros ->%Ascii.eqb_eq. now right.
Qed.

(** What a matching key looks like: the five groups in place, each in its
    class, and at most a line feed after them. *)
Lemma key_re_inv (key : string) (g : Type2.groups) :
  Type2.key_re key = Some g ->
  exists tail,
    (tail = [] \/ tail = ["010"%char])
    /\ list_ascii_of_string key
       = "="%char :: list_ascii_of_string (Type2.group1 g)
         ++ "-"%char :: list_ascii_of_string (Type2.group2 g)
         ++ Type2.group3 g :: list_ascii_of_string (Type2.group4 g)
         ++ "-"%char :: list_ascii_of_string (Type2.group5 g) ++ tail
    /\ Forall (fun c => Py.is_digit c = true)
              (list_ascii_of_string (Type2.group1 g))
    /\ Forall (fun c => Py.is_digit c = true)
              (list_ascii_of_string (Type2.group2 g))
    /\ (Type2.group3 g = "-"%char \/ Type2.group3 g = "+"%char)
    /\ Forall (fun c => Py.is_digit c = true)
              (list_ascii_of_string (Type2.group4 g))
    /\ Forall (fun c => Type2.is_data_char c = true)
              (list_ascii_of_string (Type2.group5 g)).
Proof.
  unfold Type2.key_re. intros Hre.
  destruct (Type2.expect "=" _) as [l0|] eqn:E0; [|discriminate].
  destruct (Type2.plus Py.is_digit l0) as [[g1 l1]|] eqn:P1; [|discriminate].
  destruct (Type2.expect "-" l1) as [l2|] eqn:E1; [|discriminate].
  destruct (Type2.plus Py.is_digit l2) as [[g2 [|g3 l3]]|] eqn:P2;
    try discriminate.
  destruct (Ascii.eqb g3 "-" || Ascii.eqb g3 "+") eqn:E3; [|discriminate].
  destruct (Type2.plus Py.is_digit l3) as [[g4 l4]|] eqn:P4; [|discriminate].
  destruct (Type2.expect "-" l4) as [l5|] eqn:E4; [|discriminate].
  destruct (Type2.plus Type2.is_data_char l5) as [[g5 l6]|] eqn:P5;
    [|discriminate].
  destruct (Type2.at_end l6) eqn:E6; [|discriminate].
  injection Hre as <-. cbn [Type2.group1 Type2.group2 Type2.group3
                             Type2.group4 Type2.group5].
  apply expect_spec in E0, E1, E4.
  apply plus_spec in P1, P2, P4, P5.
  destruct P1 as (H1 & D1 & _), P2 as (H2 & D2 & _),
           P4 as (H4 & D4 & _), P5 as (H5 & D5 & _).
  subst l5 l4 l3 l2 l1 l0.
  exists l6. split; [now apply at_end_spec|]. split; [exact E0|].
  repeat split; try assumption.
  apply orb_true_iff in E3. rewrite !Ascii.eqb_eq in E3. exact E3.
Qed.

(* ===================================================================== *)
(** * Type 2: the grammar, read the other way *)
(* ===================================================================== *)

Lemma span_app (p : ascii -> bool) (u v : list ascii) :
  Forall (fun c => p c = true) u ->
  match v with c :: _ => p c = false | [] => True end ->
  Type2.span p (u ++ v) = (u, v).
Proof.
  intros Hu Hv. induction Hu as [|c u Hc _ IH]; cbn [app].
  - destruct v as [|c v]; simpl; [reflexivity|now rewrite Hv].
  - simpl. now rewrite Hc, IH.
Qed.

Lemma plus_app (p : ascii -> bool) (g : string) (v : list ascii) :
  Forall (fun c => p c = true) (list_ascii_of_string g) ->
  list_ascii_of_string g <> [] ->
  match v with c :: _ => p c = false | [] => True end ->
  Type2.plus p (list_ascii_of_string g ++ v) = Some (g, v).
Proof.
  intros Hg Hne Hv. unfold Type2.plus. rewrite span_app by assumption.
  destruct (list_ascii_of_string g) as [|c u] eqn:Hl; [contradiction|].
  now rewrite <- Hl, string_of_list_ascii_of_string.
Qed.

(** Every key of the shape the pattern describes is matched, with the
    groups of that shape: together with [key_re_inv], [key_re] accepts
    exactly the language of the pattern, a final line feed included. *)
Lemma key_re_complete (key g1 g2 g4 g5 : string) (g3 : ascii)
    (tail : list ascii) :
  list_ascii_of_string key
  = "="%char :: list_ascii_of_string g1
    ++ "-"%char :: list_ascii_of_string g2
    ++ g3 :: list_ascii_of_string g4
    ++ "-"%char :: list_ascii_of_string g5 ++ tail ->
  Forall (fun c => Py.is_digit c = true) (list_ascii_of_string g1) ->
  Forall (fun c => Py.is_digit c = true) (list_ascii_of_string g2) ->
  Forall (fun c => Py.is_digit c = true) (list_ascii_of_string g4) ->
  Forall (fun c => Type2.is_data_char c = true) (list_ascii_of_string g5) ->
  list_ascii_of_string g1 <> [] -> list_ascii_of_string g2 <> [] ->
  list_ascii_of_string g4 <> [] -> list_ascii_of_string g5 <> [] ->
  g3 = "-"%char \/ g3 = "+"%char ->
  tail = [] \/ tail = ["010"%char] ->
  Type2.key_re key = Some (Type2.mk_groups g1 g2 g3 g4 g5).
Proof.
  intros Hkey D1 D2 D4 D5 N1 N2 N4 N5 H3 Htail.
  unfold Type2.key_re. rewrite Hkey. cbn [Type2.expect]. rewrite Ascii.eqb_refl.
  rewrite (plus_app _ g1) by (assumption || reflexivity).
  cbn [Type2.expect]. rewrite Ascii.eqb_refl.
  rewrite (plus_app _ g2) by (assumption || (destruct H3; subst; reflexivity)).
  replace (Ascii.eqb g3 "-" || Ascii.eqb g3 "+") with true
    by (destruct H3; subst; reflexivity).
  rewrite (plus_app _ g4) by (assumption || reflexivity).
  cbn [Type2.expect]. rewrite Ascii.eqb_refl.
  rewrite (plus_app _ g5)
    by (assumption || (destruct Htail; subst; reflexivity)).
  now destruct Htail; subst.
Qed.

(* ===================================================================== *)
(** * Type 2: characters outside the key alphabet *)
(* ===================================================================== *)

Lemma digit_is_key_char (c : ascii) :
  Py.is_digit c = true -> is_key_char c = true.
Proof.
  intros Hc. unfold is_key_char, Type2.is_data_char. rewrite Hc.
  now rewrite !orb_true_r.
Qed.

Lemma data_char_is_key_char (c : ascii) :
  Type2.is_data_char c = true -> is_key_char c = true.
Proof. intros Hc. unfold is_key_char. rewrite Hc. now rewrite !orb_true_r. Qed.

Lemma key_re_group5_nonempty (key : string) (g : Type2.groups) :
  Type2.key_re key = Some g -> list_ascii_of_string (Type2.group5 g) <> [].
Proof.
  unfold Type2.key_re. intros Hre.
  repeat match type of Hre with
    | match ?x with _ => _ end = _ => destruct x eqn:?; try discriminate
    | (if ?x then _ else _) = _ => destruct x eqn:?; try discriminate
    | (let (_, _) := ?x in _) = _ => destruct x eqn:?
    end.
  injection Hre as <-. cbn [Type2.group5].
  match goal with
  | H : Type2.plus Type2.is_data_char _ = Some _ |- _ =>
      now apply plus_spec in H
  end.
Qed.

Lemma chomp_snoc (l : list ascii) (c : ascii) :
  Type2.is_data_char c = true ->
  chomp (l ++ [c]) = l ++ [c] /\ chomp ((l ++ [c]) ++ ["010"%char]) = l ++ [c].
Proof.
  intros Hc. unfold chomp. rewrite !rev_app_distr. cbn [rev app].
  rewrite rev_involutive, Ascii.eqb_refl.
  destruct (Ascii.eqb c "010") eqn:Heq; [|now split].
  apply Ascii.eqb_eq in Heq. subst c. discriminate.
Qed.

(** Apart from a line feed that ends it, a matching key is written with
    the characters of the key alphabet only. *)
Lemma key_re_alphabet (key : string) (g : Type2.groups) :
  Type2.key_re key = Some g ->
  Forall (fun c => is_key_char c = true) (chomp (list_ascii_of_string key)).
Proof.
  intros Hre.
  destruct (key_re_inv _ _ Hre)
    as (tail & Htail & Hkey & D1 & D2 & H3 & D4 & D5).
  pose proof (key_re_group5_nonempty _ _ Hre) as Hne.
  destruct (exists_last Hne) as (g5' & c & Hg5).
  assert (Hc : Type2.is_data_char c = true).
  { rewrite Forall_forall in D5. apply D5. rewrite Hg5.
    apply in_or_app. right. now left. }
  set (body := "="%char :: list_ascii_of_string (Type2.group1 g)
               ++ "-"%char :: list_ascii_of_string (Type2.group2 g)
               ++ Type2.group3 g :: list_ascii_of_string (Type2.group4 g)
               ++ "-"%char :: g5').
  assert (Hbody : list_ascii_of_string key = (body ++ [c]) ++ tail).
  { rewrite Hkey, Hg5. unfold body.
    repeat first [rewrite <- app_assoc | rewrite <- app_comm_cons].
    reflexivity. }
  assert (Hall : Forall (fun c => is_key_char c = true) (body ++ [c])).
  { unfold body. rewrite Hg5 in D5. apply Forall_app in D5 as [D5 _].
    repeat first
      [ apply Forall_cons | apply Forall_app; split | apply Forall_nil ];
      try reflexivity;
      try (eapply Forall_impl; [|eassumption]; cbv beta;
           first [exact digit_is_key_char | exact data_char_is_key_char]).
    - destruct H3 as [-> | ->]; reflexivity.
    - now apply data_char_is_key_char. }
  destruct (chomp_snoc body c Hc) as [Hchomp Hchomp'].
  rewrite Hbody.
  destruct Htail as [-> | ->]; [rewrite app_nil_r, Hchomp|rewrite Hchomp'];
    exact Hall.
Qed.

(** A key with a character outside the key alphabet, other than a line
    feed that ends it, does not match: the constructor returns the instance
    without permutation, and [calculate_coords] the identity rectangle. *)
Lemma type2_foreign_char_identity (key_h key_s : string) (c : ascii) :
  is_key_char c = false ->
  In c (chomp (list_ascii_of_string key_s))
  \/ In c (chomp (list_ascii_of_string key_h)) ->
  Type2.__init__ key_h key_s = Ok blank
  /\ forall image_width image_height,
       Type2.calculate_coords blank image_width image_height
       = Ok [Rect.mk 0 0 image_width image_height 0 0].
Proof.
  intros Hc Hin. split; [|reflexivity].
  assert (Hnone : Type2.key_re key_s = None \/ Type2.key_re key_h = None).
  { destruct Hin as [Hin|Hin]; [left|right];
      match goal with
      | |- Type2.key_re ?k = None =>
          destruct (Type2.key_re k) as [g|] eqn:Hre; [|reflexivity];
          apply key_re_alphabet in Hre; rewrite Forall_forall in Hre;
          apply Hre in Hin; congruence
      end. }
  unfold Type2.__init__, Type2._parse_keys.
  destruct Hnone as [-> | ->]; [reflexivity|].
  now destruct (Type2.key_re key_s).
Qed.

Example type2_exclamation_mark :
  Type2.__init__ "=1-1-1-A!A" "=1-1+1-AAA" = Ok blank
  /\ Type2.calculate_coords blank 640 480 = Ok [Rect.mk 0 0 640 480 0 0].
Proof.
  destruct (type2_foreign_char_identity "=1-1-1-A!A" "=1-1+1-AAA" "!"
              eq_refl) as [Hinit Hcoords].
  - right. simpl. tauto.
  - split; [exact Hinit|apply Hcoords].
Qed.

(** C6.  A key that ends with a line feed, a character outside the key
    alphabet, still matches the grammar: the engine holds the permutation
    [[0]] and answers with the tile of that permutation, not with the
    identity rectangle [(0, 0, 10, 10, 0, 0)]. *)
Theorem type2_final_line_feed_accepted :
  let key_s := String.append "=1-1+1-AAA" (String "010" EmptyString) in
  is_key_char "010" = false
  /\ In "010"%char (list_ascii_of_string key_s)
  /\ Type2.__init__ "=1-1-1-AAA" key_s
     = Ok (Type2.mk (Some [0]) 1 1 1 [0] [0] [0] [0])
  /\ Type2.calculate_coords (Type2.mk (Some [0]) 1 1 1 [0] [0] [0] [0]) 10 10
     = Ok [Rect.mk 1 1 8 8 0 0].
Proof. cbv zeta. repeat split. simpl. tauto. Qed.

(* ===================================================================== *)
(** * Type 2: decoding *)
(* ===================================================================== *)

Lemma decode_data_char (c : ascii) :
  Type2.is_data_char c = true -> 0 <= Type2._decode_char (Py.ord c) <= 63.
Proof.
  destruct c as [[] [] [] [] [] [] [] []]; vm_compute; intros H;
    try discriminate H; split; intros K; discriminate K.
Qed.

Lemma index_In {A : Type} (l : list A) (i : Z) (a : A) :
  Py.index l i = Ok a -> In a l.
Proof.
  unfold Py.index.
  destruct ((if i <? 0 then i + Py.llen l else i) <? 0); [discriminate|].
  destruct (nth_error l _) as [x|] eqn:Hnth; [|discriminate].
  intros [= <-]. now apply nth_error_In in Hnth.
Qed.

(** A decoding loop appends the codes of as many characters of the data
    string as it makes iterations. *)
Lemma decode_at_loop (data_str : string) (offset : Z) (l : list Z)
    (acc res : list Z) :
  Py.for_each l (Type2.decode_at data_str offset) acc = Ok res ->
  exists cs,
    res = acc ++ map (fun c => Type2._decode_char (Py.ord c)) cs
    /\ List.length cs = List.length l
    /\ Forall (fun c => In c (list_ascii_of_string data_str)) cs.
Proof.
  revert acc. induction l as [|i l IH]; intros acc Hloop; simpl in Hloop.
  - injection Hloop as <-. exists []. now rewrite app_nil_r.
  - unfold Type2.decode_at at 1 in Hloop.
    destruct (Py.str_index data_str (offset + i)) as [c|] eqn:Hc;
      [|discriminate].
    cbn [Py.bind] in Hloop. apply IH in Hloop as (cs & -> & Hlen & Hcs).
    exists (c :: cs). rewrite <- app_assoc. simpl. repeat split.
    + now f_equal.
    + constructor; [|assumption]. now apply index_In in Hc.
Qed.

Lemma decoded_in_range (data_str : string) (cs : list ascii) :
  Forall (fun c => Type2.is_data_char c = true)
         (list_ascii_of_string data_str) ->
  Forall (fun c => In c (list_ascii_of_string data_str)) cs ->
  Forall (fun v => 0 <= v <= 63)
         (map (fun c => Type2._decode_char (Py.ord c)) cs).
Proof.
  intros Hdata Hcs. apply Forall_map. rewrite Forall_forall in *.
  intros c Hc. apply decode_data_char, Hdata, Hcs, Hc.
Qed.

(** C10.  The table has 128 entries; every character of the class
    [[-_0-9A-Za-z]] decodes to a value between 0 and 63; hence, for a key
    that matches the grammar, whatever [_parse_sub_key] decodes from its
    data group lies between 0 and 63: the [-1] of the codec does not
    occur. *)
Theorem type2_decode_never_invalid :
  Py.llen Type2._Jt = 128
  /\ (forall c, Type2.is_data_char c = true ->
                0 <= Type2._decode_char (Py.ord c) <= 63)
  /\ (forall key g T j parsed,
        Type2.key_re key = Some g ->
        Type2._parse_sub_key T j (Type2.group5 g) = Ok parsed ->
        Forall (fun v => 0 <= v <= 63)
               (Type2.t_list parsed ++ Type2.n_list parsed
                ++ Type2.p_list parsed)).
Proof.
  split; [reflexivity|]. split; [exact decode_data_char|].
  intros key g T j parsed Hre Hsub.
  destruct (key_re_inv _ _ Hre) as (tail & _ & _ & _ & _ & _ & _ & Hdata).
  unfold Type2._parse_sub_key in Hsub.
  destruct (Py.for_each (Py.range T) _ []) as [t_list|] eqn:Ht;
    [|discriminate]. cbn [Py.bind] in Hsub.
  destruct (Py.for_each (Py.range j) _ []) as [n_list|] eqn:Hn;
    [|discriminate]. cbn [Py.bind] in Hsub.
  destruct (Py.for_each (Py.range (T * j)) _ []) as [p_list|] eqn:Hp;
    [|discriminate]. cbn [Py.bind] in Hsub.
  injection Hsub as <-. cbn [Type2.t_list Type2.n_list Type2.p_list].
  apply decode_at_loop in Ht as (ct & -> & _ & Hct).
  apply decode_at_loop in Hn as (cn & -> & _ & Hcn).
  apply decode_at_loop in Hp as (cp & -> & _ & Hcp).
  cbn [app]. rewrite !Forall_app.
  repeat split; now apply (decoded_in_range (Type2.group5 g)).
Qed.

Lemma type2_decode_never_invalid_witness :
  0 <= Type2._decode_char (Py.ord "_") <= 63
  /\ Forall (fun v => 0 <= v <= 63) ([26] ++ [27] ++ [62]).
Proof.
  destruct type2_decode_never_invalid as (_ & Hchar & Hkey). split.
  - apply (Hchar "_"%char). reflexivity.
  - apply (Hkey "=1-1+0-ab-"%string
                (Type2.mk_groups "1" "1" "+" "0" "ab-") 1 1
                (Type2.mk_sub_key [26] [27] [62]));
      reflexivity.
Defined.

(* ===================================================================== *)
(** * Type 2: the instances the constructor builds *)
(* ===================================================================== *)

Lemma digits_nonneg (l : list ascii) (acc : Z) (after_digit : bool) (v : Z) :
  0 <= acc -> Py.digits acc after_digit l = Some v -> 0 <= v.
Proof.
  revert acc after_digit.
  induction l as [|c l IH]; intros acc b Hacc; cbn [Py.digits].
  - destruct b; [intros [= <-]; assumption|discriminate].
  - destruct (Py.is_digit c) eqn:Hc.
    + apply IH. unfold Py.is_digit, Py.digit_value in *.
      apply andb_true_iff in Hc. rewrite !Z.leb_le in Hc. lia.
    + destruct (Ascii.eqb c "_" && b); [now apply IH|discriminate].
Qed.

Lemma lstrip_incl (l : list ascii) (c : ascii) :
  In c (Py.lstrip l) -> In c l.
Proof.
  induction l as [|x l IH]; simpl; [tauto|].
  destruct (Py.is_space x); [intros H; right; now apply IH|trivial].
Qed.

Lemma strip_incl (l : list ascii) (c : ascii) : In c (Py.strip l) -> In c l.
Proof.
  unfold Py.strip. intros H. apply in_rev in H. apply lstrip_incl in H.
  apply in_rev in H. now apply lstrip_incl.
Qed.

(** [int] of a string of digits is not negative. *)
Lemma int_digits_nonneg (s : string) (v : Z) :
  Forall (fun c => Py.is_digit c = true) (list_ascii_of_string s) ->
  Py.int s = Ok v -> 0 <= v.
Proof.
  intros Hdigits. unfold Py.int.
  destruct (Py.strip (list_ascii_of_string s)) as [|c rest] eqn:Hstrip.
  - simpl. discriminate.
  - assert (Hc : Py.is_digit c = true).
    { rewrite Forall_forall in Hdigits. apply Hdigits, strip_incl.
      rewrite Hstrip. now left. }
    destruct (Ascii.eqb c "-") eqn:Hminus;
      [apply Ascii.eqb_eq in Hminus; subst c; discriminate|].
    destruct (Ascii.eqb c "+") eqn:Hplus;
      [apply Ascii.eqb_eq in Hplus; subst c; discriminate|].
    destruct (Py.digits 0 false (c :: rest)) as [v'|] eqn:Hv; [|discriminate].
    intros Hok. assert (Hval : v = 1 * v') by congruence.
    apply digits_nonneg in Hv; lia.
Qed.

Lemma compose_loop_length (s_parsed h_parsed : Type2.sub_key) (l : list Z)
    (acc kt : list Z) :
  Py.for_each l (Type2.compose s_parsed h_parsed) acc = Ok kt ->
  List.length kt = (List.length acc + List.length l)%nat.
Proof.
  revert acc. induction l as [|u l IH]; intros acc Hloop; simpl in Hloop.
  - injection Hloop as <-. simpl. lia.
  - unfold Type2.compose at 1 in Hloop.
    destruct (Py.index (Type2.p_list h_parsed) u) as [hp|]; [|discriminate].
    cbn [Py.bind] in Hloop.
    destruct (Py.index (Type2.p_list s_parsed) hp) as [fi|]; [|discriminate].
    cbn [Py.bind] in Hloop. apply IH in Hloop.
    rewrite length_app in Hloop. simpl in *. lia.
Qed.

Lemma parse_sub_key_lengths (T j : Z) (data_str : string)
    (parsed : Type2.sub_key) :
  0 <= T -> 0 <= j ->
  Type2._parse_sub_key T j data_str = Ok parsed ->
  Py.llen (Type2.t_list parsed) = T /\ Py.llen (Type2.n_list parsed) = j.
Proof.
  intros HT Hj Hsub. unfold Type2._parse_sub_key in Hsub.
  destruct (Py.for_each (Py.range T) _ []) as [t_list|] eqn:Ht;
    [|discriminate]. cbn [Py.bind] in Hsub.
  destruct (Py.for_each (Py.range j) _ []) as [n_list|] eqn:Hn;
    [|discriminate]. cbn [Py.bind] in Hsub.
  destruct (Py.for_each (Py.range (T * j)) _ []) as [p_list|];
    [|discriminate]. cbn [Py.bind] in Hsub.
  injection Hsub as <-. cbn [Type2.t_list Type2.n_list].
  apply decode_at_loop in Ht as (ct & -> & Hct & _).
  apply decode_at_loop in Hn as (cn & -> & Hcn & _).
  unfold Py.llen. cbn [app]. rewrite !length_map, Hct, Hcn, !length_range. lia.
Qed.

(** What [__init__] returns: the instance left by an early return, whose
    [kt] is still [None], or a fully parsed one. *)
Lemma type2_init_cases (key_h key_s : string) (self : Type2.t) :
  Type2.__init__ key_h key_s = Ok self ->
  Type2.kt self = None
  \/ exists kt,
       Type2.kt self = Some kt
       /\ Py.llen kt = Type2.T self * Type2.j self
       /\ 0 <= Type2.T self <= 8 /\ 0 <= Type2.j self <= 8
       /\ Py.llen (Type2.Rt self) = Type2.j self
       /\ Py.llen (Type2.Ft self) = Type2.T self
       /\ Py.llen (Type2.Lt self) = Type2.j self
       /\ Py.llen (Type2.Nt self) = Type2.T self.
Proof.
  unfold Type2.__init__, Type2._parse_keys. intros Hinit.
  destruct (Type2.key_re key_s) as [gs|] eqn:Hs;
    [|injection Hinit as <-; now left].
  destruct (Type2.key_re key_h) as [gh|] eqn:Hh;
    [|injection Hinit as <-; now left].
  match type of Hinit with
  | (if ?c then _ else _) = _ =>
      destruct c; [injection Hinit as <-; now left|]
  end.
  destruct (key_re_inv _ _ Hs) as (_ & _ & _ & D1 & D2 & _ & _ & _).
  destruct (Py.int (Type2.group1 gs)) as [T|] eqn:HT; [|discriminate].
  cbn [Py.bind] in Hinit.
  destruct (Py.int (Type2.group2 gs)) as [j|] eqn:Hj; [|discriminate].
  cbn [Py.bind] in Hinit.
  destruct (Py.int (Type2.group4 gs)) as [Dt|] eqn:HD; [|discriminate].
  cbn [Py.bind] in Hinit.
  apply int_digits_nonneg in HT, Hj; try assumption.
  destruct ((T >? 8) || (j >? 8) || (T * j >? 64)) eqn:Hsize;
    [injection Hinit as <-; now left|].
  apply orb_false_iff in Hsize as [[H8T H8j]%orb_false_iff _].
  rewrite Z.gtb_ltb, Z.ltb_ge in H8T, H8j.
  match type of Hinit with
  | (if ?c then _ else _) = _ =>
      destruct c; [injection Hinit as <-; now left|]
  end.
  destruct (Type2._parse_sub_key T j (Type2.group5 gs)) as [s_parsed|] eqn:Hsp;
    [|discriminate]. cbn [Py.bind] in Hinit.
  destruct (Type2._parse_sub_key T j (Type2.group5 gh)) as [h_parsed|] eqn:Hhp;
    [|discriminate]. cbn [Py.bind] in Hinit.
  destruct (Py.for_each (Py.range (T * j)) _ []) as [kt|] eqn:Hkt;
    [|discriminate]. cbn [Py.bind] in Hinit.
  injection Hinit as <-. right. exists kt.
  cbn [Type2.kt Type2.T Type2.j Type2.Rt Type2.Ft Type2.Lt Type2.Nt].
  apply compose_loop_length in Hkt. rewrite length_range in Hkt.
  destruct (parse_sub_key_lengths _ _ _ _ HT Hj Hsp) as [Hst Hsn].
  destruct (parse_sub_key_lengths _ _ _ _ HT Hj Hhp) as [Hht Hhn].
  repeat split; try assumption; try lia.
  unfold Py.llen. simpl in Hkt. nia.
Qed.

(** An instance built by the constructor that holds a permutation with all
    values in range is a valid model: the lengths come with the
    construction. *)
Lemma type2_init_valid (key_h key_s : string) (self : Type2.t) :
  Type2.__init__ key_h key_s = Ok self ->
  Type2.not_kt self = false ->
  (forall kt, Type2.kt self = Some kt ->
     Forall (fun v => 0 <= v < Type2.T self * Type2.j self) kt) ->
  valid_model self = true.
Proof.
  intros Hinit Hnot Hrange. unfold Type2.not_kt in Hnot.
  destruct (type2_init_cases _ _ _ Hinit)
    as [Hnone|(kt & Hkt & Hlen & _ & _ & HRt & HFt & HLt & HNt)];
    [rewrite Hnone in Hnot; discriminate|].
  specialize (Hrange kt Hkt). unfold valid_model. rewrite Hkt in *.
  destruct kt as [|v l]; [discriminate|].
  rewrite !andb_true_iff, !Z.eqb_eq, forallb_forall.
  repeat split; try assumption.
  intros x Hx. rewrite Forall_forall in Hrange. apply Hrange in Hx.
  apply andb_true_iff. rewrite Z.leb_le, Z.ltb_lt. lia.
Qed.

(* ===================================================================== *)
(** * Type 2: the rectangle list *)
(* ===================================================================== *)

Lemma valid_model_inv (self : Type2.t) :
  valid_model self = true ->
  exists kt,
    Type2.kt self = Some kt /\ kt <> []
    /\ Py.llen kt = Type2.T self * Type2.j self
    /\ Forall (fun v => 0 <= v < Type2.T self * Type2.j self) kt
    /\ Py.llen (Type2.Rt self) = Type2.j self
    /\ Py.llen (Type2.Ft self) = Type2.T self
    /\ Py.llen (Type2.Lt self) = Type2.j self
    /\ Py.llen (Type2.Nt self) = Type2.T self
    /\ 0 < Type2.T self /\ 0 < Type2.j self.
Proof.
  unfold valid_model. destruct (Type2.kt self) as [[|v l]|]; try discriminate.
  rewrite !andb_true_iff, !Z.eqb_eq, forallb_forall.
  intros [[[[[Hlen Hrange] HRt] HFt] HLt] HNt].
  exists (v :: l). repeat split; try assumption; try discriminate.
  - apply Forall_forall. intros x Hx. apply Hrange in Hx.
    apply andb_true_iff in Hx. rewrite Z.leb_le, Z.ltb_lt in Hx. lia.
  - unfold Py.llen in *. simpl List.length in Hlen. nia.
  - unfold Py.llen in *. simpl List.length in Hlen. nia.
Qed.

(** Without a permutation, as [calculate_coords] tests it, the answer is
    the identity rectangle. *)
Lemma not_kt_identity (self : Type2.t) (image_width image_height : Z) :
  Type2.not_kt self = true ->
  Type2.calculate_coords self image_width image_height
  = Ok [Rect.mk 0 0 image_width image_height 0 0].
Proof.
  unfold Type2.not_kt, Type2.calculate_coords.
  destruct (Type2.kt self) as [[|v l]|]; [reflexivity|discriminate|reflexivity].
Qed.

(** The quotients of the loop: a flat index or a decoded value, below 64,
    by a count of at most 8. *)
Lemma floor_div_pos (a b : Z) :
  0 < b <= 8 -> 0 <= a < 64 -> Py.floor_div a b = Ok (a / b).
Proof.
  intros Hb Ha. assert (H52 : 64 <= 2 ^ 52) by easy.
  apply floor_div_exact; lia.
Qed.

(** The quotient that gives a base size, for an interior below 2^51. *)
Lemma floor_div_base (i T : Z) :
  0 < T <= 8 -> Z.abs i < 2 ^ 51 ->
  Py.floor_div (i + T - 1) T = Ok ((i + T - 1) / T).
Proof.
  intros HT Hi. assert (H52 : 2 ^ 52 = 2 * 2 ^ 51) by reflexivity.
  assert (H51 : 8 <= 2 ^ 51) by easy.
  apply floor_div_exact; lia.
Qed.

(** For an interior below 2^1022 the quotient fits a binary64 number. *)
Lemma floor_div_base_defined (i T : Z) :
  0 < T <= 8 -> Z.abs i < 2 ^ 1022 ->
  exists r, Py.floor_div (i + T - 1) T = Ok r.
Proof.
  intros HT Hi. assert (H1023 : 2 ^ 1023 = 2 * 2 ^ 1022) by reflexivity.
  assert (H1022 : 8 <= 2 ^ 1022) by easy.
  apply floor_div_defined; lia.
Qed.

Lemma modulo_pos (a b : Z) : 0 < b -> Py.modulo a b = Ok (a mod b).
Proof.
  intros Hb. unfold Py.modulo.
  destruct (b =? 0) eqn:H0; [apply Z.eqb_eq in H0; lia|reflexivity].
Qed.

(** A flat index below [T * j] splits into a column below [T] and a row
    below [j]. *)
Lemma flat_index_split (T j o : Z) :
  0 < T -> 0 <= o < T * j -> 0 <= o mod T < T /\ 0 <= o / T < j.
Proof.
  intros HT Ho. split; [now apply Z.mod_pos_bound|]. split.
  - apply Z.div_pos; lia.
  - apply Z.div_lt_upper_bound; lia.
Qed.

(** One iteration on a valid model of at most 8 by 8 tiles: every lookup
    stays inside its list. *)
Lemma type2_tile_rect_ok (self : Type2.t) (kt : list Z) (i n r e s h o : Z)
    (u : list Rect.t) :
  valid_model self = true -> Type2.kt self = Some kt ->
  Type2.T self <= 8 -> Type2.j self <= 8 ->
  0 <= o < Type2.T self * Type2.j self ->
  Type2.tile_rect self kt i n r e s h o u
  = Ok (if (i >? 0) && (n >? 0) then u ++ [tile2 self kt r e s h o] else u).
Proof.
  intros (kt' & Hkt & _ & Hlen & Hrange & HRt & HFt & HLt & HNt & HT & Hj)
         %valid_model_inv Hkt' HT8 Hj8 Ho.
  rewrite Hkt in Hkt'. injection Hkt' as ->.
  destruct (flat_index_split _ _ _ HT Ho) as [Hcol Hrow].
  assert (Htarget : 0 <= nth (Z.to_nat o) kt 0 < Type2.T self * Type2.j self).
  { rewrite Forall_forall in Hrange. apply Hrange, nth_In.
    unfold Py.llen in Hlen. lia. }
  destruct (flat_index_split _ _ _ HT Htarget) as [Hdcol Hdrow].
  assert (H64 : Type2.T self * Type2.j self <= 64) by nia.
  unfold Type2.tile_rect.
  rewrite modulo_pos, floor_div_pos by lia. cbn [Py.bind].
  rewrite (index_in_range _ _ 0) by lia. cbn [Py.bind].
  rewrite (index_in_range _ _ 0) by lia. cbn [Py.bind].
  rewrite (index_in_range kt o 0) by lia. cbn [Py.bind].
  rewrite modulo_pos, floor_div_pos by lia. cbn [Py.bind].
  rewrite (index_in_range _ _ 0) by lia. cbn [Py.bind].
  rewrite (index_in_range _ _ 0) by lia. cbn [Py.bind].
  unfold tile2. now destruct ((i >? 0) && (n >? 0)).
Qed.

(** On a valid model, dimensions that leave no interior give the empty
    list, as long as the two quotients fit a binary64 number. *)
Lemma type2_degenerate_valid
    (self : Type2.t) (image_width image_height : Z) :
  valid_model self = true ->
  Type2.T self <= 8 -> Type2.j self <= 8 ->
  Z.abs (image_width - 2 * Type2.T self * Type2.Dt self) < 2 ^ 1022 ->
  Z.abs (image_height - 2 * Type2.j self * Type2.Dt self) < 2 ^ 1022 ->
  image_width - 2 * Type2.T self * Type2.Dt self <= 0
  \/ image_height - 2 * Type2.j self * Type2.Dt self <= 0 ->
  Type2.calculate_coords self image_width image_height = Ok [].
Proof.
  intros Hvalid HT8 Hj8 Hi Hn Hdeg.
  destruct (valid_model_inv _ Hvalid)
    as (kt & Hkt & Hne & _ & _ & _ & _ & _ & _ & HT & Hj).
  unfold Type2.calculate_coords. rewrite Hkt.
  destruct kt as [|v kt]; [contradiction|].
  destruct (floor_div_base_defined _ (Type2.T self) ltac:(lia) Hi) as [r ->].
  destruct (floor_div_base_defined _ (Type2.j self) ltac:(lia) Hn) as [s ->].
  cbn [Py.bind].
  apply for_each_skip. intros o u Ho. apply in_range in Ho.
  rewrite (type2_tile_rect_ok self (v :: kt)) by assumption.
  replace ((_ >? 0) && (_ >? 0)) with false; [reflexivity|].
  symmetry. apply andb_false_iff. rewrite !Z.gtb_ltb, !Z.ltb_ge. lia.
Qed.

(** On a valid model and an interior below 2^51 the two quotients are
    exact, and the result is the closed form. *)
Lemma type2_calculate_coords_eq
    (self : Type2.t) (kt : list Z) (image_width image_height : Z) :
  valid_model self = true -> Type2.kt self = Some kt ->
  Type2.T self <= 8 -> Type2.j self <= 8 ->
  let i := image_width - 2 * Type2.T self * Type2.Dt self in
  let n := image_height - 2 * Type2.j self * Type2.Dt self in
  0 < i < 2 ^ 51 -> 0 < n < 2 ^ 51 ->
  let r := (i + Type2.T self - 1) / Type2.T self in
  let e := i - (Type2.T self - 1) * r in
  let s := (n + Type2.j self - 1) / Type2.j self in
  let h := n - (Type2.j self - 1) * s in
  Type2.calculate_coords self image_width image_height
  = Ok (map (tile2 self kt r e s h) (Py.range (Type2.T self * Type2.j self))).
Proof.
  intros Hvalid Hkt HT8 Hj8 i n Hi Hn r e s h.
  destruct (valid_model_inv _ Hvalid)
    as (kt' & Hkt' & Hne & _ & _ & _ & _ & _ & _ & HT & Hj).
  rewrite Hkt in Hkt'. injection Hkt' as <-.
  unfold Type2.calculate_coords. rewrite Hkt.
  destruct kt as [|v kt]; [contradiction|].
  fold i n.
  rewrite (floor_div_base i), (floor_div_base n) by lia. cbn [Py.bind].
  fold r. fold e. fold s. fold h.
  rewrite (for_each_append _ _ (tile2 self (v :: kt) r e s h));
    [reflexivity|].
  intros o u Ho. apply in_range in Ho.
  rewrite (type2_tile_rect_ok self (v :: kt)) by assumption.
  replace ((i >? 0) && (n >? 0)) with true; [reflexivity|].
  symmetry. apply andb_true_iff. rewrite !Z.gtb_ltb, !Z.ltb_lt. lia.
Qed.

(* ===================================================================== *)
(** * Type 2: what the constructor does on keys outside the model *)
(* ===================================================================== *)

(** C3.  A key whose grammar matches but whose permutation section decodes
    to a value that is not below [T * j] is not recovered.  When the
    unscramble key holds such a value the constructor raises [IndexError];
    when the scramble key holds it, the constructor returns an engine whose
    [kt] has that value, and [calculate_coords] raises [IndexError]. *)
Theorem type2_permutation_out_of_range :
  Type2.__init__ "=1-1-0-AAB" "=1-1+0-AAA" = Raise IndexError
  /\ Type2.__init__ "=1-1-0-AAA" "=1-1+0-AAF"
     = Ok (Type2.mk (Some [5]) 1 1 0 [0] [0] [0] [0])
  /\ Type2.calculate_coords (Type2.mk (Some [5]) 1 1 0 [0] [0] [0] [0]) 10 10
     = Raise IndexError.
Proof. repeat split. Qed.

(* ===================================================================== *)
(** * Type 1: the shape of a parsed model *)
(* ===================================================================== *)

Lemma split_no_sep (sep : ascii) (s p : string) :
  In p (Py.split sep s) -> ~ In sep (list_ascii_of_string p).
Proof.
  revert p. induction s as [|c s IH]; intros p Hin; simpl in Hin.
  - destruct Hin as [<-|[]]. simpl. tauto.
  - destruct (Ascii.eqb c sep) eqn:Hc.
    + destruct Hin as [<-|Hin]; [simpl; tauto|now apply IH].
    + destruct (Py.split sep s) as [|q qs] eqn:Hsplit.
      * destruct Hin as [<-|[]]. simpl. intros [->|[]].
        now rewrite Ascii.eqb_refl in Hc.
      * destruct Hin as [<-|Hin]; [|apply IH; now right].
        simpl. intros [->|Hq]; [now rewrite Ascii.eqb_refl in Hc|].
        apply (IH q); [now left|assumption].
Qed.

(** [int] of a string without a minus sign is not negative. *)
Lemma int_no_minus_nonneg (s : string) (v : Z) :
  ~ In "-"%char (list_ascii_of_string s) -> Py.int s = Ok v -> 0 <= v.
Proof.
  intros Hminus. unfold Py.int.
  destruct (Py.strip (list_ascii_of_string s)) as [|c rest] eqn:Hstrip.
  - simpl. discriminate.
  - destruct (Ascii.eqb c "-") eqn:Hc.
    + apply Ascii.eqb_eq in Hc. subst c. exfalso. apply Hminus, strip_incl.
      rewrite Hstrip. now left.
    + destruct (Ascii.eqb c "+");
        match goal with
        | |- context [Py.digits ?a ?b ?l] =>
            destruct (Py.digits a b l) as [v'|] eqn:Hv; [|discriminate]
        end;
        intros Hok; assert (Hval : v = 1 * v') by congruence;
        apply digits_nonneg in Hv; lia.
Qed.

Lemma factors_census (ndx ndy d : Z) :
  1 <= ndx -> 1 <= ndy -> 0 <= d < ndx * ndy ->
  Type1.factors ndx ndy d = census ndx ndy d.
Proof.
  intros Hx Hy Hd. unfold Type1.factors, census.
  repeat match goal with
    | |- context [?a <=? ?b] => destruct (Z.leb_spec a b)
    | |- context [?a <? ?b] => destruct (Z.ltb_spec a b)
    end; try reflexivity; nia.
Qed.

(** X1.  A model returned by [_parse_key] has counts that are not
    negative and exactly [ndx * ndy] pieces; the factors of the piece of
    rank [d] are those of the census: [(ndx-1)(ndy-1)] pieces [(2, 2)], then
    [ndx - 1] pieces [(2, 1)], then [ndy - 1] pieces [(1, 2)], and the
    last piece [(1, 1)].  The factors [(0, 0)] the loop starts from never
    remain. *)
Theorem type1_parsed_model_shape (key : string) (m : Type1.model) :
  Type1._parse_key key = Ok (Some m) ->
  0 <= Type1.ndx m /\ 0 <= Type1.ndy m
  /\ Py.llen (Type1.piece m) = Type1.ndx m * Type1.ndy m
  /\ (forall d, 0 <= d < Type1.ndx m * Type1.ndy m ->
        exists p, Py.index (Type1.piece m) d = Ok p
                  /\ (Piece.w p, Piece.h p)
                     = census (Type1.ndx m) (Type1.ndy m) d)
  /\ Forall (fun p => (Piece.w p = 1 \/ Piece.w p = 2)
                      /\ (Piece.h p = 1 \/ Piece.h p = 2))
            (Type1.piece m).
Proof.
  intros Hparse.
  destruct (parse_key_inv _ _ Hparse)
    as (p0 & p1 & data_str & Hsplit & H0 & H1 & Hlen & Hpieces).
  assert (Hx : 0 <= Type1.ndx m).
  { apply (int_no_minus_nonneg p0); [|assumption].
    apply (split_no_sep "-" key). rewrite Hsplit. now left. }
  assert (Hy : 0 <= Type1.ndy m).
  { apply (int_no_minus_nonneg p1); [|assumption].
    apply (split_no_sep "-" key). rewrite Hsplit. right. now left. }
  assert (Hll : Py.llen (Type1.piece m) = Type1.ndx m * Type1.ndy m).
  { unfold Py.llen. rewrite (parse_key_length _ _ Hparse). nia. }
  assert (Hfactors : forall d, 0 <= d < Type1.ndx m * Type1.ndy m ->
            Type1.factors (Type1.ndx m) (Type1.ndy m) d
            = census (Type1.ndx m) (Type1.ndy m) d).
  { intros d Hd. apply factors_census; nia. }
  repeat split; try assumption.
  - intros d Hd. eexists. split.
    + apply (index_in_range _ d (Piece.mk 0 0 0 0)). lia.
    + rewrite Hpieces.
      rewrite (nth_indep _ _ (piece_at (Type1.ndx m) (Type1.ndy m) data_str 0))
        by (rewrite length_map, length_range; lia).
      rewrite map_nth. unfold Py.range.
      rewrite (nth_indep _ _ (Z.of_nat 0))
        by (rewrite length_map, length_seq; lia).
      rewrite map_nth, seq_nth by lia. cbn [Nat.add].
      rewrite Z2Nat.id by lia. unfold piece_at. cbn [Piece.w Piece.h].
      rewrite <- Hfactors by lia. now destruct (Type1.factors _ _ d).
  - rewrite Hpieces. apply Forall_map, Forall_forall. intros d Hd.
    apply in_range in Hd. unfold piece_at. cbn [Piece.w Piece.h].
    rewrite (Hfactors d Hd). unfold census.
    repeat match goal with
      | |- context [?a <? ?b] => destruct (Z.ltb_spec a b)
      end; cbn [fst snd]; lia.
Qed.

Lemma type1_parsed_model_shape_witness :
  exists p,
    Py.index [Piece.mk 1 1 2 2; Piece.mk 1 0 2 1; Piece.mk 0 1 1 2;
              Piece.mk 0 0 1 1] 3 = Ok p
    /\ (Piece.w p, Piece.h p) = census 2 2 3.
Proof.
  exact (proj1 (proj2 (proj2 (proj2
           (type1_parsed_model_shape "2-2-aaaAAaAA"
              (Type1.mk_model 2 2 [Piece.mk 1 1 2 2; Piece.mk 1 0 2 1;
                                   Piece.mk 0 1 1 2; Piece.mk 0 0 1 1])
              eq_refl)))) 3 ltac:(simpl; lia)).
Defined.

(* ===================================================================== *)
(** * Type 1: the letter codec *)
(* ===================================================================== *)

Lemma ord_injective (c c' : ascii) : Py.ord c = Py.ord c' -> c = c'.
Proof.
  unfold Py.ord. intros H. apply N2Z.inj in H.
  rewrite <- (ascii_N_embedding c), <- (ascii_N_embedding c'). now f_equal.
Qed.

(** X2.  On the 52 letters [decode_char] is a numbering: the value lies
    between 0 and 51, the flag is its parity (0 for an uppercase letter, 1
    for a lowercase one), and two different letters never get the same
    value.  The value [-1] is returned for the characters that are not
    letters, and only for them. *)
Theorem type1_decode_char_numbering :
  (forall c, is_letter c = true ->
     0 <= snd (Type1.decode_char c) <= 51
     /\ fst (Type1.decode_char c) = snd (Type1.decode_char c) mod 2
     /\ (fst (Type1.decode_char c) = 0 <-> is_upper c = true))
  /\ (forall c c', is_letter c = true -> is_letter c' = true ->
        snd (Type1.decode_char c) = snd (Type1.decode_char c') -> c = c')
  /\ (forall c, snd (Type1.decode_char c) = -1 <-> is_letter c = false).
Proof.
  assert (Hcases : forall c,
            (is_upper c = true /\ is_lower c = false
             /\ 65 <= Py.ord c <= 90
             /\ Type1.decode_char c = (0, 2 * (Py.ord c - 65)))
            \/ (is_upper c = false /\ is_lower c = true
                /\ 97 <= Py.ord c <= 122
                /\ Type1.decode_char c = (1, 1 + 2 * (Py.ord c - 97)))
            \/ (is_upper c = false /\ is_lower c = false
                /\ Type1.decode_char c = (1, -1))).
  { intros c. rewrite decode_char_spec. unfold is_upper, is_lower.
    destruct (Z.leb_spec 65 (Py.ord c)), (Z.leb_spec (Py.ord c) 90),
             (Z.leb_spec 97 (Py.ord c)), (Z.leb_spec (Py.ord c) 122);
      cbn [andb]; try lia; auto 10. }
  split; [|split].
  - intros c Hc. unfold is_letter in Hc.
    destruct (Hcases c) as [(Hu & Hl & Hr & ->)|[(Hu & Hl & Hr & ->)
                                                |(Hu & Hl & _)]];
      [| |rewrite Hu, Hl in Hc; discriminate]; cbn [fst snd].
    + split; [lia|]. split; [|tauto].
      apply Z.mod_unique with (Py.ord c - 65); lia.
    + split; [lia|]. split; [|rewrite Hu; split; discriminate].
      apply Z.mod_unique with (Py.ord c - 97); lia.
  - intros c c' Hc Hc' Heq. unfold is_letter in Hc, Hc'. apply ord_injective.
    destruct (Hcases c) as [(Hu & Hl & Hr & Hd)|[(Hu & Hl & Hr & Hd)
                                                |(Hu & Hl & _)]];
      [| |rewrite Hu, Hl in Hc; discriminate];
      (destruct (Hcases c') as [(Hu' & Hl' & Hr' & Hd')|[(Hu' & Hl' & Hr' & Hd')
                                                        |(Hu' & Hl' & _)]];
       [| |rewrite Hu', Hl' in Hc'; discriminate]);
      rewrite Hd, Hd' in Heq; cbn [snd] in Heq; lia.
  - intros c. unfold is_letter.
    destruct (Hcases c) as [(Hu & Hl & Hr & ->)|[(Hu & Hl & Hr & ->)
                                                |(Hu & Hl & ->)]];
      rewrite Hu, Hl; cbn [snd orb]; split; intros H;
      try discriminate; try reflexivity; lia.
Qed.

Lemma type1_decode_char_numbering_witness :
  (0 <= snd (Type1.decode_char "z") <= 51
   /\ fst (Type1.decode_char "z") = snd (Type1.decode_char "z") mod 2
   /\ (fst (Type1.decode_char "z") = 0 <-> is_upper "z" = true))
  /\ "Q"%char = "Q"%char.
Proof.
  destruct type1_decode_char_numbering as (Hrange & Hinj & _). split.
  - apply (Hrange "z"%char). reflexivity.
  - apply (Hinj "Q"%char "Q"%char); reflexivity.
Defined.

(* ===================================================================== *)
(** * Type 1: alignment *)
(* ===================================================================== *)

(** A quotient lowered by its remainder modulo 8 is a multiple of 8, and
    so is the remainder size that goes with it. *)
Lemma lowered_aligned (d q : Z) :
  (8 | q - q mod 8) /\ (8 | d - d mod 8 - 7 * (q - q mod 8)).
Proof.
  assert (Hr : (8 | q - q mod 8)).
  { exists (q / 8). pose proof (Z.div_mod q 8 ltac:(lia)). lia. }
  split; [exact Hr|].
  apply Z.divide_sub_r; [|now apply Z.divide_mul_r].
  exists (d / 8). pose proof (Z.div_mod d 8 ltac:(lia)). lia.
Qed.

Lemma pixels_aligned (v r e : Z) :
  (8 | r) -> (8 | e) -> (8 | pixel_of v r e).
Proof.
  intros Hr He. unfold pixel_of.
  apply Z.divide_add_r; now apply Z.divide_mul_r.
Qed.

Lemma length_tiles (key_h key_s : string) (self : Type1.t) (r e h u : Z) :
  Type1.__init__ key_h key_s = Ok self ->
  Py.llen (map (tile r e h u)
               (combine (Type1.piece (Type1.Tt self))
                        (Type1.piece (Type1.Pt self))))
  = Type1.ndx (Type1.Tt self) * Type1.ndy (Type1.Tt self).
Proof.
  intros Hinit. pose proof (init_same_length _ _ _ Hinit) as Hlen.
  destruct (init_inv _ _ _ Hinit) as (Hs & _ & _ & _).
  unfold Py.llen. rewrite length_map, length_combine, <- Hlen, Nat.min_id.
  rewrite (parse_key_length _ _ Hs).
  destruct (parse_key_inv _ _ Hs) as (_ & _ & d & _ & _ & _ & Hl & _).
  unfold Py.len in Hl. lia.
Qed.

(** X3.  Whatever the keys, and for image dimensions below 2^1022 in
    absolute value (the quotients by 7 then fit a binary64 number, rounded
    or not), everything an engine moves is aligned on 8 pixels: the
    rectangle list is the [ndx * ndy] tiles, all of whose origins and sizes
    are multiples of 8, followed by at most two strips, which are copied in
    place ([xsrc = xdest], [ysrc = ydest]). *)
Theorem type1_tiles_aligned (key_h key_s : string) (self : Type1.t)
    (image_width image_height : Z) :
  Type1.__init__ key_h key_s = Ok self ->
  Z.abs image_width < 2 ^ 1022 -> Z.abs image_height < 2 ^ 1022 ->
  exists tiles strips,
    Type1.calculate_coords self image_width image_height
    = Ok (tiles ++ strips)
    /\ Py.llen tiles = Type1.ndx (Type1.Tt self) * Type1.ndy (Type1.Tt self)
    /\ Forall aligned tiles
    /\ (List.length strips <= 2)%nat
    /\ Forall (fun rc => Rect.xsrc rc = Rect.xdest rc
                         /\ Rect.ysrc rc = Rect.ydest rc) strips.
Proof.
  intros Hinit HW HH.
  destruct (type1_calculate_coords_defined _ _ _ _ _ Hinit HW HH)
    as (q & p & Hcoords).
  destruct (lowered_aligned image_width q) as [Hr He].
  destruct (lowered_aligned image_height p) as [Hh Hu].
  unfold rect_list in Hcoords.
  eexists. eexists. split; [exact Hcoords|].
  split; [|split; [|split]].
  - now apply (length_tiles key_h key_s).
  - apply Forall_map, Forall_forall. intros [f c] _.
    unfold aligned, tile. cbn [fst snd Rect.xsrc Rect.ysrc Rect.width
                               Rect.height Rect.xdest Rect.ydest].
    repeat split; now apply pixels_aligned.
  - unfold right_strip, bottom_strip.
    repeat match goal with |- context [?a <? ?b] => destruct (a <? b) end;
      simpl; lia.
  - unfold right_strip, bottom_strip.
    repeat match goal with |- context [?a <? ?b] => destruct (a <? b) end;
      repeat constructor.
Qed.

Lemma type1_tiles_aligned_witness :
  exists tiles strips,
    Type1.calculate_coords
      (Type1.mk (Type1.mk_model 1 1 [Piece.mk (-1) 0 1 1])
                (Type1.mk_model 1 1 [Piece.mk 0 51 1 1])) (10 ^ 18) 77
    = Ok (tiles ++ strips)
    /\ Py.llen tiles = 1 * 1
    /\ Forall aligned tiles
    /\ (List.length strips <= 2)%nat
    /\ Forall (fun rc => Rect.xsrc rc = Rect.xdest rc
                         /\ Rect.ysrc rc = Rect.ydest rc) strips.
Proof.
  exact (type1_tiles_aligned "1-1-Az" "1-1-0A" _ (10 ^ 18) 77
           eq_refl eq_refl eq_refl).
Defined.

(** X4.  With 8 columns the tiles cover the width rounded down to a
    multiple of 8 and with 8 rows the height rounded down likewise, for
    image dimensions below 2^1022 in absolute value, rounded quotients
    included: there are 64 tiles, the right strip is the last [width % 8]
    columns, present exactly when the width is not a multiple of 8, and the
    bottom strip the last [height % 8] rows. *)
Theorem type1_grid_of_8_extent (key_h key_s : string) (self : Type1.t)
    (image_width image_height : Z) :
  Type1.__init__ key_h key_s = Ok self ->
  Type1.ndx (Type1.Tt self) = 8 -> Type1.ndy (Type1.Tt self) = 8 ->
  Z.abs image_width < 2 ^ 1022 -> Z.abs image_height < 2 ^ 1022 ->
  let w8 := image_width - image_width mod 8 in
  let h8 := image_height - image_height mod 8 in
  exists tiles,
    List.length tiles = 64%nat
    /\ Type1.calculate_coords self image_width image_height
       = Ok (tiles
             ++ (if image_width mod 8 =? 0 then []
                 else [Rect.mk w8 0 (image_width mod 8) h8 w8 0])
             ++ (if image_height mod 8 =? 0 then []
                 else [Rect.mk 0 h8 image_width (image_height mod 8) 0 h8])).
Proof.
  intros Hinit Hx Hy HW HH w8 h8.
  destruct (type1_calculate_coords_defined _ _ _ _ _ Hinit HW HH)
    as (q & p & Hcoords).
  unfold rect_list in Hcoords. rewrite Hx, Hy in Hcoords.
  set (r := q - q mod 8) in *. set (h := p - p mod 8) in *.
  fold w8 h8 in Hcoords.
  eexists. split; [|rewrite Hcoords; f_equal; f_equal].
  - pose proof (length_tiles key_h key_s self r (w8 - 7 * r) h (h8 - 7 * h)
                  Hinit) as Hlen.
    rewrite Hx, Hy in Hlen. unfold Py.llen in Hlen. lia.
  - replace (r * (8 - 1) + (w8 - 7 * r)) with w8 by lia.
    replace (h * (8 - 1) + (h8 - 7 * h)) with h8 by lia.
    pose proof (Z.mod_pos_bound image_width 8 ltac:(lia)).
    pose proof (Z.mod_pos_bound image_height 8 ltac:(lia)).
    unfold right_strip, bottom_strip.
    replace (image_width - w8) with (image_width mod 8) by (unfold w8; lia).
    replace (image_height - h8) with (image_height mod 8)
      by (unfold h8; lia).
    destruct (Z.ltb_spec w8 image_width), (Z.eqb_spec (image_width mod 8) 0),
             (Z.ltb_spec h8 image_height), (Z.eqb_spec (image_height mod 8) 0);
      solve [reflexivity | unfold w8, h8 in *; lia].
Qed.

Lemma type1_grid_of_8_extent_witness :
  exists self,
    Type1.__init__
      "8-8-AABACADAEAFAGAABBBCBDBEBFBGBACBCCCDCECFCGCADBDCDDDEDFDGDAEBECEDEEEFEGEAFBFCFDFEFFFGFAGBGCGDGEGFGGGAHBHCHDHEHFHGHHAHBHCHDHEHFHGHH"
      "8-8-ggfgegdgcgbgaggfffefdfcfbfafgefeeedecebeaegdfdedddcdbdadgcfcecdcccbcacgbfbebdbcbbbabgafaeadacabaaagAfAeAdAcAbAaAAgAfAeAdAcAbAaAA"
    = Ok self
    /\ exists tiles,
         List.length tiles = 64%nat
         /\ Type1.calculate_coords self 1003 80
            = Ok (tiles ++ [Rect.mk 1000 0 3 80 1000 0] ++ []).
Proof.
  eexists. split; [vm_compute; reflexivity|].
  exact (type1_grid_of_8_extent
           "8-8-AABACADAEAFAGAABBBCBDBEBFBGBACBCCCDCECFCGCADBDCDDDEDFDGDAEBECEDEEEFEGEAFBFCFDFEFFFGFAGBGCGDGEGFGGGAHBHCHDHEHFHGHHAHBHCHDHEHFHGHH"
           "8-8-ggfgegdgcgbgaggfffefdfcfbfafgefeeedecebeaegdfdedddcdbdadgcfcecdcccbcacgbfbebdbcbbbabgafaeadacabaaagAfAeAdAcAbAaAAgAfAeAdAcAbAaAA"
           _ 1003 80 eq_refl eq_refl eq_refl eq_refl eq_refl).
Defined.

(* ===================================================================== *)
(** * Type 1: the two directions *)
(* ===================================================================== *)

Lemma combine_map_same {A B C : Type} (g1 : A -> B) (g2 : A -> C)
    (l : list A) :
  combine (map g1 l) (map g2 l) = map (fun a => (g1 a, g2 a)) l.
Proof. induction l as [|a l IH]; simpl; congruence. Qed.

Lemma swap_right_strip (l v image_width : Z) :
  map swap (right_strip l v image_width) = right_strip l v image_width.
Proof. unfold right_strip. now destruct (l <? image_width). Qed.

Lemma swap_bottom_strip (v image_width image_height : Z) :
  map swap (bottom_strip v image_width image_height)
  = bottom_strip v image_width image_height.
Proof. unfold bottom_strip. now destruct (v <? image_height). Qed.

(** Two piece lists read with the same counts have the same factors, so
    exchanging them exchanges source and destination of every tile. *)
Lemma swap_tiles (ndx ndy r e h u : Z) (s_data h_data : string) (l : list Z) :
  map swap
      (map (tile r e h u)
           (combine (map (piece_at ndx ndy s_data) l)
                    (map (piece_at ndx ndy h_data) l)))
  = map (tile r e h u)
        (combine (map (piece_at ndx ndy h_data) l)
                 (map (piece_at ndx ndy s_data) l)).
Proof.
  rewrite !combine_map_same, !map_map. apply map_ext. intros d. reflexivity.
Qed.

(** The engine built from the same keys in the other order, its tiles and
    its rectangle list. *)
Lemma type1_swapped_engine (key_h key_s : string) (self : Type1.t) :
  Type1.__init__ key_h key_s = Ok self ->
  Type1.__init__ key_s key_h = Ok (Type1.mk (Type1.Pt self) (Type1.Tt self))
  /\ (forall r e h u,
        map swap (map (tile r e h u)
                      (combine (Type1.piece (Type1.Tt self))
                               (Type1.piece (Type1.Pt self))))
        = map (tile r e h u)
              (combine (Type1.piece (Type1.Pt self))
                       (Type1.piece (Type1.Tt self))))
  /\ (forall image_width image_height r h,
        map swap (rect_list self image_width image_height r h)
        = rect_list (Type1.mk (Type1.Pt self) (Type1.Tt self))
            image_width image_height r h).
Proof.
  intros Hinit.
  destruct (init_inv _ _ _ Hinit) as (Hs & Hh & Hx & Hy).
  assert (Htiles : forall r e h u,
            map swap (map (tile r e h u)
                          (combine (Type1.piece (Type1.Tt self))
                                   (Type1.piece (Type1.Pt self))))
            = map (tile r e h u)
                  (combine (Type1.piece (Type1.Pt self))
                           (Type1.piece (Type1.Tt self)))).
  { intros r e h u.
    destruct (parse_key_inv _ _ Hs) as (_ & _ & s_data & _ & _ & _ & _ & HTt).
    destruct (parse_key_inv _ _ Hh) as (_ & _ & h_data & _ & _ & _ & _ & HPt).
    rewrite HTt, HPt, <- Hx, <- Hy. apply swap_tiles. }
  split; [|split; [exact Htiles|]].
  - unfold Type1.__init__. rewrite Hh, Hs. cbn [Py.bind].
    now rewrite <- Hx, <- Hy, !Z.eqb_refl.
  - intros image_width image_height r h. unfold rect_list.
    cbn [Type1.Tt Type1.Pt]. rewrite <- Hx, <- Hy.
    now rewrite !map_app, swap_right_strip, swap_bottom_strip, Htiles.
Qed.

(** X5.  Exchanging the two keys gives the inverse engine: it is built
    whenever the first one is, with the two maps exchanged.  For every
    image size the two engines raise the same exception or return, in the
    same order, rectangle lists that differ by the exchange of source and
    destination in each rectangle; and they do return for dimensions below
    2^1022 in absolute value. *)
Theorem type1_swapped_keys_inverse (key_h key_s : string) (self : Type1.t) :
  Type1.__init__ key_h key_s = Ok self ->
  exists inverse,
    Type1.__init__ key_s key_h = Ok inverse
    /\ Type1.Tt inverse = Type1.Pt self /\ Type1.Pt inverse = Type1.Tt self
    /\ (forall image_width image_height,
          match Type1.calculate_coords self image_width image_height with
          | Ok coords =>
              Type1.calculate_coords inverse image_width image_height
              = Ok (map swap coords)
          | Raise e =>
              Type1.calculate_coords inverse image_width image_height
              = Raise e
          end)
    /\ (forall image_width image_height,
          Z.abs image_width < 2 ^ 1022 -> Z.abs image_height < 2 ^ 1022 ->
          exists coords,
            Type1.calculate_coords self image_width image_height = Ok coords
            /\ Type1.calculate_coords inverse image_width image_height
               = Ok (map swap coords)).
Proof.
  intros Hinit.
  destruct (type1_swapped_engine _ _ _ Hinit) as (Hswap & _ & Hlist).
  pose proof (init_same_length _ _ _ Hinit) as Hlen.
  destruct (init_pieces_small _ _ _ Hinit) as [HTt HPt].
  assert (Hboth : forall image_width image_height,
            match Type1.calculate_coords self image_width image_height with
            | Ok coords =>
                Type1.calculate_coords
                  (Type1.mk (Type1.Pt self) (Type1.Tt self))
                  image_width image_height
                = Ok (map swap coords)
            | Raise e =>
                Type1.calculate_coords
                  (Type1.mk (Type1.Pt self) (Type1.Tt self))
                  image_width image_height
                = Raise e
            end).
  { intros image_width image_height.
    rewrite (type1_calculate_coords_gen self image_width image_height
               Hlen HTt HPt).
    rewrite (type1_calculate_coords_gen
               (Type1.mk (Type1.Pt self) (Type1.Tt self))
               image_width image_height)
      by (cbn [Type1.Tt Type1.Pt]; congruence).
    destruct (Py.floor_div (image_width - image_width mod 8 - 1) 7) as [q|];
      [|reflexivity].
    cbn [Py.bind].
    destruct (Py.floor_div (image_height - image_height mod 8 - 1) 7) as [p|];
      [|reflexivity].
    cbn [Py.bind]. now rewrite Hlist. }
  exists (Type1.mk (Type1.Pt self) (Type1.Tt self)).
  split; [exact Hswap|]. split; [reflexivity|]. split; [reflexivity|].
  split; [exact Hboth|].
  intros image_width image_height HW HH.
  destruct (type1_calculate_coords_defined _ _ _ _ _ Hinit HW HH)
    as (q & p & Hcoords).
  specialize (Hboth image_width image_height). rewrite Hcoords in Hboth.
  eexists. split; [exact Hcoords|exact Hboth].
Qed.

Lemma type1_swapped_keys_inverse_witness :
  exists inverse,
    Type1.__init__ "2-2-aaaAAaAA" "2-2-AAABBABB" = Ok inverse
    /\ Type1.calculate_coords inverse 100 70
       = Ok (map swap [Rect.mk 40 8 8 8 0 0; Rect.mk 40 0 8 8 0 8;
                       Rect.mk 0 8 40 8 8 0; Rect.mk 0 0 40 8 8 8;
                       Rect.mk 48 0 52 16 48 0; Rect.mk 0 16 100 54 0 16]).
Proof.
  destruct (type1_swapped_keys_inverse "2-2-AAABBABB" "2-2-aaaAAaAA"
              (Type1.mk
                 (Type1.mk_model 2 2 [Piece.mk 1 1 2 2; Piece.mk 1 0 2 1;
                                      Piece.mk 0 1 1 2; Piece.mk 0 0 1 1])
                 (Type1.mk_model 2 2 [Piece.mk 0 0 2 2; Piece.mk 0 2 2 1;
                                      Piece.mk 2 0 1 2; Piece.mk 2 2 1 1]))
              eq_refl)
    as (inverse & Hinit & _ & _ & _ & Hcoords).
  exists inverse. split; [exact Hinit|].
  destruct (Hcoords 100 70 eq_refl eq_refl) as (coords & Hc & Hinv).
  vm_compute in Hc. injection Hc as <-. exact Hinv.
Defined.

(** X6.  For an engine built from two keys and image dimensions below 2^51
    in absolute value whose covered extent [L] by [V] fits in the image, the
    rectangle list is a permutation of the pixels of the image (every pixel
    is written by exactly one rectangle and read by exactly one rectangle,
    and no rectangle reads or writes outside the image) if and only if the
    tiles alone are one of the covered extent.  They are whenever both maps
    are proper layouts and the base and remainder sizes are not negative. *)
Theorem type1_pixel_permutation (key_h key_s : string) (self : Type1.t)
    (image_width image_height : Z) :
  Type1.__init__ key_h key_s = Ok self ->
  Z.abs image_width < 2 ^ 51 -> Z.abs image_height < 2 ^ 51 ->
  let r := base_size image_width in
  let e := rest_size image_width in
  let h := base_size image_height in
  let u := rest_size image_height in
  let L := r * (Type1.ndx (Type1.Tt self) - 1) + e in
  let V := h * (Type1.ndy (Type1.Tt self) - 1) + u in
  let tiles :=
    map (tile r e h u)
        (combine (Type1.piece (Type1.Tt self))
                 (Type1.piece (Type1.Pt self))) in
  0 <= L <= image_width -> 0 <= V <= image_height ->
  exists coords,
    Type1.calculate_coords self image_width image_height = Ok coords
    /\ (partitions coords image_width image_height
        /\ partitions (map swap coords) image_width image_height
        <-> partitions tiles L V /\ partitions (map swap tiles) L V)
    /\ (proper_layout self = true ->
        proper_layout (Type1.mk (Type1.Pt self) (Type1.Tt self)) = true ->
        0 <= r -> 0 <= e -> 0 <= h -> 0 <= u ->
        partitions coords image_width image_height
        /\ partitions (map swap coords) image_width image_height).
Proof.
  intros Hinit HW HH r e h u L V tiles HL HV.
  destruct (init_inv _ _ _ Hinit) as (_ & _ & Hx & Hy).
  destruct (type1_swapped_engine _ _ _ Hinit) as (_ & Htiles & _).
  eexists. split; [now apply (type1_calculate_coords_eq key_h key_s)|].
  fold r e h u. fold L V. fold tiles.
  rewrite !map_app, swap_right_strip, swap_bottom_strip.
  split.
  - now rewrite !strips_partition_iff.
  - intros Hdest Hsrc Hr He Hh Hu. split.
    + apply strips_partition; [|assumption|assumption].
      intros px py. now apply tiles_count.
    + apply strips_partition; [|assumption|assumption].
      intros px py. unfold tiles. rewrite Htiles.
      pose proof (tiles_count (Type1.mk (Type1.Pt self) (Type1.Tt self))
                    r e h u px py Hsrc Hr He Hh Hu) as Hcount.
      cbn [Type1.Tt Type1.Pt] in Hcount. rewrite <- Hx, <- Hy in Hcount.
      exact Hcount.
Qed.

Lemma type1_pixel_permutation_witness :
  exists coords,
    Type1.calculate_coords
      (Type1.mk
         (Type1.mk_model 2 2 [Piece.mk 1 1 2 2; Piece.mk 1 0 2 1;
                              Piece.mk 0 1 1 2; Piece.mk 0 0 1 1])
         (Type1.mk_model 2 2 [Piece.mk 0 0 2 2; Piece.mk 0 2 2 1;
                              Piece.mk 2 0 1 2; Piece.mk 2 2 1 1]))
      100 70 = Ok coords
    /\ partitions coords 100 70
    /\ partitions (map swap coords) 100 70.
Proof.
  destruct (type1_pixel_permutation "2-2-AAABBABB" "2-2-aaaAAaAA"
              (Type1.mk
                 (Type1.mk_model 2 2 [Piece.mk 1 1 2 2; Piece.mk 1 0 2 1;
                                      Piece.mk 0 1 1 2; Piece.mk 0 0 1 1])
                 (Type1.mk_model 2 2 [Piece.mk 0 0 2 2; Piece.mk 0 2 2 1;
                                      Piece.mk 2 0 1 2; Piece.mk 2 2 1 1]))
              100 70 eq_refl eq_refl eq_refl)
    as (coords & Hcoords & _ & Hproper).
  - vm_compute. split; discriminate.
  - vm_compute. split; discriminate.
  - exists coords. split; [exact Hcoords|].
    apply Hproper; try reflexivity; vm_compute; discriminate.
Defined.

(* ===================================================================== *)
(** * Type 2: the table is the URL-safe Base64 alphabet *)
(* ===================================================================== *)

(** X7.  [_decode_char] is the inverse of the URL-safe Base64 alphabet
    [A-Z a-z 0-9 - _]: a character of the class decodes to its position in
    the alphabet, each value from 0 to 63 is the code of the character at
    that position, the answer is [-1] exactly for the characters outside the
    class, and a code outside the table (negative, or 128 and above) gives
    [-1] instead of an index error. *)
Theorem type2_decode_char_alphabet :
  (forall c, Type2.is_data_char c = true ->
     char_at alphabet (Type2._decode_char (Py.ord c)) = c)
  /\ (forall v, 0 <= v < 64 ->
        Type2.is_data_char (char_at alphabet v) = true
        /\ Type2._decode_char (Py.ord (char_at alphabet v)) = v)
  /\ (forall c, Type2._decode_char (Py.ord c) = -1
                <-> Type2.is_data_char c = false)
  /\ (forall n, n < 0 \/ 128 <= n -> Type2._decode_char n = -1).
Proof.
  split; [|split; [|split]].
  - intros c.
    destruct c as [[] [] [] [] [] [] [] []]; vm_compute; intros H;
      solve [reflexivity | discriminate H].
  - intros v Hv.
    assert (Hall : forallb
              (fun v => Type2.is_data_char (char_at alphabet v)
                        && (Type2._decode_char (Py.ord (char_at alphabet v))
                            =? v))
              (Py.range 64) = true) by (vm_compute; reflexivity).
    rewrite forallb_forall in Hall.
    specialize (Hall v (proj2 (in_range 64 v) Hv)).
    apply andb_true_iff in Hall as [Hclass Hcode].
    now apply Z.eqb_eq in Hcode.
  - intros c.
    destruct c as [[] [] [] [] [] [] [] []]; vm_compute; split; intros H;
      solve [reflexivity | discriminate H].
  - intros n Hn. unfold Type2._decode_char.
    change (Py.llen Type2._Jt) with 128.
    destruct (Z.leb_spec 0 n), (Z.ltb_spec n 128); cbn [andb];
      solve [reflexivity | lia].
Qed.

Lemma type2_decode_char_alphabet_witness :
  char_at alphabet (Type2._decode_char (Py.ord "_")) = "_"%char
  /\ Type2._decode_char (Py.ord (char_at alphabet 52)) = 52
  /\ Type2._decode_char 128 = -1.
Proof.
  destruct type2_decode_char_alphabet as (Hchar & Hvalue & _ & Hout).
  split; [apply (Hchar "_"%char); reflexivity|].
  split; [apply (Hvalue 52); lia|].
  apply (Hout 128). right. lia.
Defined.

(* ===================================================================== *)
(** * Type 2: what the constructor computes *)
(* ===================================================================== *)







Lemma length_section (data_str : string) (offset n : Z) :
  List.length (section data_str offset n) = Z.to_nat n.
Proof. unfold section. now rewrite length_map, length_range. Qed.

Lemma section_range (data_str : string) (offset n : Z) :
  Forall (fun c => Type2.is_data_char c = true)
         (list_ascii_of_string data_str) ->
  0 <= offset -> offset + n <= Py.len data_str ->
  Forall (fun v => 0 <= v <= 63) (section data_str offset n).
Proof.
  intros Hdata Hoff Hlen. unfold section. apply Forall_map, Forall_forall.
  intros i Hi. apply in_range in Hi. apply decode_data_char.
  rewrite Forall_forall in Hdata. apply Hdata. unfold char_at.
  apply nth_In. rewrite length_list_ascii_of_string. unfold Py.len in Hlen.
  lia.
Qed.

(** The three loops of [_parse_sub_key] on a data string of the right
    length. *)
Lemma parse_sub_key_ok (T j : Z) (data_str : string) :
  0 <= T -> 0 <= j -> Py.len data_str = T + j + T * j ->
  Type2._parse_sub_key T j data_str
  = Ok (Type2.mk_sub_key (section data_str 0 T) (section data_str T j)
                         (section data_str (T + j) (T * j))).
Proof.
  intros HT Hj Hlen. unfold Type2._parse_sub_key.
  assert (Hloop : forall offset n,
            0 <= offset -> offset + n <= Py.len data_str ->
            Py.for_each (Py.range n) (Type2.decode_at data_str offset) []
            = Ok (section data_str offset n)).
  { intros offset n Hoff Hn.
    rewrite (for_each_append _ _
               (fun i => Type2._decode_char
                           (Py.ord (char_at data_str (offset + i)))));
      [reflexivity|].
    intros i acc Hi. apply in_range in Hi. unfold Type2.decode_at.
    now rewrite str_index_in_range by lia. }
  rewrite !Hloop by nia. reflexivity.
Qed.

(** A loop that meets an iteration which raises, while the others return
    or raise the same exception, raises it. *)
Lemma for_each_raises {S : Type} (l : list Z) (body : Z -> S -> result S)
    (e : exn) :
  (forall i s, In i l -> (exists s', body i s = Ok s') \/ body i s = Raise e) ->
  (exists i, In i l /\ forall s, body i s = Raise e) ->
  forall s, Py.for_each l body s = Raise e.
Proof.
  induction l as [|i l IH]; intros Hbody (k & Hk & Hraise) s.
  - destruct Hk.
  - cbn [Py.for_each].
    destruct (Hbody i s (or_introl eq_refl)) as [[s' Hs]|Hs]; rewrite Hs;
      [|reflexivity].
    cbn [Py.bind]. destruct Hk as [->|Hk]; [rewrite Hraise in Hs; discriminate|].
    apply IH; [intros; apply Hbody; now right|now exists k].
Qed.

(** The loop that builds [kt]: it returns the composed permutation when
    every unscramble value is an index of the scramble section, and raises
    [IndexError] at the first one that is not. *)
Lemma compose_loop (s_parsed h_parsed : Type2.sub_key) (n : Z) :
  Py.llen (Type2.p_list s_parsed) = n ->
  Py.llen (Type2.p_list h_parsed) = n ->
  Forall (fun v => 0 <= v) (Type2.p_list h_parsed) ->
  (Forall (fun v => v < n) (Type2.p_list h_parsed) ->
   Py.for_each (Py.range n) (Type2.compose s_parsed h_parsed) []
   = Ok (composed (Type2.p_list s_parsed) (Type2.p_list h_parsed) n))
  /\ (Exists (fun v => n <= v) (Type2.p_list h_parsed) ->
      Py.for_each (Py.range n) (Type2.compose s_parsed h_parsed) []
      = Raise IndexError).
Proof.
  intros Hs Hh Hpos.
  assert (Hnth : forall u, 0 <= u < n ->
            0 <= nth (Z.to_nat u) (Type2.p_list h_parsed) 0
            /\ In (nth (Z.to_nat u) (Type2.p_list h_parsed) 0)
                  (Type2.p_list h_parsed)).
  { intros u Hu.
    assert (Hin : In (nth (Z.to_nat u) (Type2.p_list h_parsed) 0)
                     (Type2.p_list h_parsed))
      by (apply nth_In; unfold Py.llen in Hh; lia).
    split; [|exact Hin]. rewrite Forall_forall in Hpos. now apply Hpos. }
  assert (Hbody : forall u kt, 0 <= u < n ->
            Type2.compose s_parsed h_parsed u kt
            = if nth (Z.to_nat u) (Type2.p_list h_parsed) 0 <? n
              then Ok (kt ++ [nth (Z.to_nat (nth (Z.to_nat u)
                                               (Type2.p_list h_parsed) 0))
                                  (Type2.p_list s_parsed) 0])
              else Raise IndexError).
  { intros u kt Hu. unfold Type2.compose.
    rewrite (index_in_range _ u 0) by lia. cbn [Py.bind].
    destruct (Hnth u Hu) as [Hv _].
    destruct (Z.ltb_spec (nth (Z.to_nat u) (Type2.p_list h_parsed) 0) n).
    - now rewrite (index_in_range _ _ 0) by lia.
    - now rewrite index_too_large by lia. }
  split.
  - intros Hall. unfold composed.
    rewrite (for_each_append _ _
               (fun u => nth (Z.to_nat (nth (Z.to_nat u)
                                            (Type2.p_list h_parsed) 0))
                             (Type2.p_list s_parsed) 0)); [reflexivity|].
    intros u kt Hu. apply in_range in Hu. rewrite Hbody by assumption.
    destruct (Hnth u Hu) as [_ Hin]. rewrite Forall_forall in Hall.
    apply Hall in Hin. apply Z.ltb_lt in Hin. now rewrite Hin.
  - intros Hbad. apply for_each_raises.
    + intros u kt Hu. apply in_range in Hu. rewrite Hbody by assumption.
      destruct (_ <? n); [left; now eexists|now right].
    + apply Exists_exists in Hbad as (v & Hin & Hv).
      destruct (In_nth _ _ 0 Hin) as (k & Hk & Hnk).
      exists (Z.of_nat k). split; [apply in_range; unfold Py.llen in Hh; lia|].
      intros kt. rewrite Hbody by (unfold Py.llen in Hh; lia).
      rewrite Nat2Z.id, Hnk.
      destruct (Z.ltb_spec v n); [lia|reflexivity].
Qed.

Lemma parsed_pair_bounds (key_s key_h : string) (gs gh : Type2.groups)
    (T j D : Z) :
  parsed_pair key_s key_h gs gh T j D ->
  0 <= T <= 8 /\ 0 <= j <= 8 /\ 0 <= D /\ 0 <= T * j <= 64.
Proof.
  intros (Hs & _ & _ & _ & _ & _ & _ & HT & Hj & HD & HT8 & Hj8 & _).
  destruct (key_re_inv _ _ Hs) as (_ & _ & _ & D1 & D2 & _ & D4 & _).
  apply int_digits_nonneg in HT, Hj, HD; try assumption. nia.
Qed.

Lemma parsed_pair_sections (key_s key_h : string) (gs gh : Type2.groups)
    (T j D : Z) (offset n : Z) :
  parsed_pair key_s key_h gs gh T j D ->
  0 <= offset -> offset + n <= T + j + T * j ->
  Forall (fun v => 0 <= v <= 63) (section (Type2.group5 gs) offset n)
  /\ Forall (fun v => 0 <= v <= 63) (section (Type2.group5 gh) offset n).
Proof.
  intros (Hs & Hh & _ & _ & _ & _ & _ & _ & _ & _ & _ & _ & Hls & Hlh)
         Hoff Hn.
  destruct (key_re_inv _ _ Hs) as (_ & _ & _ & _ & _ & _ & _ & Ds).
  destruct (key_re_inv _ _ Hh) as (_ & _ & _ & _ & _ & _ & _ & Dh).
  split; apply section_range; try assumption; lia.
Qed.

(** On a pair that passes the checks, the constructor returns the parsed
    instance when every unscramble permutation value is below [T * j], and
    raises [IndexError] otherwise. *)
Lemma type2_init_parsed_pair (key_s key_h : string) (gs gh : Type2.groups)
    (T j D : Z) :
  parsed_pair key_s key_h gs gh T j D ->
  let h_perm := section (Type2.group5 gh) (T + j) (T * j) in
  (Forall (fun v => v < T * j) h_perm ->
   Type2.__init__ key_h key_s = Ok (parsed_instance gs gh T j D))
  /\ (Exists (fun v => T * j <= v) h_perm ->
      Type2.__init__ key_h key_s = Raise IndexError).
Proof.
  intros Hpair h_perm.
  destruct (parsed_pair_bounds _ _ _ _ _ _ _ Hpair) as (HT & Hj & HD & HN).
  destruct (parsed_pair_sections _ _ _ _ _ _ _ (T + j) (T * j) Hpair)
    as [_ Hrange]; [lia|lia|].
  destruct Hpair as (Hs & Hh & H1 & H2 & H4 & H3s & H3h & HiT & Hij & HiD
                     & _ & _ & Hls & Hlh).
  assert (Hinit : Type2.__init__ key_h key_s
            = (kt <- Py.for_each (Py.range (T * j))
                       (Type2.compose
                          (Type2.mk_sub_key
                             (section (Type2.group5 gs) 0 T)
                             (section (Type2.group5 gs) T j)
                             (section (Type2.group5 gs) (T + j) (T * j)))
                          (Type2.mk_sub_key
                             (section (Type2.group5 gh) 0 T)
                             (section (Type2.group5 gh) T j)
                             (section (Type2.group5 gh) (T + j) (T * j))))
                       [] ;;
               Ok (Type2.mk (Some kt) T j D
                     (section (Type2.group5 gs) T j)
                     (section (Type2.group5 gs) 0 T)
                     (section (Type2.group5 gh) T j)
                     (section (Type2.group5 gh) 0 T)))).
  { unfold Type2.__init__, Type2._parse_keys. rewrite Hs, Hh.
    rewrite H1, H2, H4, H3s, H3h, !String.eqb_refl, !Ascii.eqb_refl.
    cbn [negb orb]. rewrite <- H1, <- H2, <- H4, HiT, Hij, HiD.
    cbn [Py.bind].
    replace ((T >? 8) || (j >? 8) || (T * j >? 64)) with false
      by (symmetry; rewrite !orb_false_iff, !Z.gtb_ltb, !Z.ltb_ge; lia).
    rewrite Hls, Hlh, Z.eqb_refl. cbn [negb orb].
    rewrite !parse_sub_key_ok by (assumption || lia). cbn [Py.bind].
    reflexivity. }
  rewrite Hinit.
  match goal with
  | |- context [Type2.compose ?s ?h] =>
      destruct (compose_loop s h (T * j)) as [Hok Hraise]
  end; cbn [Type2.p_list].
  - unfold Py.llen. rewrite length_section. lia.
  - unfold Py.llen. rewrite length_section. lia.
  - eapply Forall_impl; [|exact Hrange]. cbv beta. intros; lia.
  - cbn [Type2.p_list] in Hok, Hraise. split; intros Hcase.
    + now rewrite Hok.
    + now rewrite Hraise.
Qed.

(** X8.  For a pair of keys that passes the checks of [_parse_keys], the
    constructor raises, and then [IndexError], exactly when some value of the
    unscramble key's permutation section is [T * j] or more; otherwise it
    returns the instance whose [kt] sends [u] to the scramble value at the
    unscramble value of [u], with the adjustment vectors read from the first
    [T + j] characters of each data group.  The scramble key's permutation
    values are not checked. *)
Theorem type2_constructor_outcome (key_s key_h : string)
    (gs gh : Type2.groups) (T j D : Z) :
  parsed_pair key_s key_h gs gh T j D ->
  let s_perm := section (Type2.group5 gs) (T + j) (T * j) in
  let h_perm := section (Type2.group5 gh) (T + j) (T * j) in
  ((exists e, Type2.__init__ key_h key_s = Raise e)
   <-> Exists (fun v => T * j <= v) h_perm)
  /\ (Exists (fun v => T * j <= v) h_perm ->
      Type2.__init__ key_h key_s = Raise IndexError)
  /\ (Forall (fun v => v < T * j) h_perm ->
      Type2.__init__ key_h key_s
      = Ok (Type2.mk (Some (composed s_perm h_perm (T * j))) T j D
              (section (Type2.group5 gs) T j) (section (Type2.group5 gs) 0 T)
              (section (Type2.group5 gh) T j) (section (Type2.group5 gh) 0 T))).
Proof.
  intros Hpair s_perm h_perm.
  destruct (type2_init_parsed_pair _ _ _ _ _ _ _ Hpair) as [Hok Hraise].
  fold h_perm in Hok, Hraise.
  split; [|split; assumption].
  split.
  - intros [e He].
    destruct (Forall_Exists_dec (fun v => v < T * j)
                (fun v => Z_lt_dec v (T * j)) h_perm) as [Hall|Hex].
    + rewrite (Hok Hall) in He. discriminate.
    + eapply Exists_impl; [|exact Hex]. cbv beta. intros; lia.
  - intros Hex. exists IndexError. now apply Hraise.
Qed.

Lemma type2_constructor_outcome_witness :
  Type2.__init__ "=1-2-0-AAABA" "=1-2+0-ABCDE"
  = Ok (Type2.mk (Some [4; 3]) 1 2 0 [1; 2] [0] [0; 0] [0])
  /\ Type2.__init__ "=1-2-0-AAACA" "=1-2+0-ABCDE" = Raise IndexError.
Proof.
  assert (Hgood : parsed_pair "=1-2+0-ABCDE" "=1-2-0-AAABA"
                    (Type2.mk_groups "1" "2" "+" "0" "ABCDE")
                    (Type2.mk_groups "1" "2" "-" "0" "AAABA") 1 2 0)
    by (repeat split; simpl; lia).
  assert (Hbad : parsed_pair "=1-2+0-ABCDE" "=1-2-0-AAACA"
                   (Type2.mk_groups "1" "2" "+" "0" "ABCDE")
                   (Type2.mk_groups "1" "2" "-" "0" "AAACA") 1 2 0)
    by (repeat split; simpl; lia).
  split.
  - apply (proj2 (proj2 (type2_constructor_outcome _ _ _ _ _ _ _ Hgood))).
    repeat constructor.
  - apply (proj1 (proj2 (type2_constructor_outcome _ _ _ _ _ _ _ Hbad))).
    apply Exists_cons_hd. vm_compute. discriminate.
Defined.

(* ===================================================================== *)
(** * Type 2: permutations *)
(* ===================================================================== *)






(* ===================================================================== *)
(** * Type 2: the early returns, and the order of the keys *)
(* ===================================================================== *)

Lemma kt_none_identity (self : Type2.t) :
  Type2.kt self = None ->
  forall image_width image_height,
    Type2.calculate_coords self image_width image_height
    = Ok [Rect.mk 0 0 image_width image_height 0 0].
Proof.
  intros Hkt image_width image_height. apply not_kt_identity.
  unfold Type2.not_kt. now rewrite Hkt.
Qed.



(** X11.  The order of the two keys matters: when the constructor, given
    the keys in one order, gets past the checks (it returns an engine with a
    permutation, or raises), then given the same keys in the other order it
    returns the engine without permutation. *)
Theorem type2_keys_exchanged (key_h key_s : string) :
  (exists self kt,
     Type2.__init__ key_h key_s = Ok self /\ Type2.kt self = Some kt)
  \/ (exists e, Type2.__init__ key_h key_s = Raise e) ->
  Type2.__init__ key_s key_h = Ok blank.
Proof.
  intros Hpast.
  assert (Hsigns : exists gs gh,
            Type2.key_re key_s = Some gs /\ Type2.key_re key_h = Some gh
            /\ Type2.group3 gh = "-"%char).
  { unfold Type2.__init__, Type2._parse_keys in Hpast.
    destruct (Type2.key_re key_s) as [gs|];
      [|destruct Hpast as [(self & kt & [= <-] & Hkt)|[e He]]; discriminate].
    destruct (Type2.key_re key_h) as [gh|];
      [|destruct Hpast as [(self & kt & [= <-] & Hkt)|[e He]]; discriminate].
    exists gs, gh. split; [reflexivity|]. split; [reflexivity|].
    destruct (Ascii.eqb (Type2.group3 gh) "-") eqn:H3;
      [now apply Ascii.eqb_eq in H3|].
    rewrite ?orb_true_r in Hpast. cbn [negb] in Hpast.
    rewrite ?orb_true_r in Hpast.
    destruct Hpast as [(self & kt & [= <-] & Hkt)|[e He]]; discriminate. }
  destruct Hsigns as (gs & gh & Hs & Hh & H3).
  unfold Type2.__init__, Type2._parse_keys. rewrite Hh, Hs, H3.
  cbn [Ascii.eqb negb]. now rewrite !orb_true_r.
Qed.

Lemma type2_keys_exchanged_witness :
  Type2.__init__ "=2-2+1-BAABABCD" "=2-2-1-ABBADCBA" = Ok blank.
Proof.
  apply type2_keys_exchanged. left.
  exists (Type2.mk (Some [3; 2; 1; 0]) 2 2 1 [0; 1] [1; 0] [1; 0] [0; 1]),
         [3; 2; 1; 0].
  split; reflexivity.
Defined.

(* ===================================================================== *)
(** * Type 2: engines with a permutation *)
(* ===================================================================== *)

(** An engine the constructor returns with a permutation comes from a pair
    that passes the checks, and is the parsed instance of that pair. *)
Lemma type2_init_inv (key_h key_s : string) (self : Type2.t) (kt : list Z) :
  Type2.__init__ key_h key_s = Ok self -> Type2.kt self = Some kt ->
  exists gs gh,
    parsed_pair key_s key_h gs gh (Type2.T self) (Type2.j self) (Type2.Dt self)
    /\ self = parsed_instance gs gh (Type2.T self) (Type2.j self)
                (Type2.Dt self)
    /\ Forall (fun v => v < Type2.T self * Type2.j self)
              (section (Type2.group5 gh) (Type2.T self + Type2.j self)
                       (Type2.T self * Type2.j self)).
Proof.
  intros Hinit Hkt. pose proof Hinit as Hkeep.
  unfold Type2.__init__, Type2._parse_keys in Hinit.
  destruct (Type2.key_re key_s) as [gs|] eqn:Hs;
    [|injection Hinit as <-; discriminate].
  destruct (Type2.key_re key_h) as [gh|] eqn:Hh;
    [|injection Hinit as <-; discriminate].
  match type of Hinit with
  | (if ?c then _ else _) = _ =>
      destruct c eqn:Hstruct; [injection Hinit as <-; discriminate|]
  end.
  rewrite !orb_false_iff, !negb_false_iff in Hstruct.
  destruct Hstruct as [[[[H1 H2] H4] H3s] H3h].
  apply String.eqb_eq in H1, H2, H4. apply Ascii.eqb_eq in H3s, H3h.
  destruct (Py.int (Type2.group1 gs)) as [T|] eqn:HT; [|discriminate].
  cbn [Py.bind] in Hinit.
  destruct (Py.int (Type2.group2 gs)) as [j|] eqn:Hj; [|discriminate].
  cbn [Py.bind] in Hinit.
  destruct (Py.int (Type2.group4 gs)) as [D|] eqn:HD; [|discriminate].
  cbn [Py.bind] in Hinit.
  destruct ((T >? 8) || (j >? 8) || (T * j >? 64)) eqn:Hsize;
    [injection Hinit as <-; discriminate|].
  rewrite !orb_false_iff, !Z.gtb_ltb, !Z.ltb_ge in Hsize.
  match type of Hinit with
  | (if ?c then _ else _) = _ =>
      destruct c eqn:Hlen; [injection Hinit as <-; discriminate|]
  end.
  rewrite !orb_false_iff, !negb_false_iff, !Z.eqb_eq in Hlen.
  assert (Hpair : parsed_pair key_s key_h gs gh T j D)
    by (unfold parsed_pair; intuition).
  destruct (type2_init_parsed_pair _ _ _ _ _ _ _ Hpair) as [Hok Hraise].
  destruct (Forall_Exists_dec (fun v => v < T * j)
              (fun v => Z_lt_dec v (T * j))
              (section (Type2.group5 gh) (T + j) (T * j))) as [Hall|Hex].
  - rewrite (Hok Hall) in Hkeep. injection Hkeep as <-.
    cbn [Type2.T Type2.j Type2.Dt parsed_instance]. now exists gs, gh.
  - rewrite Hraise in Hkeep; [discriminate|].
    eapply Exists_impl; [|exact Hex]. cbv beta. intros; lia.
Qed.

(** What holds of every engine the constructor returns with a
    permutation. *)
Lemma type2_engine_facts (key_h key_s : string) (self : Type2.t)
    (kt : list Z) :
  Type2.__init__ key_h key_s = Ok self -> Type2.kt self = Some kt ->
  0 <= Type2.T self <= 8 /\ 0 <= Type2.j self <= 8 /\ 0 <= Type2.Dt self
  /\ Py.llen kt = Type2.T self * Type2.j self
  /\ Forall (fun v => 0 <= v <= 63) kt
  /\ Py.llen (Type2.Rt self) = Type2.j self
  /\ Py.llen (Type2.Ft self) = Type2.T self
  /\ Py.llen (Type2.Lt self) = Type2.j self
  /\ Py.llen (Type2.Nt self) = Type2.T self
  /\ Forall (fun v => 0 <= v <= 63) (Type2.Lt self)
  /\ Forall (fun v => 0 <= v <= 63) (Type2.Nt self).
Proof.
  intros Hinit Hkt.
  destruct (type2_init_inv _ _ _ _ Hinit Hkt) as (gs & gh & Hpair & Hself & Hall).
  destruct (parsed_pair_bounds _ _ _ _ _ _ _ Hpair) as (HT & Hj & HD & HN).
  set (T := Type2.T self) in *. set (j := Type2.j self) in *.
  set (D := Type2.Dt self) in *.
  assert (Hsec : forall offset n, 0 <= offset -> 0 <= n ->
            offset + n <= T + j + T * j ->
            (Forall (fun v => 0 <= v <= 63) (section (Type2.group5 gs) offset n)
             /\ Py.llen (section (Type2.group5 gs) offset n) = n)
            /\ (Forall (fun v => 0 <= v <= 63)
                       (section (Type2.group5 gh) offset n)
                /\ Py.llen (section (Type2.group5 gh) offset n) = n)).
  { intros offset n Hoff Hn Hle.
    destruct (parsed_pair_sections _ _ _ _ _ _ _ offset n Hpair Hoff Hle).
    unfold Py.llen. rewrite !length_section. repeat split; try assumption; lia. }
  destruct (Hsec 0 T) as [[_ HlFt] [HNt HlNt]]; try lia.
  destruct (Hsec T j) as [[_ HlRt] [HLt HlLt]]; try lia.
  destruct (Hsec (T + j) (T * j)) as [[Hsp Hlsp] [Hhp Hlhp]]; try lia.
  rewrite Hself in Hkt. cbn [Type2.kt parsed_instance] in Hkt.
  injection Hkt as <-.
  assert (HRt : Type2.Rt self = section (Type2.group5 gs) T j)
    by now rewrite Hself.
  assert (HFt : Type2.Ft self = section (Type2.group5 gs) 0 T)
    by now rewrite Hself.
  assert (HLt' : Type2.Lt self = section (Type2.group5 gh) T j)
    by now rewrite Hself.
  assert (HNt' : Type2.Nt self = section (Type2.group5 gh) 0 T)
    by now rewrite Hself.
  rewrite HRt, HFt, HLt', HNt'.
  repeat split; try assumption; try lia.
  - unfold Py.llen, composed. rewrite length_map, length_range. lia.
  - unfold composed. apply Forall_map, Forall_forall. intros u Hu.
    apply in_range in Hu. rewrite Forall_forall in Hsp, Hhp, Hall.
    assert (Hin : In (nth (Z.to_nat u) (section (Type2.group5 gh) (T + j) (T * j)) 0)
                     (section (Type2.group5 gh) (T + j) (T * j)))
      by (apply nth_In; unfold Py.llen in Hlhp; lia).
    pose proof (Hhp _ Hin). pose proof (Hall _ Hin).
    apply Hsp, nth_In. unfold Py.llen in Hlsp. lia.
Qed.

(** One iteration of the loop of [calculate_coords] on such an engine: the
    only lookup that can leave its list is [Rt[d]], when [kt[o]] is [T * j]
    or more. *)
Lemma type2_tile_rect_cases (key_h key_s : string) (self : Type2.t)
    (kt : list Z) (i n r e s h o : Z) (u : list Rect.t) :
  Type2.__init__ key_h key_s = Ok self -> Type2.kt self = Some kt ->
  0 <= o < Type2.T self * Type2.j self ->
  Type2.tile_rect self kt i n r e s h o u
  = if nth (Z.to_nat o) kt 0 <? Type2.T self * Type2.j self
    then Ok (if (i >? 0) && (n >? 0) then u ++ [tile2 self kt r e s h o]
             else u)
    else Raise IndexError.
Proof.
  intros Hinit Hkt Ho.
  destruct (type2_engine_facts _ _ _ _ Hinit Hkt)
    as (HT & Hj & HD & Hlen & Hrange & HRt & HFt & HLt & HNt & _ & _).
  assert (HT0 : 0 < Type2.T self) by nia.
  destruct (flat_index_split _ _ _ HT0 Ho) as [Hcol Hrow].
  assert (Htarget : 0 <= nth (Z.to_nat o) kt 0 <= 63).
  { rewrite Forall_forall in Hrange. apply Hrange, nth_In.
    unfold Py.llen in Hlen. lia. }
  assert (H64 : Type2.T self * Type2.j self <= 64) by nia.
  unfold Type2.tile_rect.
  rewrite modulo_pos, floor_div_pos by lia. cbn [Py.bind].
  rewrite (index_in_range _ _ 0) by lia. cbn [Py.bind].
  rewrite (index_in_range _ _ 0) by lia. cbn [Py.bind].
  rewrite (index_in_range kt o 0) by lia. cbn [Py.bind].
  rewrite modulo_pos, floor_div_pos by lia. cbn [Py.bind].
  destruct (Z.ltb_spec (nth (Z.to_nat o) kt 0) (Type2.T self * Type2.j self))
    as [Hin|Hout].
  - destruct (flat_index_split (Type2.T self) (Type2.j self)
                (nth (Z.to_nat o) kt 0) HT0) as [Hdcol Hdrow]; [lia|].
    rewrite (index_in_range _ _ 0) by lia. cbn [Py.bind].
    rewrite (index_in_range _ _ 0) by lia. cbn [Py.bind].
    unfold tile2. now destruct ((i >? 0) && (n >? 0)).
  - rewrite index_too_large; [reflexivity|]. rewrite HRt.
    apply Z.div_le_lower_bound; lia.
Qed.

(** X12.  On an engine the constructor returns, and for image sizes that
    leave an interior [i] by [n] below 2^1022 in absolute value (the two
    quotients then fit a binary64 number), [calculate_coords] raises exactly
    when the engine holds a permutation with a value of [T * j] or more,
    degenerate sizes included; the exception is [IndexError], never a
    division by zero. *)
Theorem type2_calculate_coords_raises (key_h key_s : string) (self : Type2.t)
    (image_width image_height : Z) :
  Type2.__init__ key_h key_s = Ok self ->
  Z.abs (image_width - 2 * Type2.T self * Type2.Dt self) < 2 ^ 1022 ->
  Z.abs (image_height - 2 * Type2.j self * Type2.Dt self) < 2 ^ 1022 ->
  ((exists e, Type2.calculate_coords self image_width image_height = Raise e)
   <-> exists kt, Type2.kt self = Some kt
                  /\ Exists (fun v => Type2.T self * Type2.j self <= v) kt)
  /\ (forall e, Type2.calculate_coords self image_width image_height = Raise e
                -> e = IndexError).
Proof.
  intros Hinit Hi Hn.
  destruct (Type2.kt self) as [kt|] eqn:Hkt.
  2:{ rewrite (kt_none_identity self Hkt). split; [|discriminate].
      split; [intros [e He]; discriminate|intros (kt & Hk & _); discriminate]. }
  destruct kt as [|v l].
  { rewrite not_kt_identity by (unfold Type2.not_kt; now rewrite Hkt).
    split; [|discriminate].
    split; [intros [e He]; discriminate|].
    intros (kt & [= <-] & Hex). inversion Hex. }
  destruct (type2_engine_facts _ _ _ _ Hinit Hkt)
    as (HT & Hj & HD & Hlen & Hrange & _).
  assert (HN : 0 < Type2.T self * Type2.j self)
    by (unfold Py.llen in Hlen; simpl List.length in Hlen; lia).
  assert (HT0 : 0 < Type2.T self) by nia.
  assert (Hj0 : 0 < Type2.j self) by nia.
  destruct (floor_div_base_defined _ (Type2.T self) ltac:(lia) Hi)
    as [r Hr].
  destruct (floor_div_base_defined _ (Type2.j self) ltac:(lia) Hn)
    as [s Hs].
  assert (Hcalc : Type2.calculate_coords self image_width image_height
            = Py.for_each (Py.range (Type2.T self * Type2.j self))
                (Type2.tile_rect self (v :: l)
                   (image_width - 2 * Type2.T self * Type2.Dt self)
                   (image_height - 2 * Type2.j self * Type2.Dt self)
                   r
                   (image_width - 2 * Type2.T self * Type2.Dt self
                    - (Type2.T self - 1) * r)
                   s
                   (image_height - 2 * Type2.j self * Type2.Dt self
                    - (Type2.j self - 1) * s)) []).
  { unfold Type2.calculate_coords. now rewrite Hkt, Hr, Hs. }
  destruct (Forall_Exists_dec (fun x => x < Type2.T self * Type2.j self)
              (fun x => Z_lt_dec x (Type2.T self * Type2.j self)) (v :: l))
    as [Hall|Hex].
  - assert (Hok : exists coords,
              Type2.calculate_coords self image_width image_height = Ok coords).
    { rewrite Hcalc.
      match goal with
      | |- context [Py.for_each ?rg (Type2.tile_rect ?a ?b ?i ?n ?r ?e ?s ?h)] =>
          destruct ((i >? 0) && (n >? 0)) eqn:Hdim;
          [exists (map (tile2 a b r e s h) rg);
           rewrite (for_each_append _ _ (tile2 a b r e s h)); [reflexivity|]
          |exists []; apply for_each_skip];
          intros o acc Ho; apply in_range in Ho;
          rewrite (type2_tile_rect_cases key_h key_s) by assumption;
          rewrite Hdim;
          (replace (nth (Z.to_nat o) b 0 <? Type2.T self * Type2.j self)
             with true; [reflexivity|]);
          symmetry; apply Z.ltb_lt;
          rewrite Forall_forall in Hall; apply Hall, nth_In;
          unfold Py.llen in Hlen; lia
      end. }
    destruct Hok as [coords Hok]. rewrite Hok. split; [|discriminate].
    split; [intros [e He]; discriminate|].
    intros (kt & [= <-] & Hex). exfalso.
    apply Exists_exists in Hex as (x & Hx & Hbad).
    rewrite Forall_forall in Hall. specialize (Hall x Hx). lia.
  - assert (Hraise : Type2.calculate_coords self image_width image_height
                     = Raise IndexError).
    { rewrite Hcalc. apply for_each_raises.
      - intros o acc Ho. apply in_range in Ho.
        rewrite (type2_tile_rect_cases key_h key_s) by assumption.
        destruct (_ <? _); [left; now eexists|now right].
      - apply Exists_exists in Hex as (x & Hx & Hbad).
        destruct (In_nth _ _ 0 Hx) as (k & Hk & Hnk).
        exists (Z.of_nat k).
        split; [apply in_range; unfold Py.llen in Hlen; lia|].
        intros acc.
        rewrite (type2_tile_rect_cases key_h key_s)
          by (assumption || (unfold Py.llen in Hlen; lia)).
        rewrite Nat2Z.id, Hnk.
        destruct (Z.ltb_spec x (Type2.T self * Type2.j self));
          [contradiction|reflexivity]. }
    rewrite Hraise. split; [|now intros e [= <-]].
    split; [intros _|intros _; now exists IndexError].
    exists (v :: l). split; [reflexivity|].
    eapply Exists_impl; [|exact Hex]. cbv beta. intros; lia.
Qed.

Lemma type2_calculate_coords_raises_witness :
  exists e,
    Type2.calculate_coords
      (Type2.mk (Some [4; 3]) 1 2 0 [1; 2] [0] [0; 0] [0]) (-5) 0 = Raise e.
Proof.
  apply (proj1 (type2_calculate_coords_raises
                  "=1-2-0-AAABA" "=1-2+0-ABCDE"
                  (Type2.mk (Some [4; 3]) 1 2 0 [1; 2] [0] [0; 0] [0])
                  (-5) 0 eq_refl eq_refl eq_refl)).
  exists [4; 3]. split; [reflexivity|].
  apply Exists_cons_hd. simpl. lia.
Defined.


(* ===================================================================== *)
(** * Type 2: the rectangles of a constructed engine *)
(* ===================================================================== *)

(** An engine with a non-empty permutation whose values are in range is a
    valid model of at most 8 by 8 tiles, and its vectors are the sections of
    the two data groups: [Lt] and [Nt] come from the unscramble key [key_h],
    [Rt] and [Ft] from the scramble key [key_s]. *)
Lemma type2_engine_model (key_h key_s : string) (self : Type2.t)
    (kt : list Z) :
  Type2.__init__ key_h key_s = Ok self ->
  Type2.kt self = Some kt -> Type2.not_kt self = false ->
  Forall (fun v => 0 <= v < Type2.T self * Type2.j self) kt ->
  valid_model self = true
  /\ 0 < Type2.T self <= 8 /\ 0 < Type2.j self <= 8
  /\ exists gs gh,
       Type2.key_re key_s = Some gs /\ Type2.key_re key_h = Some gh
       /\ Type2.group3 gs = "+"%char /\ Type2.group3 gh = "-"%char
       /\ Type2.Lt self = section (Type2.group5 gh) (Type2.T self) (Type2.j self)
       /\ Type2.Nt self = section (Type2.group5 gh) 0 (Type2.T self)
       /\ Type2.Rt self = section (Type2.group5 gs) (Type2.T self) (Type2.j self)
       /\ Type2.Ft self = section (Type2.group5 gs) 0 (Type2.T self).
Proof.
  intros Hinit Hkt Hnot Hrange.
  assert (Hvalid : valid_model self = true).
  { apply (type2_init_valid key_h key_s self Hinit Hnot).
    intros kt' Hkt'. rewrite Hkt in Hkt'. now injection Hkt' as <-. }
  destruct (valid_model_inv _ Hvalid)
    as (_ & _ & _ & _ & _ & _ & _ & _ & _ & HT & Hj).
  destruct (type2_engine_facts _ _ _ _ Hinit Hkt) as (HT8 & Hj8 & _).
  destruct (type2_init_inv _ _ _ _ Hinit Hkt)
    as (gs & gh & Hpair & Hself & _).
  split; [exact Hvalid|]. split; [lia|]. split; [lia|].
  exists gs, gh.
  destruct Hpair as (Hs & Hh & _ & _ & _ & Hplus & Hminus & _).
  repeat split; try assumption; now rewrite Hself at 1.
Qed.

(** An engine whose grid has no tile holds the empty permutation, which
    [calculate_coords] takes for a missing one; and the quotient that gives
    a base size goes through a binary64 number: it does not fit one for a
    width of 10^400. *)
Lemma type2_degenerate_not_empty :
  (exists self,
     Type2.__init__ "=0-3-1-AAA" "=0-3+1-AAA" = Ok self
     /\ Type2.kt self = Some []
     /\ 0 - 2 * Type2.j self * Type2.Dt self <= 0
     /\ Type2.calculate_coords self 10 0 = Ok [Rect.mk 0 0 10 0 0 0])
  /\ (exists self,
        Type2.__init__ "=2-2-1-ABBADCBA" "=2-2+1-BAABABCD" = Ok self
        /\ valid_model self = true
        /\ 0 - 2 * Type2.j self * Type2.Dt self <= 0
        /\ Type2.calculate_coords self (10 ^ 400) 0 = Raise OverflowError).
Proof.
  split; eexists; (split; [vm_compute; reflexivity|]).
  - split; [reflexivity|]. split; [vm_compute; discriminate|].
    vm_compute. reflexivity.
  - split; [reflexivity|]. split; [vm_compute; discriminate|].
    vm_compute. reflexivity.
Qed.

(** C9, as the code has it.  For an engine built by the constructor that
    holds a non-empty permutation ([self.kt] is truthy, so the grid has at
    least one tile) with every value in [[0, T * j)], and for dimensions
    whose interior [i = width - 2 T D] by [n = height - 2 j D] stays below
    2^1022 in absolute value, an interior with [i <= 0] or [n <= 0] gives
    the empty list, and nothing is raised. *)
Theorem type2_degenerate_dimensions
    (key_h key_s : string) (self : Type2.t) (image_width image_height : Z) :
  Type2.__init__ key_h key_s = Ok self ->
  Type2.not_kt self = false ->
  (forall kt, Type2.kt self = Some kt ->
     Forall (fun v => 0 <= v < Type2.T self * Type2.j self) kt) ->
  Z.abs (image_width - 2 * Type2.T self * Type2.Dt self) < 2 ^ 1022 ->
  Z.abs (image_height - 2 * Type2.j self * Type2.Dt self) < 2 ^ 1022 ->
  image_width - 2 * Type2.T self * Type2.Dt self <= 0
  \/ image_height - 2 * Type2.j self * Type2.Dt self <= 0 ->
  Type2.calculate_coords self image_width image_height = Ok [].
Proof.
  intros Hinit Hnot Hrange Hi Hn Hdeg.
  destruct (Type2.kt self) as [kt|] eqn:Hkt;
    [|unfold Type2.not_kt in Hnot; rewrite Hkt in Hnot; discriminate].
  destruct (type2_engine_model _ _ _ _ Hinit Hkt Hnot (Hrange kt eq_refl))
    as (Hvalid & HT & Hj & _).
  apply type2_degenerate_valid; try assumption; lia.
Qed.

Lemma type2_degenerate_dimensions_witness :
  exists self,
    Type2.__init__ "=2-2-1-ABBADCBA" "=2-2+1-BAABABCD" = Ok self
    /\ Type2.calculate_coords self 4 23 = Ok []
    /\ Type2.calculate_coords self 21 (-3) = Ok [].
Proof.
  exists (Type2.mk (Some [3; 2; 1; 0]) 2 2 1 [0; 1] [1; 0] [1; 0] [0; 1]).
  split; [reflexivity|]. split.
  - apply (type2_degenerate_dimensions "=2-2-1-ABBADCBA" "=2-2+1-BAABABCD");
      [reflexivity|reflexivity| |reflexivity|reflexivity|left; simpl; lia].
    intros kt [= <-]. repeat constructor; simpl; lia.
  - apply (type2_degenerate_dimensions "=2-2-1-ABBADCBA" "=2-2+1-BAABABCD");
      [reflexivity|reflexivity| |reflexivity|reflexivity|right; simpl; lia].
    intros kt [= <-]. repeat constructor; simpl; lia.
Defined.

(** An engine whose grid has no tile returns the one-to-one rectangle, not
    [T * j = 0] rectangles; and on a width of 10^18 + 5 the quotient
    [(i + T - 1) / T] is rounded before the floor is taken, so the code
    works with the base 500000000000000000 where the floor of the exact
    quotient is 500000000000000001. *)
Lemma type2_tiles_formula_fails :
  (exists self,
     Type2.__init__ "=0-3-1-AAA" "=0-3+1-AAA" = Ok self
     /\ Type2.kt self = Some []
     /\ Type2.T self * Type2.j self = 0
     /\ 0 < 10 - 2 * Type2.T self * Type2.Dt self
     /\ 0 < 10 - 2 * Type2.j self * Type2.Dt self
     /\ Type2.calculate_coords self 10 10 = Ok [Rect.mk 0 0 10 10 0 0])
  /\ (exists self kt coords,
        Type2.__init__ "=2-2-1-ABBADCBA" "=2-2+1-BAABABCD" = Ok self
        /\ Type2.kt self = Some kt
        /\ valid_model self = true
        /\ Type2.calculate_coords self (10 ^ 18 + 5) 23 = Ok coords
        /\ map Rect.width coords
           = [500000000000000000; 500000000000000001;
              500000000000000001; 500000000000000000]
        /\ (10 ^ 18 + 5 - 2 * 2 * 1 + 2 - 1) / 2 = 500000000000000001
        /\ map Rect.width
               (map (tile2 self kt 500000000000000001 500000000000000000
                           10 9) (Py.range 4))
           = [500000000000000001; 500000000000000000;
              500000000000000000; 500000000000000001]).
Proof.
  split.
  - eexists. split; [vm_compute; reflexivity|].
    repeat split; vm_compute; reflexivity.
  - eexists. eexists. eexists. split; [vm_compute; reflexivity|].
    split; [reflexivity|].
    split; [reflexivity|].
    split; [vm_compute; reflexivity|].
    repeat split; vm_compute; reflexivity.
Qed.

(** C4, as the code has it.  For an engine built by the constructor from
    the unscramble key [key_h] and the scramble key [key_s], that holds a
    non-empty permutation [kt] with every value in [[0, T * j)], and with
    [0 < i = width - 2 T D < 2^51] and [0 < n = height - 2 j D < 2^51],
    [calculate_coords] returns exactly [T * j] rectangles, the one of the
    flat index [o] at position [o], and nothing else.  With
    [r = floor((i + T - 1) / T)], [e = i - (T - 1) r],
    [s = floor((n + j - 1) / j)], [h = n - (j - 1) s], [col = o % T] and
    [row = floor(o / T)]: the source origin is
    [D + col (r + 2 D) + (e - r if Lt[row] < col)] and
    [D + row (s + 2 D) + (h - s if Nt[col] < row)], with [Lt] and [Nt] the
    unscramble key's vectors of lengths [j] and [T]; the destination origin
    goes through [kt[o]] and the scramble key's vectors [Rt] and [Ft],
    without the border; the width is [e] exactly when [Lt[row] = col] (else
    [r]) and the height [h] exactly when [Nt[col] = row] (else [s]). *)
Theorem type2_calculate_coords_tiles
    (key_h key_s : string) (self : Type2.t) (kt : list Z)
    (image_width image_height : Z) :
  Type2.__init__ key_h key_s = Ok self ->
  Type2.kt self = Some kt -> Type2.not_kt self = false ->
  Forall (fun v => 0 <= v < Type2.T self * Type2.j self) kt ->
  let T := Type2.T self in
  let j := Type2.j self in
  let D := Type2.Dt self in
  let i := image_width - 2 * T * D in
  let n := image_height - 2 * j * D in
  0 < i < 2 ^ 51 -> 0 < n < 2 ^ 51 ->
  let r := (i + T - 1) / T in
  let e := i - (T - 1) * r in
  let s := (n + j - 1) / j in
  let h := n - (j - 1) * s in
  exists coords gs gh,
    Type2.calculate_coords self image_width image_height = Ok coords
    /\ Py.llen coords = T * j
    /\ Type2.key_re key_s = Some gs /\ Type2.group3 gs = "+"%char
    /\ Type2.key_re key_h = Some gh /\ Type2.group3 gh = "-"%char
    /\ Type2.Lt self = section (Type2.group5 gh) T j
    /\ Type2.Nt self = section (Type2.group5 gh) 0 T
    /\ Type2.Rt self = section (Type2.group5 gs) T j
    /\ Type2.Ft self = section (Type2.group5 gs) 0 T
    /\ Py.llen (Type2.Lt self) = j /\ Py.llen (Type2.Nt self) = T
    /\ Py.llen (Type2.Rt self) = j /\ Py.llen (Type2.Ft self) = T
    /\ coords
       = map (fun o =>
                let col := o mod T in
                let row := o / T in
                let target := nth (Z.to_nat o) kt 0 in
                let dcol := target mod T in
                let drow := target / T in
                let Lt_row := nth (Z.to_nat row) (Type2.Lt self) 0 in
                let Nt_col := nth (Z.to_nat col) (Type2.Nt self) 0 in
                let Rt_drow := nth (Z.to_nat drow) (Type2.Rt self) 0 in
                let Ft_dcol := nth (Z.to_nat dcol) (Type2.Ft self) 0 in
                Rect.mk
                  (D + col * (r + 2 * D) + (if Lt_row <? col then e - r else 0))
                  (D + row * (s + 2 * D) + (if Nt_col <? row then h - s else 0))
                  (if Lt_row =? col then e else r)
                  (if Nt_col =? row then h else s)
                  (dcol * r + (if Rt_drow <? dcol then e - r else 0))
                  (drow * s + (if Ft_dcol <? drow then h - s else 0)))
             (Py.range (T * j)).
Proof.
  intros Hinit Hkt Hnot Hrange T j D i n Hi Hn r e s h.
  destruct (type2_engine_model _ _ _ _ Hinit Hkt Hnot Hrange)
    as (Hvalid & HT & Hj & gs & gh & Hs & Hh & Hplus & Hminus
        & HLt & HNt & HRt & HFt).
  destruct (valid_model_inv _ Hvalid)
    as (_ & _ & _ & _ & _ & HlRt & HlFt & HlLt & HlNt & _ & _).
  eexists. exists gs, gh. split; [|split].
  - apply (type2_calculate_coords_eq self kt image_width image_height);
      try assumption; lia.
  - unfold Py.llen. rewrite length_map, length_range.
    fold T j in HT, Hj. nia.
  - now repeat split.
Qed.

Lemma type2_calculate_coords_tiles_witness :
  exists self coords,
    Type2.__init__ "=2-2-1-ABBADCBA" "=2-2+1-BAABABCD" = Ok self
    /\ Type2.calculate_coords self 21 23 = Ok coords
    /\ coords = [Rect.mk 1 1 9 9 9 9; Rect.mk 12 1 8 10 0 10;
                 Rect.mk 1 12 8 10 8 0; Rect.mk 11 13 9 9 0 0].
Proof.
  destruct (type2_calculate_coords_tiles
              "=2-2-1-ABBADCBA" "=2-2+1-BAABABCD"
              (Type2.mk (Some [3; 2; 1; 0]) 2 2 1 [0; 1] [1; 0] [1; 0] [0; 1])
              [3; 2; 1; 0] 21 23 eq_refl eq_refl eq_refl)
    as (coords & gs & gh & Hcoords
        & _ & _ & _ & _ & _ & _ & _ & _ & _ & _ & _ & _ & _ & Heq);
    [repeat constructor; simpl; lia|split; reflexivity|split; reflexivity|].
  eexists. exists coords. split; [reflexivity|]. split; [exact Hcoords|].
  exact Heq.
Defined.

(* ===================================================================== *)
(** * Type 2: sizes and position of the source rectangles *)
(* ===================================================================== *)

(** The base size [r = ceil(i / T)] and the remaining size
    [e = i - (T - 1) r]. *)
Lemma base_and_rest (T i : Z) :
  0 < T ->
  let r := (i + T - 1) / T in
  let e := i - (T - 1) * r in
  r - T < e <= r /\ (0 < i -> 0 < r) /\ ((T - 1) * (T - 1) < i -> 0 < e).
Proof.
  intros HT r e.
  pose proof (Z.div_mod (i + T - 1) T ltac:(lia)) as Hdiv.
  pose proof (Z.mod_pos_bound (i + T - 1) T HT) as Hmod.
  fold r in Hdiv. subst e. repeat split; nia.
Qed.

(** One axis of a source rectangle: the tile at position [col] of a line
    whose short tile is at position [L] starts at or after the border and ends
    at or before the opposite border. *)
Lemma source_interval (T D i col L : Z) :
  0 < T -> 0 <= D -> (T - 1) * (T - 1) < i ->
  0 <= col < T -> 0 <= L < T ->
  let r := (i + T - 1) / T in
  let e := i - (T - 1) * r in
  D <= D + col * (r + 2 * D) + (if L <? col then e - r else 0)
  /\ D + col * (r + 2 * D) + (if L <? col then e - r else 0)
     + (if L =? col then e else r) <= i + 2 * T * D - D.
Proof.
  intros HT HD Hi Hcol HL r e.
  destruct (base_and_rest T i HT) as (He & Hr & He0).
  fold r in He, Hr, He0. fold e in He, He0.
  assert (Hi0 : 0 < i) by nia.
  specialize (Hr Hi0). specialize (He0 Hi).
  assert (He' : e + (T - 1) * r = i) by (subst e; ring).
  clearbody e r. clear Hi Hi0.
  assert (H0 : 0 <= col * (r + 2 * D)) by (apply Z.mul_nonneg_nonneg; lia).
  assert (H1 : 1 <= col -> r + 2 * D <= col * (r + 2 * D)) by (intros; nia).
  assert (H2 : col * (r + 2 * D) <= (T - 1) * (r + 2 * D))
    by (apply Z.mul_le_mono_nonneg_r; lia).
  assert (H3 : col <= T - 2 -> col * (r + 2 * D) <= (T - 2) * (r + 2 * D))
    by (intros; apply Z.mul_le_mono_nonneg_r; lia).
  replace ((T - 1) * (r + 2 * D)) with (i - e + 2 * T * D - 2 * D) in H2
    by (rewrite <- He'; ring).
  replace ((T - 2) * (r + 2 * D)) with (i - e - r + 2 * T * D - 4 * D) in H3
    by (rewrite <- He'; ring).
  generalize dependent (col * (r + 2 * D)). intros X H0 H1 H2 H3.
  generalize dependent (2 * T * D). intros Y H2 H3.
  destruct (Z.ltb_spec L col); destruct (Z.eqb_spec L col); lia.
Qed.

(** X13.  On an engine built by the constructor whose non-empty
    permutation stays in [[0, T * j)], and an image that leaves an interior
    below 2^51 ([0 < i < 2^51], [0 < n < 2^51]), every rectangle is at most
    the base size [r] by [s] and misses it by less than [T] and [j]; once the
    interior is larger than [(T - 1)^2] by [(j - 1)^2] every width and height
    is positive. *)
Theorem type2_tile_sizes
    (key_h key_s : string) (self : Type2.t) (kt : list Z)
    (image_width image_height : Z) :
  Type2.__init__ key_h key_s = Ok self ->
  Type2.kt self = Some kt -> Type2.not_kt self = false ->
  Forall (fun v => 0 <= v < Type2.T self * Type2.j self) kt ->
  let T := Type2.T self in
  let j := Type2.j self in
  let i := image_width - 2 * T * Type2.Dt self in
  let n := image_height - 2 * j * Type2.Dt self in
  0 < i < 2 ^ 51 -> 0 < n < 2 ^ 51 ->
  exists coords,
    Type2.calculate_coords self image_width image_height = Ok coords
    /\ Forall (fun rc =>
                 (i + T - 1) / T - T < Rect.width rc <= (i + T - 1) / T
                 /\ (n + j - 1) / j - j < Rect.height rc <= (n + j - 1) / j
                 /\ ((T - 1) * (T - 1) < i -> 0 < Rect.width rc)
                 /\ ((j - 1) * (j - 1) < n -> 0 < Rect.height rc)) coords.
Proof.
  intros Hinit Hkt Hnot Hrange T j i n Hi Hn.
  destruct (type2_engine_model _ _ _ _ Hinit Hkt Hnot Hrange)
    as (Hvalid & [HT HT8] & [Hj Hj8] & _).
  eexists. split;
    [exact (type2_calculate_coords_eq self kt image_width image_height
              Hvalid Hkt HT8 Hj8 Hi Hn)|].
  fold T j i n in HT, Hj |- *. destruct Hi as [Hi _], Hn as [Hn _].
  destruct (base_and_rest T i HT) as (He & Hr & He0).
  destruct (base_and_rest j n Hj) as (Hh & Hs & Hh0).
  apply Forall_map, Forall_forall. intros o _.
  unfold tile2. cbn [Rect.width Rect.height]. fold T.
  specialize (Hr Hi). specialize (Hs Hn).
  split; [|split; [|split]].
  - destruct (_ =? _); lia.
  - destruct (_ =? _); lia.
  - intros Hlarge. specialize (He0 Hlarge). destruct (_ =? _); lia.
  - intros Hlarge. specialize (Hh0 Hlarge). destruct (_ =? _); lia.
Qed.

Lemma type2_tile_sizes_witness :
  exists coords,
    Type2.calculate_coords
      (Type2.mk (Some [3; 2; 1; 0]) 2 2 1 [0; 1] [1; 0] [1; 0] [0; 1]) 21 23
    = Ok coords
    /\ Forall (fun rc =>
                 (17 + 2 - 1) / 2 - 2 < Rect.width rc <= (17 + 2 - 1) / 2
                 /\ (19 + 2 - 1) / 2 - 2 < Rect.height rc <= (19 + 2 - 1) / 2
                 /\ ((2 - 1) * (2 - 1) < 17 -> 0 < Rect.width rc)
                 /\ ((2 - 1) * (2 - 1) < 19 -> 0 < Rect.height rc)) coords.
Proof.
  apply (type2_tile_sizes
           "=2-2-1-ABBADCBA" "=2-2+1-BAABABCD"
           (Type2.mk (Some [3; 2; 1; 0]) 2 2 1 [0; 1] [1; 0] [1; 0] [0; 1])
           [3; 2; 1; 0] 21 23 eq_refl eq_refl eq_refl).
  - repeat constructor; simpl; lia.
  - split; reflexivity.
  - split; reflexivity.
Defined.

(** X14.  On an engine built by the constructor whose non-empty
    permutation stays in [[0, T * j)], when the values of [Lt] are below
    [T], those of [Nt] below [j], and the interior is larger than
    [(T - 1)^2] by [(j - 1)^2] and below 2^51, every source rectangle lies
    inside the image, at least the border [D] away from each edge. *)
Theorem type2_source_inside_image
    (key_h key_s : string) (self : Type2.t) (kt : list Z)
    (image_width image_height : Z) :
  Type2.__init__ key_h key_s = Ok self ->
  Type2.kt self = Some kt -> Type2.not_kt self = false ->
  Forall (fun v => 0 <= v < Type2.T self * Type2.j self) kt ->
  Forall (fun v => v < Type2.T self) (Type2.Lt self) ->
  Forall (fun v => v < Type2.j self) (Type2.Nt self) ->
  let T := Type2.T self in
  let j := Type2.j self in
  let D := Type2.Dt self in
  (T - 1) * (T - 1) < image_width - 2 * T * D < 2 ^ 51 ->
  (j - 1) * (j - 1) < image_height - 2 * j * D < 2 ^ 51 ->
  exists coords,
    Type2.calculate_coords self image_width image_height = Ok coords
    /\ Forall (fun rc =>
                 0 <= D <= Rect.xsrc rc
                 /\ Rect.xsrc rc + Rect.width rc <= image_width - D
                 /\ D <= Rect.ysrc rc
                 /\ Rect.ysrc rc + Rect.height rc <= image_height - D) coords.
Proof.
  intros Hinit Hkt Hnot Hrange HLt HNt T j D Hi Hn.
  destruct (type2_engine_model _ _ _ _ Hinit Hkt Hnot Hrange)
    as (Hvalid & [HT HT8] & [Hj Hj8] & _).
  destruct Hi as [Hi Hi51], Hn as [Hn Hn51].
  destruct (type2_engine_facts _ _ _ _ Hinit Hkt)
    as (_ & _ & HD & _ & _ & _ & _ & HlLt & HlNt & HLt0 & HNt0).
  fold T j D in HT, Hj, HD, HlLt, HlNt, HLt, HNt.
  assert (HTj : 0 <= (T - 1) * (T - 1) /\ 0 <= (j - 1) * (j - 1)) by nia.
  eexists. split;
    [apply (type2_calculate_coords_eq self kt image_width image_height
              Hvalid Hkt HT8 Hj8); fold T j D; lia|].
  fold T j D.
  apply Forall_map, Forall_forall. intros o Ho. apply in_range in Ho.
  destruct (flat_index_split T j o HT Ho) as [Hcol Hrow].
  unfold tile2. cbn [Rect.xsrc Rect.ysrc Rect.width Rect.height].
  fold T D.
  assert (HLrow : 0 <= nth (Z.to_nat (o / T)) (Type2.Lt self) 0 < T).
  { assert (Hin : In (nth (Z.to_nat (o / T)) (Type2.Lt self) 0)
                     (Type2.Lt self))
      by (apply nth_In; unfold Py.llen in HlLt; lia).
    rewrite Forall_forall in HLt, HLt0.
    pose proof (HLt _ Hin). pose proof (HLt0 _ Hin). lia. }
  assert (HNcol : 0 <= nth (Z.to_nat (o mod T)) (Type2.Nt self) 0 < j).
  { assert (Hin : In (nth (Z.to_nat (o mod T)) (Type2.Nt self) 0)
                     (Type2.Nt self))
      by (apply nth_In; unfold Py.llen in HlNt; lia).
    rewrite Forall_forall in HNt, HNt0.
    pose proof (HNt _ Hin). pose proof (HNt0 _ Hin). lia. }
  destruct (source_interval T D _ _ _ HT HD Hi Hcol HLrow) as [Hx0 Hx1].
  destruct (source_interval j D _ _ _ Hj HD Hn Hrow HNcol) as [Hy0 Hy1].
  repeat split; try assumption; lia.
Qed.

Lemma type2_source_inside_image_witness :
  exists coords,
    Type2.calculate_coords
      (Type2.mk (Some [3; 2; 1; 0]) 2 2 1 [0; 1] [1; 0] [1; 0] [0; 1]) 21 23
    = Ok coords
    /\ Forall (fun rc =>
                 0 <= 1 <= Rect.xsrc rc
                 /\ Rect.xsrc rc + Rect.width rc <= 21 - 1
                 /\ 1 <= Rect.ysrc rc
                 /\ Rect.ysrc rc + Rect.height rc <= 23 - 1) coords.
Proof.
  apply (type2_source_inside_image
           "=2-2-1-ABBADCBA" "=2-2+1-BAABABCD"
           (Type2.mk (Some [3; 2; 1; 0]) 2 2 1 [0; 1] [1; 0] [1; 0] [0; 1])
           [3; 2; 1; 0] 21 23 eq_refl eq_refl eq_refl).
  - repeat constructor; simpl; lia.
  - repeat constructor.
  - repeat constructor.
  - split; reflexivity.
  - split; reflexivity.
Defined.
